(** * pybb.models: counters, topic and post lifecycle, read trackers, polls

    A shallow embedding of [pybb/models.py].  The relational store behind
    Django's ORM is a record of tables ([gmap]s from primary key to row);
    model instances are records holding the primary key, the column
    attributes and the per-instance caches Django keeps (a loaded related
    object, [Topic._head]).  Methods are functions in a state-and-exception
    monad over the store: an exception leaves the writes made so far in
    place, exactly as a Python [raise] does.

    Not embedded (external collaborators of the module): markup rendering
    ([RenderableItem.render]), the [post_save]/[post_delete] signal
    receivers that maintain user profiles and subscriptions, attachments,
    and the columns no method of the module reads (names, positions, ...). *)

From Stdlib Require Import ZArith Floats Ascii.
From stdpp Require Import gmap list sorting.

Local Open Scope Z_scope.

(** ** Exceptions and the state-and-exception monad *)

Inductive Exc : Type :=
  | IndexError
  | DoesNotExist
  | MultipleObjectsReturned
  | IntegrityError
  | InternalError
  | AssertionError
  | TypeError
  | ZeroDivisionError
  | OverflowError.

Global Instance Exc_eq_dec : EqDecision Exc.
Proof. solve_decision. Defined.

(** [django.db.DatabaseError] is the base class of the errors a database
    statement raises; [IntegrityError] and [InternalError] derive from it. *)
Definition is_DatabaseError (e : Exc) : bool :=
  match e with
  | IntegrityError | InternalError => true
  | _ => false
  end.

Inductive Result (A : Type) : Type :=
  | Ok (a : A)
  | Raise (e : Exc).
Global Arguments Ok {A} a.
Global Arguments Raise {A} e.

Definition M (S A : Type) : Type := S → Result A * S.

Global Instance M_ret {S} : MRet (M S) := λ A a s, (Ok a, s).
Global Instance M_bind {S} : MBind (M S) := λ A B k m s,
  match m s with
  | (Ok a, s') => k a s'
  | (Raise e, s') => (Raise e, s')
  end.

Definition raise {S A} (e : Exc) : M S A := λ s, (Raise e, s).
Definition gets {S A} (f : S → A) : M S A := λ s, (Ok (f s), s).
Definition modify {S} (f : S → S) : M S unit := λ s, (Ok tt, f s).

(** [try: body except handles as e: handler e] *)
Definition try_except {S A} (body : M S A) (handles : Exc → bool)
    (handler : Exc → M S A) : M S A := λ s,
  match body s with
  | (Ok a, s') => (Ok a, s')
  | (Raise e, s') => if handles e then handler e s' else (Raise e, s')
  end.

Definition from_option {S A} (e : Exc) (o : option A) : M S A :=
  match o with
  | Some a => mret a
  | None => raise e
  end.

(** ** Tables and rows *)

Record Table (A : Type) : Type := mkTable {
  rows : gmap Z A;
  next_id : Z
}.
Global Arguments mkTable {A} rows next_id.
Global Arguments rows {A} t.
Global Arguments next_id {A} t.

Definition QuerySet (A : Type) : Type := list (Z * A).

(** [INSERT] with an auto-increment primary key. *)
Definition tbl_insert {A} (r : A) (t : Table A) : Z * Table A :=
  (next_id t, mkTable (<[next_id t := r]> (rows t)) (next_id t + 1)).

(** Django's [save] of an instance that has a primary key: [UPDATE], and
    [INSERT] with that key when no row matched. *)
Definition tbl_update {A} (pk : Z) (r : A) (t : Table A) : Table A :=
  mkTable (<[pk := r]> (rows t)) (Z.max (next_id t) (pk + 1)).

Definition tbl_delete_where {A} (P : Z * A → Prop) `{!∀ x, Decision (P x)}
    (t : Table A) : Table A :=
  mkTable (filter (λ x, ¬ P x) (rows t)) (next_id t).

Definition tbl_filter {A} (P : Z * A → Prop) `{!∀ x, Decision (P x)}
    (t : Table A) : QuerySet A :=
  map_to_list (filter P (rows t)).

(** [QuerySet.count()] *)
Definition count {A} (qs : QuerySet A) : Z := Z.of_nat (length qs).

(** [qs[0]] *)
Definition first {S A} (qs : QuerySet A) : M S (Z * A) :=
  from_option IndexError (head qs).

Definition empty_table {A} : Table A := mkTable ∅ 1.

(** Columns.  Timestamps are numbers; a nullable column is an [option]. *)
Record ForumRow : Type := mkForumRow {
  fr_updated : option Z;
  fr_post_count : Z;
  fr_topic_count : Z
}.

Record TopicRow : Type := mkTopicRow {
  tr_forum_id : Z;
  tr_created : option Z;
  tr_updated : option Z;
  tr_post_count : Z;
  tr_on_moderation : bool;
  tr_poll_type : Z
}.

Record PostRow : Type := mkPostRow {
  pr_topic_id : Z;
  pr_created : Z;
  pr_updated : option Z;
  pr_on_moderation : bool
}.

Record PollAnswerRow : Type := mkPollAnswerRow {
  par_topic_id : Z
}.

Record PollAnswerUserRow : Type := mkPollAnswerUserRow {
  paur_poll_answer_id : Z;
  paur_user_id : Z
}.

(** [TopicReadTracker] and [ForumReadTracker] have the same columns: the
    user, the nullable topic or forum, and the [auto_now] time stamp. *)
Record TrackerRow : Type := mkTrackerRow {
  trk_user_id : Z;
  trk_target_id : option Z;
  trk_time_stamp : Z
}.

Record DB : Type := mkDB {
  forums : Table ForumRow;
  topics : Table TopicRow;
  posts : Table PostRow;
  poll_answers : Table PollAnswerRow;
  poll_answer_users : Table PollAnswerUserRow;
  topic_read_trackers : Table TrackerRow;
  forum_read_trackers : Table TrackerRow
}.

Definition set_forums (t : Table ForumRow) (db : DB) : DB :=
  mkDB t (topics db) (posts db) (poll_answers db) (poll_answer_users db)
       (topic_read_trackers db) (forum_read_trackers db).
Definition set_topics (t : Table TopicRow) (db : DB) : DB :=
  mkDB (forums db) t (posts db) (poll_answers db) (poll_answer_users db)
       (topic_read_trackers db) (forum_read_trackers db).
Definition set_posts (t : Table PostRow) (db : DB) : DB :=
  mkDB (forums db) (topics db) t (poll_answers db) (poll_answer_users db)
       (topic_read_trackers db) (forum_read_trackers db).
Definition set_topic_read_trackers (t : Table TrackerRow) (db : DB) : DB :=
  mkDB (forums db) (topics db) (posts db) (poll_answers db)
       (poll_answer_users db) t (forum_read_trackers db).
Definition set_forum_read_trackers (t : Table TrackerRow) (db : DB) : DB :=
  mkDB (forums db) (topics db) (posts db) (poll_answers db)
       (poll_answer_users db) (topic_read_trackers db) t.
Definition set_poll_answers (t : Table PollAnswerRow) (db : DB) : DB :=
  mkDB (forums db) (topics db) (posts db) t (poll_answer_users db)
       (topic_read_trackers db) (forum_read_trackers db).
Definition set_poll_answer_users (t : Table PollAnswerUserRow) (db : DB) : DB :=
  mkDB (forums db) (topics db) (posts db) (poll_answers db) t
       (topic_read_trackers db) (forum_read_trackers db).

(** ** Model instances *)

(** A foreign-key attribute of an instance: the raw id as loaded from the
    row, or the related instance once it was assigned or first accessed. *)
Inductive FK (A : Type) : Type :=
  | Unloaded (id : Z)
  | Loaded (obj : A).
Global Arguments Unloaded {A} id.
Global Arguments Loaded {A} obj.

Record Forum : Type := mkForum {
  Forum_id : Z;
  Forum_updated : option Z;
  Forum_post_count : Z;
  Forum_topic_count : Z
}.

Record Topic : Type := mkTopic {
  Topic_id : option Z;
  Topic_forum : FK Forum;
  Topic_created : option Z;
  Topic_updated : option Z;
  Topic_post_count : Z;
  Topic_on_moderation : bool;
  Topic_poll_type : Z;
  (** the [_head] attribute: absent, or the evaluated queryset *)
  Topic__head : option (QuerySet PostRow)
}.

Record Post : Type := mkPost {
  Post_id : option Z;
  Post_topic : FK Topic;
  Post_created : option Z;
  Post_updated : option Z;
  Post_on_moderation : bool
}.

Definition POLL_TYPE_NONE : Z := 0.
Definition POLL_TYPE_SINGLE : Z := 1.
Definition POLL_TYPE_MULTIPLE : Z := 2.

Definition Forum_set_updated (v : option Z) (self : Forum) : Forum :=
  mkForum (Forum_id self) v (Forum_post_count self) (Forum_topic_count self).
Definition Forum_set_post_count (v : Z) (self : Forum) : Forum :=
  mkForum (Forum_id self) (Forum_updated self) v (Forum_topic_count self).
Definition Forum_set_topic_count (v : Z) (self : Forum) : Forum :=
  mkForum (Forum_id self) (Forum_updated self) (Forum_post_count self) v.

Definition Topic_set_id (v : option Z) (self : Topic) : Topic :=
  mkTopic v (Topic_forum self) (Topic_created self) (Topic_updated self)
          (Topic_post_count self) (Topic_on_moderation self)
          (Topic_poll_type self) (Topic__head self).
Definition Topic_set_forum (v : FK Forum) (self : Topic) : Topic :=
  mkTopic (Topic_id self) v (Topic_created self) (Topic_updated self)
          (Topic_post_count self) (Topic_on_moderation self)
          (Topic_poll_type self) (Topic__head self).
Definition Topic_set_created (v : option Z) (self : Topic) : Topic :=
  mkTopic (Topic_id self) (Topic_forum self) v (Topic_updated self)
          (Topic_post_count self) (Topic_on_moderation self)
          (Topic_poll_type self) (Topic__head self).
Definition Topic_set_updated (v : option Z) (self : Topic) : Topic :=
  mkTopic (Topic_id self) (Topic_forum self) (Topic_created self) v
          (Topic_post_count self) (Topic_on_moderation self)
          (Topic_poll_type self) (Topic__head self).
Definition Topic_set_post_count (v : Z) (self : Topic) : Topic :=
  mkTopic (Topic_id self) (Topic_forum self) (Topic_created self)
          (Topic_updated self) v (Topic_on_moderation self)
          (Topic_poll_type self) (Topic__head self).
Definition Topic_set_on_moderation (v : bool) (self : Topic) : Topic :=
  mkTopic (Topic_id self) (Topic_forum self) (Topic_created self)
          (Topic_updated self) (Topic_post_count self) v
          (Topic_poll_type self) (Topic__head self).
Definition Topic_set__head (v : option (QuerySet PostRow)) (self : Topic) : Topic :=
  mkTopic (Topic_id self) (Topic_forum self) (Topic_created self)
          (Topic_updated self) (Topic_post_count self)
          (Topic_on_moderation self) (Topic_poll_type self) v.

Definition Post_set_id (v : option Z) (self : Post) : Post :=
  mkPost v (Post_topic self) (Post_created self) (Post_updated self)
         (Post_on_moderation self).
Definition Post_set_topic (v : FK Topic) (self : Post) : Post :=
  mkPost (Post_id self) v (Post_created self) (Post_updated self)
         (Post_on_moderation self).
Definition Post_set_created (v : option Z) (self : Post) : Post :=
  mkPost (Post_id self) (Post_topic self) v (Post_updated self)
         (Post_on_moderation self).

(** The [forum_id] and [topic_id] attributes. *)
Definition Topic_forum_id (self : Topic) : Z :=
  match Topic_forum self with
  | Unloaded id => id
  | Loaded forum => Forum_id forum
  end.

Definition Post_topic_id (self : Post) : option Z :=
  match Post_topic self with
  | Unloaded id => Some id
  | Loaded topic => Topic_id topic
  end.

Definition Forum_of_row (pk : Z) (r : ForumRow) : Forum :=
  mkForum pk (fr_updated r) (fr_post_count r) (fr_topic_count r).
Definition Forum_to_row (self : Forum) : ForumRow :=
  mkForumRow (Forum_updated self) (Forum_post_count self)
             (Forum_topic_count self).

Definition Topic_of_row (pk : Z) (r : TopicRow) : Topic :=
  mkTopic (Some pk) (Unloaded (tr_forum_id r)) (tr_created r) (tr_updated r)
          (tr_post_count r) (tr_on_moderation r) (tr_poll_type r) None.
Definition Topic_to_row (self : Topic) : TopicRow :=
  mkTopicRow (Topic_forum_id self) (Topic_created self) (Topic_updated self)
             (Topic_post_count self) (Topic_on_moderation self)
             (Topic_poll_type self).

Definition Post_of_row (pk : Z) (r : PostRow) : Post :=
  mkPost (Some pk) (Unloaded (pr_topic_id r)) (Some (pr_created r))
         (pr_updated r) (pr_on_moderation r).

(** ** Managers and querysets *)

Definition Forum_objects_get (pk : Z) : M DB Forum :=
  r ← gets (λ db, rows (forums db) !! pk);
  from_option DoesNotExist (Forum_of_row pk <$> r).

Definition Topic_objects_get (pk : Z) : M DB Topic :=
  r ← gets (λ db, rows (topics db) !! pk);
  from_option DoesNotExist (Topic_of_row pk <$> r).

Definition Post_objects_get (pk : Z) : M DB Post :=
  r ← gets (λ db, rows (posts db) !! pk);
  from_option DoesNotExist (Post_of_row pk <$> r).

(** [Post.objects.filter(topic_id=...)], which is also what the related
    manager [topic.posts] selects; an unsaved topic has no posts. *)
Definition Post_objects_filter_topic_id (topic_id : option Z) (db : DB)
    : QuerySet PostRow :=
  match topic_id with
  | Some tid => tbl_filter (λ p, pr_topic_id p.2 = tid) (posts db)
  | None => []
  end.

(** [Post.objects.filter(topic__forum_id=...)]: the join of posts with
    their topics. *)
Definition Post_objects_filter_topic__forum_id (forum_id : Z) (db : DB)
    : QuerySet PostRow :=
  tbl_filter
    (λ p, tr_forum_id <$> rows (topics db) !! pr_topic_id p.2 = Some forum_id)
    (posts db).

(** [Topic.objects.filter(forum=...)] *)
Definition Topic_objects_filter_forum (forum_id : Z) (db : DB)
    : QuerySet TopicRow :=
  tbl_filter (λ t, tr_forum_id t.2 = forum_id) (topics db).

(** The ordering key [(created, id)]. *)
Definition post_key_le (p q : Z * PostRow) : Prop :=
  pr_created p.2 < pr_created q.2 ∨
  (pr_created p.2 = pr_created q.2 ∧ p.1 ≤ q.1).

Global Instance post_key_le_dec p q : Decision (post_key_le p q).
Proof. unfold post_key_le. apply _. Defined.

(** [order_by('created', 'id')] and [order_by('-created', '-id')] *)
Definition order_by_created_id (qs : QuerySet PostRow) : QuerySet PostRow :=
  merge_sort post_key_le qs.
Definition order_by_created_id_desc (qs : QuerySet PostRow)
    : QuerySet PostRow :=
  merge_sort (flip post_key_le) qs.

(** [last_post.updated or last_post.created] *)
Definition updated_or_created (p : Z * PostRow) : Z :=
  default (pr_created p.2) (pr_updated p.2).

(** Access to the related instance: loaded from the store on first use and
    kept on the instance afterwards. *)
Definition Topic_get_forum (self : Topic) : M DB (Forum * Topic) :=
  match Topic_forum self with
  | Loaded forum => mret (forum, self)
  | Unloaded id =>
      forum ← Forum_objects_get id;
      mret (forum, Topic_set_forum (Loaded forum) self)
  end.

Definition Post_get_topic (self : Post) : M DB (Topic * Post) :=
  match Post_topic self with
  | Loaded topic => mret (topic, self)
  | Unloaded id =>
      topic ← Topic_objects_get id;
      mret (topic, Post_set_topic (Loaded topic) self)
  end.

(** ** Forum *)

(** [models.Model.save] for a forum (the class does not override it). *)
Definition Forum_save (self : Forum) : M DB unit :=
  modify (λ db,
    set_forums (tbl_update (Forum_id self) (Forum_to_row self) (forums db)) db).

Definition Forum_update_counters (self : Forum) : M DB Forum :=
  posts ← gets (Post_objects_filter_topic__forum_id (Forum_id self));
  let self := Forum_set_post_count (count posts) self in
  topic_count ← gets (λ db, count (Topic_objects_filter_forum (Forum_id self) db));
  let self := Forum_set_topic_count topic_count self in
  self ← try_except
    (last_post ← first (order_by_created_id_desc posts);
     mret (Forum_set_updated (Some (updated_or_created last_post)) self))
    (λ e, bool_decide (e = IndexError))
    (λ _, mret self);
  Forum_save self;;
  mret self.

(** ** Topic *)

(** The related manager [self.posts]. *)
Definition Topic_posts (self : Topic) (db : DB) : QuerySet PostRow :=
  Post_objects_filter_topic_id (Topic_id self) db.

(** The [head] property: the first post by [(created, id)], with the
    evaluated queryset kept in [_head]. *)
Definition Topic_head (self : Topic) : M DB (option (Z * PostRow) * Topic) :=
  self ← match Topic__head self with
         | Some _ => mret self
         | None =>
             qs ← gets (λ db, order_by_created_id (Topic_posts self db));
             mret (Topic_set__head (Some qs) self)
         end;
  match Topic__head self with
  | Some (p :: _) => mret (Some p, self)
  | _ => mret (None, self)
  end.

(** [super(Topic, self).save()]: the row is written with the instance's
    attributes; the forum reference must exist. *)
Definition Topic_super_save (self : Topic) : M DB Topic :=
  fk ← gets (λ db, rows (forums db) !! Topic_forum_id self);
  match fk with
  | None => raise IntegrityError
  | Some _ =>
      match Topic_id self with
      | Some pk =>
          modify (λ db,
            set_topics (tbl_update pk (Topic_to_row self) (topics db)) db);;
          mret self
      | None =>
          pk ← (λ db, let '(pk, t) := tbl_insert (Topic_to_row self) (topics db)
                      in (Ok pk, set_topics t db));
          mret (Topic_set_id (Some pk) self)
      end
  end.

Definition Topic_save (now : Z) (self : Topic) : M DB Topic :=
  let self := match Topic_id self with
              | None => Topic_set_created (Some now) self
              | Some _ => self
              end in
  '(forum_changed, old_topic, self) ←
    match Topic_id self with
    | Some pk =>
        old_topic ← Topic_objects_get pk;
        '(forum, self) ← Topic_get_forum self;
        '(old_forum, old_topic) ← Topic_get_forum old_topic;
        mret (negb (bool_decide (Forum_id forum = Forum_id old_forum)),
              Some old_topic, self)
    | None => mret (false, None, self)
    end;
  self ← Topic_super_save self;
  match forum_changed, old_topic with
  | true, Some old_topic =>
      '(old_forum, _) ← Topic_get_forum old_topic;
      Forum_update_counters old_forum;;
      '(forum, self) ← Topic_get_forum self;
      forum ← Forum_update_counters forum;
      mret (Topic_set_forum (Loaded forum) self)
  | _, _ => mret self
  end.

(** [super(Topic, self).delete()]: the collector removes the topic and
    every row that references it, directly or through a post or an answer. *)
Definition Topic_cascade (pk : Z) (db : DB) : DB :=
  mkDB (forums db)
       (tbl_delete_where (λ t, t.1 = pk) (topics db))
       (tbl_delete_where (λ p, pr_topic_id p.2 = pk) (posts db))
       (tbl_delete_where (λ a, par_topic_id a.2 = pk) (poll_answers db))
       (tbl_delete_where
          (λ v, par_topic_id <$> rows (poll_answers db) !! paur_poll_answer_id v.2
                = Some pk)
          (poll_answer_users db))
       (tbl_delete_where (λ k, trk_target_id k.2 = Some pk)
          (topic_read_trackers db))
       (forum_read_trackers db).

Definition Topic_super_delete (self : Topic) : M DB Topic :=
  match Topic_id self with
  | None => raise AssertionError
  | Some pk => modify (Topic_cascade pk);; mret (Topic_set_id None self)
  end.

Definition Topic_delete (self : Topic) : M DB unit :=
  self ← Topic_super_delete self;
  '(forum, _) ← Topic_get_forum self;
  Forum_update_counters forum;;
  mret tt.

Definition Topic_update_counters (now : Z) (self : Topic) : M DB Topic :=
  post_count ← gets (λ db, count (Topic_posts self db));
  let self := Topic_set_post_count post_count self in
  last_post ← (qs ← gets (λ db, order_by_created_id_desc
                                  (Post_objects_filter_topic_id (Topic_id self) db));
               first qs);
  let self := Topic_set_updated (Some (updated_or_created last_post)) self in
  Topic_save now self.

(** ** Post *)

(** [head == self] for the result of [Topic.head]: [None] equals no post,
    and two posts are equal when their primary keys are. *)
Definition Post_eq_opt (head : option (Z * PostRow)) (self : Post) : bool :=
  match head with
  | Some p => bool_decide (Some p.1 = Post_id self)
  | None => false
  end.

(** [super(Post, self).save()] *)
Definition Post_super_save (self : Post) : M DB Post :=
  match Post_topic_id self, Post_created self with
  | Some tid, Some created =>
      fk ← gets (λ db, rows (topics db) !! tid);
      match fk with
      | None => raise IntegrityError
      | Some _ =>
          let r := mkPostRow tid created (Post_updated self)
                             (Post_on_moderation self) in
          match Post_id self with
          | Some pk =>
              modify (λ db, set_posts (tbl_update pk r (posts db)) db);;
              mret self
          | None =>
              pk ← (λ db, let '(pk, t) := tbl_insert r (posts db)
                          in (Ok pk, set_posts t db));
              mret (Post_set_id (Some pk) self)
          end
      end
  | _, _ => raise IntegrityError
  end.

Definition Post_save (now : Z) (self : Post) : M DB Post :=
  let created_at := now in
  let self := match Post_created self with
              | None => Post_set_created (Some created_at) self
              | Some _ => self
              end in
  (* self.render() *)
  '(topic_changed, old_post, self) ←
    match Post_id self with
    | None => mret (false, None, self)
    | Some pk =>
        old_post ← Post_objects_get pk;
        '(old_topic, old_post) ← Post_get_topic old_post;
        '(topic, self) ← Post_get_topic self;
        mret (negb (bool_decide (Topic_id old_topic = Topic_id topic)),
              Some old_post, self)
    end;
  self ← Post_super_save self;
  '(topic, self) ← Post_get_topic self;
  '(head, topic) ← Topic_head topic;
  let topic :=
    if Post_eq_opt head self
       && negb (Post_on_moderation self) && Topic_on_moderation topic
    then Topic_set_on_moderation false topic
    else topic in
  topic ← Topic_update_counters now topic;
  '(forum, topic) ← Topic_get_forum topic;
  forum ← Forum_update_counters forum;
  let self := Post_set_topic (Loaded (Topic_set_forum (Loaded forum) topic)) self in
  match topic_changed, old_post with
  | true, Some old_post =>
      '(old_topic, _) ← Post_get_topic old_post;
      old_topic ← Topic_update_counters now old_topic;
      '(old_forum, _) ← Topic_get_forum old_topic;
      Forum_update_counters old_forum;;
      mret self
  | _, _ => mret self
  end.

(** [super(Post, self).delete()] *)
Definition Post_super_delete (self : Post) : M DB Post :=
  match Post_id self with
  | None => raise AssertionError
  | Some pk =>
      modify (λ db, set_posts (tbl_delete_where (λ p, p.1 = pk) (posts db)) db);;
      mret (Post_set_id None self)
  end.

Definition Post_delete (now : Z) (self : Post) : M DB unit :=
  let self_id := Post_id self in
  '(topic, self) ← Post_get_topic self;
  head_post ← (qs ← gets (λ db, order_by_created_id (Topic_posts topic db));
               first qs);
  let head_post_id := head_post.1 in
  if bool_decide (self_id = Some head_post_id) then
    Topic_delete topic
  else
    self ← Post_super_delete self;
    topic ← Topic_update_counters now topic;
    '(forum, _) ← Topic_get_forum topic;
    Forum_update_counters forum;;
    mret tt.

(** ** Read trackers *)

(** A connection inside a transaction: the store as the transaction sees
    it, the established savepoints (innermost first) with the store each
    one recorded, and whether a statement has failed since the last
    rollback; a failed statement leaves the store as it was and every
    further statement fails until a rollback to a savepoint. *)
Record Connection : Type := mkConnection {
  conn_db : DB;
  conn_savepoints : list (Z * DB);
  conn_next_sid : Z;
  conn_errored : bool
}.

Definition execute {A} (stmt : M DB A) : M Connection A := λ c,
  if conn_errored c then (Raise InternalError, c)
  else match stmt (conn_db c) with
       | (Ok a, db') =>
           (Ok a, mkConnection db' (conn_savepoints c) (conn_next_sid c) false)
       | (Raise e, db') =>
           if is_DatabaseError e
           then (Raise e, mkConnection (conn_db c) (conn_savepoints c)
                                       (conn_next_sid c) true)
           else (Raise e, mkConnection db' (conn_savepoints c)
                                       (conn_next_sid c) false)
       end.

Fixpoint savepoint_lookup (sid : Z) (sps : list (Z * DB))
    : option (DB * list (Z * DB)) :=
  match sps with
  | [] => None
  | (s, db) :: rest =>
      if decide (s = sid) then Some (db, rest) else savepoint_lookup sid rest
  end.

(** [transaction.savepoint()] *)
Definition transaction_savepoint : M Connection Z := λ c,
  if conn_errored c then (Raise InternalError, c)
  else (Ok (conn_next_sid c),
        mkConnection (conn_db c)
                     ((conn_next_sid c, conn_db c) :: conn_savepoints c)
                     (conn_next_sid c + 1) false).

(** [transaction.savepoint_commit(sid)]: the savepoint and those
    established after it are released. *)
Definition transaction_savepoint_commit (sid : Z) : M Connection unit := λ c,
  if conn_errored c then (Raise InternalError, c)
  else match savepoint_lookup sid (conn_savepoints c) with
       | Some (_, rest) =>
           (Ok tt, mkConnection (conn_db c) rest (conn_next_sid c) false)
       | None =>
           (Raise InternalError,
            mkConnection (conn_db c) (conn_savepoints c) (conn_next_sid c) true)
       end.

(** [transaction.savepoint_rollback(sid)]: the store is the one the
    savepoint recorded; the savepoint stays established. *)
Definition transaction_savepoint_rollback (sid : Z) : M Connection unit := λ c,
  match savepoint_lookup sid (conn_savepoints c) with
  | Some (db, rest) =>
      (Ok tt, mkConnection db ((sid, db) :: rest) (conn_next_sid c) false)
  | None =>
      (Raise InternalError,
       mkConnection (conn_db c) (conn_savepoints c) (conn_next_sid c) true)
  end.

(** Modelled from the spec: [pybb.compat.get_atomic_func] is not part of
    the source.  It yields the context manager the insert runs in, "a
    nested transaction (savepoint)": committed when the block completes,
    rolled back, and the exception raised again, when it raises. *)
Definition get_atomic_func {A} (body : M Connection A) : M Connection A :=
  sid ← transaction_savepoint;
  try_except
    (a ← body; transaction_savepoint_commit sid;; mret a)
    (λ _, true)
    (λ e, transaction_savepoint_rollback sid;;
          transaction_savepoint_commit sid;;
          raise e).

(** The two tracker models differ in the table and in the model the
    nullable foreign key refers to. *)
Inductive TrackerModel : Type := TopicReadTracker | ForumReadTracker.

Definition tracker_table (k : TrackerModel) (db : DB) : Table TrackerRow :=
  match k with
  | TopicReadTracker => topic_read_trackers db
  | ForumReadTracker => forum_read_trackers db
  end.

Definition set_tracker_table (k : TrackerModel) (t : Table TrackerRow)
    (db : DB) : DB :=
  match k with
  | TopicReadTracker => set_topic_read_trackers t db
  | ForumReadTracker => set_forum_read_trackers t db
  end.

Definition tracker_target_exists (k : TrackerModel) (db : DB) (id : Z) : bool :=
  match k with
  | TopicReadTracker => bool_decide (is_Some (rows (topics db) !! id))
  | ForumReadTracker => bool_decide (is_Some (rows (forums db) !! id))
  end.

Record Tracker : Type := mkTracker {
  Tracker_id : Z;
  Tracker_user_id : Z;
  Tracker_target_id : option Z;
  Tracker_time_stamp : Z
}.

Definition Tracker_of_row (pk : Z) (r : TrackerRow) : Tracker :=
  mkTracker pk (trk_user_id r) (trk_target_id r) (trk_time_stamp r).

(** The rows [unique_together] forbids a second time: same user and same
    topic (or forum); a null reference conflicts with nothing. *)
Definition tracker_conflicts (k : TrackerModel) (user : Z) (target : option Z)
    (db : DB) : QuerySet TrackerRow :=
  tbl_filter (λ r, trk_user_id r.2 = user ∧ trk_target_id r.2 = target
                   ∧ is_Some target)
             (tracker_table k db).

(** [Model.objects.create(user=..., topic=...)] (or [forum=...]): the
    insert fails on a duplicate and on a reference to a missing row;
    [time_stamp] is set to the current time. *)
Definition Tracker_objects_create (k : TrackerModel) (now user : Z)
    (target : option Z) : M DB Tracker := λ db,
  if bool_decide (tracker_conflicts k user target db ≠ [])
  then (Raise IntegrityError, db)
  else if bool_decide (tracker_target_exists k db <$> target = Some false)
  then (Raise IntegrityError, db)
  else
    let r := mkTrackerRow user target now in
    let '(pk, t) := tbl_insert r (tracker_table k db) in
    (Ok (Tracker_of_row pk r), set_tracker_table k t db).

(** [Model.objects.get(user=..., topic=...)] (or [forum=...]) *)
Definition Tracker_objects_get (k : TrackerModel) (user : Z)
    (target : option Z) : M DB Tracker := λ db,
  match tbl_filter (λ r, trk_user_id r.2 = user ∧ trk_target_id r.2 = target)
                   (tracker_table k db) with
  | [] => (Raise DoesNotExist, db)
  | [(pk, r)] => (Ok (Tracker_of_row pk r), db)
  | _ => (Raise MultipleObjectsReturned, db)
  end.

Definition TopicReadTrackerManager_get_or_create_tracker (now : Z)
    (user : Z) (topic : option Z) : M Connection (Tracker * bool) :=
  let is_new := true in
  sid ← transaction_savepoint;
  try_except
    (obj ← get_atomic_func
              (execute (Tracker_objects_create TopicReadTracker now user topic));
     transaction_savepoint_commit sid;;
     mret (obj, is_new))
    is_DatabaseError
    (λ _,
     transaction_savepoint_rollback sid;;
     obj ← execute (Tracker_objects_get TopicReadTracker user topic);
     let is_new := false in
     mret (obj, is_new)).

Definition ForumReadTrackerManager_get_or_create_tracker (now : Z)
    (user : Z) (forum : option Z) : M Connection (Tracker * bool) :=
  let is_new := true in
  sid ← transaction_savepoint;
  try_except
    (obj ← get_atomic_func
              (execute (Tracker_objects_create ForumReadTracker now user forum));
     transaction_savepoint_commit sid;;
     mret (obj, is_new))
    is_DatabaseError
    (λ _,
     transaction_savepoint_rollback sid;;
     let is_new := false in
     obj ← execute (Tracker_objects_get ForumReadTracker user forum);
     mret (obj, is_new)).

(** Both managers, by model. *)
Definition get_or_create_tracker (k : TrackerModel)
    : Z → Z → option Z → M Connection (Tracker * bool) :=
  match k with
  | TopicReadTracker => TopicReadTrackerManager_get_or_create_tracker
  | ForumReadTracker => ForumReadTrackerManager_get_or_create_tracker
  end.

(** ** Polls *)

(** The Python values the poll methods return. *)
Inductive PyVal : Type :=
  | PyNone
  | PyInt (n : Z)
  | PyFloat (x : float).

(** The interpreter: [None > 0] is [False] in Python 2, where [None]
    orders below every number, and a [TypeError] in Python 3. *)
Inductive PyVersion : Type := Python2 | Python3.

(** [float(n)] for an integer: the nearest double, ties to even. *)
Definition float_of_Z (n : Z) : float :=
  SF2Prim (binary_normalize prec emax n 0 false).

(** [a > n] for an integer literal [n]. *)
Definition py_gt {S} (v : PyVersion) (a : PyVal) (n : Z) : M S bool :=
  match a with
  | PyInt m => mret (bool_decide (n < m))
  | PyFloat x => mret (PrimFloat.ltb (float_of_Z n) x)
  | PyNone =>
      match v with
      | Python2 => mret false
      | Python3 => raise TypeError
      end
  end.

(** [x * n] and [x / a] for a float [x]: the other operand is converted to
    float; dividing by zero raises. *)
Definition py_float_mul_int {S} (x : float) (n : Z) : M S float :=
  mret (x * float_of_Z n)%float.

Definition py_float_div {S} (x : float) (a : PyVal) : M S float :=
  match a with
  | PyInt n =>
      if bool_decide (n = 0) then raise ZeroDivisionError
      else mret (x / float_of_Z n)%float
  | PyFloat y =>
      if PrimFloat.eqb y 0 then raise ZeroDivisionError
      else mret (x / y)%float
  | PyNone => raise TypeError
  end.

Record PollAnswer : Type := mkPollAnswer {
  PollAnswer_id : option Z;
  PollAnswer_topic : FK Topic
}.

Definition PollAnswer_set_topic (v : FK Topic) (self : PollAnswer) : PollAnswer :=
  mkPollAnswer (PollAnswer_id self) v.

Definition PollAnswer_of_row (pk : Z) (r : PollAnswerRow) : PollAnswer :=
  mkPollAnswer (Some pk) (Unloaded (par_topic_id r)).

Definition PollAnswer_get_topic (self : PollAnswer) : M DB (Topic * PollAnswer) :=
  match PollAnswer_topic self with
  | Loaded topic => mret (topic, self)
  | Unloaded id =>
      topic ← Topic_objects_get id;
      mret (topic, PollAnswer_set_topic (Loaded topic) self)
  end.

(** [PollAnswerUser.objects.filter(poll_answer__topic=...)]: the join of
    votes with their answers. *)
Definition PollAnswerUser_objects_filter_poll_answer__topic
    (topic_id : option Z) (db : DB) : QuerySet PollAnswerUserRow :=
  match topic_id with
  | Some tid =>
      tbl_filter
        (λ u, par_topic_id <$> rows (poll_answers db) !! paur_poll_answer_id u.2
              = Some tid)
        (poll_answer_users db)
  | None => []
  end.

(** The related manager [answer.users]. *)
Definition PollAnswer_users (self : PollAnswer) (db : DB)
    : QuerySet PollAnswerUserRow :=
  match PollAnswer_id self with
  | Some pk => tbl_filter (λ u, paur_poll_answer_id u.2 = pk) (poll_answer_users db)
  | None => []
  end.

Definition Topic_poll_votes (self : Topic) : M DB PyVal :=
  if bool_decide (Topic_poll_type self ≠ POLL_TYPE_NONE) then
    n ← gets (λ db, count (PollAnswerUser_objects_filter_poll_answer__topic
                             (Topic_id self) db));
    mret (PyInt n)
  else
    mret PyNone.

Definition PollAnswer_votes (self : PollAnswer) : M DB Z :=
  gets (λ db, count (PollAnswer_users self db)).

Definition PollAnswer_votes_percent (v : PyVersion) (self : PollAnswer)
    : M DB PyVal :=
  '(topic, self) ← PollAnswer_get_topic self;
  topic_votes ← Topic_poll_votes topic;
  positive ← py_gt v topic_votes 0;
  if positive : bool then
    votes ← PollAnswer_votes self;
    x ← py_float_mul_int 1 votes;
    x ← py_float_div x topic_votes;
    x ← py_float_mul_int x 100;
    mret (PyFloat x)
  else
    mret (PyInt 0).

(** ** Last posts *)

(** The [posts] property of a forum:
    [Post.objects.filter(topic__forum=self)]. *)
Definition Forum_posts (self : Forum) (db : DB) : QuerySet PostRow :=
  Post_objects_filter_topic__forum_id (Forum_id self) db.

(** The [last_post] property of a forum. *)
Definition Forum_last_post (self : Forum) : M DB (option (Z * PostRow)) :=
  try_except
    (qs ← gets (λ db, order_by_created_id_desc (Forum_posts self db));
     p ← first qs;
     mret (Some p))
    (λ e, bool_decide (e = IndexError))
    (λ _, mret None).

(** The [last_post] property of a topic.  The instance attribute
    [_last_post] is passed and returned beside the result: [None] when the
    attribute is absent (a stored post is never falsy). *)
Definition Topic_last_post (self : Topic) (_last_post : option (Z * PostRow))
    : M DB ((Z * PostRow) * option (Z * PostRow)) :=
  match _last_post with
  | Some p => mret (p, Some p)
  | None =>
      qs ← gets (λ db, order_by_created_id_desc (Topic_posts self db));
      p ← first qs;
      mret (p, Some p)
  end.

(** ** Post.summary *)

(** The values the expression [len(self.body) > LIMIT and '...' or '']
    ranges over: booleans and strings (a string is a list of characters). *)
Inductive PyObj : Type :=
  | PyBool (b : bool)
  | PyStr (s : list ascii).

(** Truth value: [False] and the empty string are false. *)
Definition py_truth (v : PyObj) : bool :=
  match v with
  | PyBool b => b
  | PyStr [] => false
  | PyStr (_ :: _) => true
  end.

(** [a and b], [a or b]: the operand that decides the result. *)
Definition py_and (a b : PyObj) : PyObj := if py_truth a then b else a.
Definition py_or (a b : PyObj) : PyObj := if py_truth a then a else b.

(** [s + v] for a string [s] *)
Definition py_str_add (s : list ascii) (v : PyObj) : Result (list ascii) :=
  match v with
  | PyStr t => Ok (s ++ t)
  | PyBool _ => Raise TypeError
  end.

Definition Post_summary (body : list ascii) : Result (list ascii) :=
  let LIMIT := 50%nat in
  let tail :=
    py_or (py_and (PyBool (bool_decide (LIMIT < length body)%nat))
                  (PyStr ["."; "."; "."]%char))
          (PyStr []) in
  py_str_add (take LIMIT body) tail.

(** [Post.__str__] *)
Definition Post___str__ (body : list ascii) : Result (list ascii) :=
  Post_summary body.

(** ** Breadcrumbs *)

(** The columns of a forum row that only the breadcrumb methods read: the
    category and the nullable parent forum.  They are kept beside the
    store, keyed by the primary key of the forum row they belong to,
    together with the primary keys of the category rows. *)
Record ForumLinks : Type := mkForumLinks {
  fl_category_id : Z;
  fl_parent_id : option Z
}.

Record Hierarchy : Type := mkHierarchy {
  categories : gset Z;
  forum_links : gmap Z ForumLinks
}.

(** An element of the lists [get_parents] builds: a category or a forum
    instance, identified by its primary key. *)
Inductive Crumb : Type :=
  | CategoryCrumb (pk : Z)
  | ForumCrumb (pk : Z).

Global Instance Crumb_eq_dec : EqDecision Crumb.
Proof. solve_decision. Defined.

(** [list.insert(i, x)] for [0 <= i]: before position [i], at the end when
    the list is shorter. *)
Definition py_list_insert {A} (i : nat) (x : A) (l : list A) : list A :=
  take i l ++ x :: drop i l.

(** [forum.category] and [forum.parent]: the related row is fetched by
    its key. *)
Definition ForumLinks_category (h : Hierarchy) (l : ForumLinks) : Result Crumb :=
  if decide (fl_category_id l ∈ categories h)
  then Ok (CategoryCrumb (fl_category_id l))
  else Raise DoesNotExist.

Definition ForumLinks_parent (h : Hierarchy) (l : ForumLinks)
    : Result (option (Z * ForumLinks)) :=
  match fl_parent_id l with
  | None => Ok None
  | Some p =>
      match forum_links h !! p with
      | Some lp => Ok (Some (p, lp))
      | None => Raise DoesNotExist
      end
  end.

(** The [while] loop of [Forum.get_parents]; [None] when [fuel] iterations
    did not end it. *)
Fixpoint Forum_get_parents_loop (fuel : nat) (h : Hierarchy)
    (parents : list Crumb) (parent : option (Z * ForumLinks))
    : option (Result (list Crumb)) :=
  match parent with
  | None => Some (Ok parents)
  | Some (p, lp) =>
      match fuel with
      | O => None
      | S fuel =>
          let parents := py_list_insert 1 (ForumCrumb p) parents in
          match ForumLinks_parent h lp with
          | Ok parent => Forum_get_parents_loop fuel h parents parent
          | Raise e => Some (Raise e)
          end
      end
  end.

Definition Forum_get_parents (fuel : nat) (h : Hierarchy) (self : ForumLinks)
    : option (Result (list Crumb)) :=
  match ForumLinks_category h self with
  | Raise e => Some (Raise e)
  | Ok category =>
      let parents := [category] in
      match ForumLinks_parent h self with
      | Raise e => Some (Raise e)
      | Ok parent => Forum_get_parents_loop fuel h parents parent
      end
  end.

(** [Topic.get_parents], for the topic's [forum_id]. *)
Definition Topic_get_parents (fuel : nat) (h : Hierarchy) (self : Topic)
    : option (Result (list Crumb)) :=
  match forum_links h !! Topic_forum_id self with
  | None => Some (Raise DoesNotExist)
  | Some forum =>
      match Forum_get_parents fuel h forum with
      | Some (Ok parents) =>
          Some (Ok (parents ++ [ForumCrumb (Topic_forum_id self)]))
      | r => r
      end
  end.

(** [Post.get_parents]: the tuple of the category, the forum and the
    topic instance. *)
Definition Post_get_parents (h : Hierarchy) (self : Post)
    : M DB (Crumb * Crumb * Topic) :=
  '(topic, self) ← Post_get_topic self;
  forum ← from_option DoesNotExist (forum_links h !! Topic_forum_id topic);
  category ← match ForumLinks_category h forum with
             | Ok c => mret c
             | Raise e => raise e
             end;
  mret (category, ForumCrumb (Topic_forum_id topic), topic).

(** ** Category *)

(** The related manager [category.forums], as the keys and link columns of
    the forum rows of the category. *)
Definition Category_forums (h : Hierarchy) (c : Z) : list (Z * ForumLinks) :=
  map_to_list (filter (λ l, fl_category_id l.2 = c) (forum_links h)).

Definition Category_forum_count (h : Hierarchy) (c : Z) : Z :=
  Z.of_nat (length (Category_forums h c)).

(** [Topic.objects.filter(forum__category=self)] *)
Definition Category_topics (h : Hierarchy) (c : Z) (db : DB)
    : QuerySet TopicRow :=
  tbl_filter
    (λ t, fl_category_id <$> forum_links h !! tr_forum_id t.2 = Some c)
    (topics db).

(** [Post.objects.filter(topic__forum__category=self)] *)
Definition Category_posts (h : Hierarchy) (c : Z) (db : DB)
    : QuerySet PostRow :=
  tbl_filter
    (λ p, (rows (topics db) !! pr_topic_id p.2
             ≫= λ tr, fl_category_id <$> forum_links h !! tr_forum_id tr)
          = Some c)
    (posts db).

(** * Reasoning principles *)

(** ** The monad *)

Section monad_facts.
Context {S : Type}.

Lemma bind_ok {A B} (m : M S A) (k : A → M S B) s a s' :
  m s = (Ok a, s') → (m ≫= k) s = k a s'.
Proof. intros Hm. unfold mbind, M_bind. by rewrite Hm. Qed.

Lemma bind_raise {A B} (m : M S A) (k : A → M S B) s e s' :
  m s = (Raise e, s') → (m ≫= k) s = (Raise e, s').
Proof. intros Hm. unfold mbind, M_bind. by rewrite Hm. Qed.

Lemma bind_ok_inv {A B} (m : M S A) (k : A → M S B) s b s'' :
  (m ≫= k) s = (Ok b, s'') →
  ∃ a s', m s = (Ok a, s') ∧ k a s' = (Ok b, s'').
Proof.
  unfold mbind, M_bind. destruct (m s) as [[a|e] s']; [eauto | done].
Qed.

Lemma ret_eq {A} (a : A) (s : S) : (mret a : M S A) s = (Ok a, s).
Proof. done. Qed.

Lemma gets_eq {A} (f : S → A) (s : S) : gets f s = (Ok (f s), s).
Proof. done. Qed.

Lemma modify_eq (f : S → S) (s : S) : modify f s = (Ok tt, f s).
Proof. done. Qed.

Lemma from_option_Some {A} e (a : A) (s : S) :
  from_option e (Some a) s = (Ok a, s).
Proof. done. Qed.

Lemma from_option_None {A} e (s : S) :
  from_option (A:=A) e None s = (Raise e, s).
Proof. done. Qed.
End monad_facts.

(** ** Querysets *)

Global Instance post_key_le_total : Total post_key_le.
Proof. intros [i p] [j q]. unfold post_key_le. simpl. lia. Qed.
Global Instance post_key_le_trans : Transitive post_key_le.
Proof. intros [i p] [j q] [k r]. unfold post_key_le. simpl. lia. Qed.
Global Instance post_key_ge_total : Total (flip post_key_le).
Proof. intros x y. unfold flip. destruct (total post_key_le x y); auto. Qed.
Global Instance post_key_ge_trans : Transitive (flip post_key_le).
Proof. intros x y z ??. unfold flip in *. by trans y. Qed.

Lemma post_key_le_antisym p q :
  post_key_le p q → post_key_le q p → p.1 = q.1.
Proof. unfold post_key_le. lia. Qed.

Section sorted_head.
Context {A} (R : relation A) `{!∀ x y, Decision (R x y)}
        `{!Transitive R, !Total R}.

Lemma head_merge_sort_None (l : list A) :
  head (merge_sort R l) = None ↔ l = [].
Proof.
  pose proof (merge_sort_Permutation R l) as Hp.
  split.
  - intros Hh. destruct (merge_sort R l) as [|x l'] eqn:E; [|done].
    symmetry in Hp. by apply Permutation_nil_r in Hp.
  - intros ->. done.
Qed.

Lemma head_merge_sort_Some (l : list A) x :
  head (merge_sort R l) = Some x → x ∈ l ∧ ∀ y, y ∈ l → R x y.
Proof.
  pose proof (merge_sort_Permutation R l) as Hp.
  pose proof (StronglySorted_merge_sort R l) as Hs.
  destruct (merge_sort R l) as [|x' l'] eqn:E; [done|].
  intros [= ->]. split.
  - rewrite <- Hp. by left.
  - intros y Hy. rewrite <- Hp in Hy.
    apply StronglySorted_inv in Hs as [_ Hall].
    apply elem_of_cons in Hy as [->|Hy].
    + destruct (total R x x); done.
    + rewrite Forall_forall in Hall. by apply Hall.
Qed.

Lemma head_merge_sort_is_Some (l : list A) :
  l ≠ [] → is_Some (head (merge_sort R l)).
Proof.
  intros Hl. destruct (head (merge_sort R l)) eqn:E; [eauto|].
  by apply head_merge_sort_None in E.
Qed.
End sorted_head.

Section tbl_facts.
Context {A : Type} (P : Z * A → Prop) `{!∀ x, Decision (P x)}.

Lemma elem_of_tbl_filter (t : Table A) k r :
  (k, r) ∈ tbl_filter P t ↔ rows t !! k = Some r ∧ P (k, r).
Proof.
  unfold tbl_filter. rewrite elem_of_map_to_list.
  apply map_lookup_filter_Some.
Qed.

Lemma NoDup_tbl_filter (t : Table A) : NoDup (tbl_filter P t).
Proof. apply NoDup_map_to_list. Qed.

Lemma tbl_filter_nil (t : Table A) :
  tbl_filter P t = [] ↔ ∀ k r, rows t !! k = Some r → ¬ P (k, r).
Proof.
  split.
  - intros Hnil k r Hk HP.
    assert ((k, r) ∈ tbl_filter P t) as Hin by by apply elem_of_tbl_filter.
    rewrite Hnil in Hin. by apply not_elem_of_nil in Hin.
  - intros Hall. destruct (tbl_filter P t) as [|[k r] l] eqn:E; [done|].
    assert ((k, r) ∈ tbl_filter P t) as Hin by (rewrite E; left).
    apply elem_of_tbl_filter in Hin as [Hk HP]. by destruct (Hall k r).
Qed.

Lemma lookup_tbl_delete_where (t : Table A) k :
  rows (tbl_delete_where P t) !! k =
  match rows t !! k with
  | Some r => if decide (P (k, r)) then None else Some r
  | None => None
  end.
Proof.
  unfold tbl_delete_where. simpl. rewrite map_lookup_filter.
  destruct (rows t !! k) as [r|]; simpl; [|done].
  destruct (decide (P (k, r))).
  - rewrite option_guard_False; [done | by intros ?].
  - by rewrite option_guard_True.
Qed.
End tbl_facts.

(** Two tables with the same selected rows give the same queryset. *)
Lemma tbl_filter_ext {A} (P Q : Z * A → Prop)
    `{!∀ x, Decision (P x), !∀ x, Decision (Q x)} (t1 t2 : Table A) :
  (∀ k r, (rows t1 !! k = Some r ∧ P (k, r)) ↔ (rows t2 !! k = Some r ∧ Q (k, r))) →
  tbl_filter P t1 = tbl_filter Q t2.
Proof.
  intros Hext. unfold tbl_filter. f_equal.
  apply map_filter_strong_ext_1. intros i x. specialize (Hext i x). tauto.
Qed.

(** ** Equations for the managers and the counter methods *)

Tactic Notation "mok" tactic3(tac) :=
  (erewrite bind_ok by tac); cbn beta iota zeta.
Tactic Notation "mraise" tactic3(tac) :=
  (erewrite bind_raise by tac); cbn beta iota zeta.

(** The in-memory effect of [Forum.update_counters], and the write it ends
    with. *)
Definition Forum_recount (self : Forum) (db : DB) : Forum :=
  let posts := Post_objects_filter_topic__forum_id (Forum_id self) db in
  mkForum (Forum_id self)
    (match head (order_by_created_id_desc posts) with
     | Some p => Some (updated_or_created p)
     | None => Forum_updated self
     end)
    (count posts)
    (count (Topic_objects_filter_forum (Forum_id self) db)).

Definition Forum_store (self : Forum) (db : DB) : DB :=
  set_forums (tbl_update (Forum_id self) (Forum_to_row self) (forums db)) db.

Lemma Forum_update_counters_eq self db :
  Forum_update_counters self db =
  (Ok (Forum_recount self db), Forum_store (Forum_recount self db) db).
Proof.
  unfold Forum_update_counters, Forum_recount.
  erewrite bind_ok by apply gets_eq. cbn zeta.
  erewrite bind_ok by apply gets_eq.
  set (posts := Post_objects_filter_topic__forum_id _ _).
  destruct (head (order_by_created_id_desc posts)) as [p|] eqn:Hh.
  - erewrite bind_ok; [done|].
    unfold try_except, first. rewrite Hh. done.
  - erewrite bind_ok; [done|].
    unfold try_except, first. rewrite Hh. done.
Qed.

Lemma Forum_objects_get_Some pk r db :
  rows (forums db) !! pk = Some r →
  Forum_objects_get pk db = (Ok (Forum_of_row pk r), db).
Proof. intros H. unfold Forum_objects_get. erewrite bind_ok by apply gets_eq. by rewrite H. Qed.
Lemma Forum_objects_get_None pk db :
  rows (forums db) !! pk = None →
  Forum_objects_get pk db = (Raise DoesNotExist, db).
Proof. intros H. unfold Forum_objects_get. erewrite bind_ok by apply gets_eq. by rewrite H. Qed.
Lemma Topic_objects_get_Some pk r db :
  rows (topics db) !! pk = Some r →
  Topic_objects_get pk db = (Ok (Topic_of_row pk r), db).
Proof. intros H. unfold Topic_objects_get. erewrite bind_ok by apply gets_eq. by rewrite H. Qed.
Lemma Topic_objects_get_None pk db :
  rows (topics db) !! pk = None →
  Topic_objects_get pk db = (Raise DoesNotExist, db).
Proof. intros H. unfold Topic_objects_get. erewrite bind_ok by apply gets_eq. by rewrite H. Qed.
Lemma Post_objects_get_Some pk r db :
  rows (posts db) !! pk = Some r →
  Post_objects_get pk db = (Ok (Post_of_row pk r), db).
Proof. intros H. unfold Post_objects_get. erewrite bind_ok by apply gets_eq. by rewrite H. Qed.
Lemma Post_objects_get_None pk db :
  rows (posts db) !! pk = None →
  Post_objects_get pk db = (Raise DoesNotExist, db).
Proof. intros H. unfold Post_objects_get. erewrite bind_ok by apply gets_eq. by rewrite H. Qed.

(** The forum instance [self.forum] evaluates to. *)
Definition Topic_forum_resolved (self : Topic) (db : DB) : option Forum :=
  match Topic_forum self with
  | Loaded forum => Some forum
  | Unloaded id => Forum_of_row id <$> rows (forums db) !! id
  end.

Lemma Topic_forum_resolved_id self db f :
  Topic_forum_resolved self db = Some f → Forum_id f = Topic_forum_id self.
Proof.
  unfold Topic_forum_resolved, Topic_forum_id.
  destruct (Topic_forum self) as [i|g]; [|by intros [= ->]].
  destruct (rows (forums db) !! i); simpl; [|done]. by intros [= <-].
Qed.

Lemma Topic_get_forum_eq self db f :
  Topic_forum_resolved self db = Some f →
  Topic_get_forum self db = (Ok (f, Topic_set_forum (Loaded f) self), db).
Proof.
  unfold Topic_forum_resolved, Topic_get_forum.
  destruct self as [i [fi|g] c u n om pt h]; simpl.
  - destruct (rows (forums db) !! fi) as [r|] eqn:E; simpl; [|done].
    intros [= <-]. by erewrite bind_ok by by apply Forum_objects_get_Some.
  - by intros [= ->].
Qed.

Lemma Topic_get_forum_None self db :
  Topic_forum_resolved self db = None →
  Topic_get_forum self db = (Raise DoesNotExist, db).
Proof.
  unfold Topic_forum_resolved, Topic_get_forum.
  destruct (Topic_forum self) as [fi|g]; [|done].
  destruct (rows (forums db) !! fi) as [r|] eqn:E; simpl; [done|].
  intros _. by erewrite bind_raise by by apply Forum_objects_get_None.
Qed.

Definition Topic_store (pk : Z) (self : Topic) (db : DB) : DB :=
  set_topics (tbl_update pk (Topic_to_row self) (topics db)) db.

Lemma Topic_to_row_set_forum f self :
  Forum_id f = Topic_forum_id self →
  Topic_to_row (Topic_set_forum (Loaded f) self) = Topic_to_row self.
Proof. intros H. unfold Topic_to_row, Topic_forum_id in *. simpl. by rewrite H. Qed.

Lemma Topic_super_save_existing self pk db :
  Topic_id self = Some pk →
  is_Some (rows (forums db) !! Topic_forum_id self) →
  Topic_super_save self db = (Ok self, Topic_store pk self db).
Proof.
  intros Hid [fr Hfr]. unfold Topic_super_save.
  erewrite bind_ok by apply gets_eq. rewrite Hfr, Hid.
  by erewrite bind_ok by apply modify_eq.
Qed.

Lemma Topic_super_save_dangling self db :
  rows (forums db) !! Topic_forum_id self = None →
  Topic_super_save self db = (Raise IntegrityError, db).
Proof.
  intros Hfr. unfold Topic_super_save.
  erewrite bind_ok by apply gets_eq. by rewrite Hfr.
Qed.

(** Saving a topic whose forum is the persisted one writes the row and
    touches nothing else. *)
Lemma Topic_save_same_forum now self db pk r f :
  Topic_id self = Some pk →
  rows (topics db) !! pk = Some r →
  Topic_forum_id self = tr_forum_id r →
  Topic_forum_resolved self db = Some f →
  is_Some (rows (forums db) !! tr_forum_id r) →
  Topic_save now self db =
  (Ok (Topic_set_forum (Loaded f) self), Topic_store pk self db).
Proof.
  intros Hid Hr Hfid Hf [fr Hfr]. unfold Topic_save. rewrite Hid.
  cbn beta iota zeta. rewrite Hid.
  pose proof (Topic_forum_resolved_id _ _ _ Hf) as Hfid'.
  mok (mok (by apply Topic_objects_get_Some);
       mok (by apply Topic_get_forum_eq);
       mok (apply Topic_get_forum_eq; unfold Topic_forum_resolved; simpl;
            by rewrite Hfr);
       apply ret_eq).
  simpl. rewrite bool_decide_true by congruence. simpl.
  mok (apply Topic_super_save_existing; [done|]; simpl;
       unfold Topic_forum_id; simpl; rewrite Hfid', Hfid; eauto).
  unfold Topic_store. by rewrite Topic_to_row_set_forum.
Qed.

(** Saving a topic whose forum differs from the persisted one writes the
    row and then recomputes the old and the new forum, in that order. *)
Lemma Topic_save_forum_changed now self db pk r fra fB :
  Topic_id self = Some pk →
  rows (topics db) !! pk = Some r →
  rows (forums db) !! tr_forum_id r = Some fra →
  Topic_forum_resolved self db = Some fB →
  Forum_id fB ≠ tr_forum_id r →
  is_Some (rows (forums db) !! Forum_id fB) →
  Topic_save now self db =
  let db1 := Topic_store pk self db in
  let db2 := Forum_store (Forum_recount (Forum_of_row (tr_forum_id r) fra) db1) db1 in
  let fB' := Forum_recount fB db2 in
  (Ok (Topic_set_forum (Loaded fB') self), Forum_store fB' db2).
Proof.
  intros Hid Hr Hfra Hf Hne HfB. unfold Topic_save. rewrite Hid.
  cbn beta iota zeta. rewrite Hid.
  pose proof (Topic_forum_resolved_id _ _ _ Hf) as Hfid'.
  mok (mok (by apply Topic_objects_get_Some);
       mok (by apply Topic_get_forum_eq);
       mok (apply Topic_get_forum_eq; unfold Topic_forum_resolved; simpl;
            by rewrite Hfra);
       apply ret_eq).
  simpl. rewrite bool_decide_false by done. simpl.
  mok (apply Topic_super_save_existing; [done|]; simpl;
       unfold Topic_forum_id; simpl; done).
  mok (by apply Topic_get_forum_eq).
  mok (apply Forum_update_counters_eq).
  mok (by apply Topic_get_forum_eq).
  mok (apply Forum_update_counters_eq).
  unfold Topic_store. rewrite Topic_to_row_set_forum by done.
  by destruct self.
Qed.

(** The in-memory effect of [update_counters] on the topic, when it has a
    post. *)
Definition Topic_recount (self : Topic) (db : DB) : option Topic :=
  match head (order_by_created_id_desc
                (Post_objects_filter_topic_id (Topic_id self) db)) with
  | Some last_post =>
      Some (Topic_set_updated (Some (updated_or_created last_post))
              (Topic_set_post_count (count (Topic_posts self db)) self))
  | None => None
  end.

Lemma Topic_update_counters_unfold now self db :
  Topic_update_counters now self db =
  match Topic_recount self db with
  | Some self' => Topic_save now self' db
  | None => (Raise IndexError, db)
  end.
Proof.
  unfold Topic_update_counters, Topic_recount.
  mok (apply gets_eq). cbn [Topic_id Topic_set_post_count].
  destruct (head _) as [p|] eqn:Hh.
  - mok (mok (apply gets_eq); unfold first; rewrite Hh; apply ret_eq). done.
  - mraise (mok (apply gets_eq); unfold first; rewrite Hh; done). done.
Qed.

(** ** Facts about the querysets of posts *)

Lemma count_tbl_filter {A} (P : Z * A → Prop) `{!∀ x, Decision (P x)} (t : Table A) :
  count (tbl_filter P t) = Z.of_nat (size (filter P (rows t))).
Proof. unfold count, tbl_filter. by rewrite length_map_to_list. Qed.

Lemma elem_of_forum_posts fid db k r :
  (k, r) ∈ Post_objects_filter_topic__forum_id fid db ↔
  rows (posts db) !! k = Some r ∧
  ∃ t, rows (topics db) !! pr_topic_id r = Some t ∧ tr_forum_id t = fid.
Proof.
  unfold Post_objects_filter_topic__forum_id. rewrite elem_of_tbl_filter. simpl.
  split; intros [Hk H]; split; try done.
  - destruct (rows (topics db) !! pr_topic_id r) as [t|]; simplify_eq/=. eauto.
  - destruct H as (t & -> & <-). done.
Qed.

Lemma elem_of_topic_posts tid db k r :
  (k, r) ∈ Post_objects_filter_topic_id (Some tid) db ↔
  rows (posts db) !! k = Some r ∧ pr_topic_id r = tid.
Proof. unfold Post_objects_filter_topic_id. by rewrite elem_of_tbl_filter. Qed.

Global Instance PostRow_eq_dec : EqDecision PostRow.
Proof. solve_decision. Defined.

(** The last post of a queryset, greatest by [(created, id)], and the
    first post, least by [(created, id)]. *)
Definition is_last_post (p : Z * PostRow) (qs : QuerySet PostRow) : Prop :=
  p ∈ qs ∧ Forall (λ q, post_key_le q p) qs.
Definition is_first_post (p : Z * PostRow) (qs : QuerySet PostRow) : Prop :=
  p ∈ qs ∧ Forall (λ q, post_key_le p q) qs.

Global Instance is_last_post_dec p qs : Decision (is_last_post p qs).
Proof. unfold is_last_post. apply _. Defined.
Global Instance is_first_post_dec p qs : Decision (is_first_post p qs).
Proof. unfold is_first_post. apply _. Defined.

Lemma head_order_desc_Some qs p :
  head (order_by_created_id_desc qs) = Some p → is_last_post p qs.
Proof.
  intros H. apply (head_merge_sort_Some (flip post_key_le)) in H as [Hin Hall].
  split; [done|]. by apply Forall_forall.
Qed.
Lemma head_order_asc_Some qs p :
  head (order_by_created_id qs) = Some p → is_first_post p qs.
Proof.
  intros H. apply (head_merge_sort_Some post_key_le) in H as [Hin Hall].
  split; [done|]. by apply Forall_forall.
Qed.
Lemma head_order_desc_None qs :
  head (order_by_created_id_desc qs) = None ↔ qs = [].
Proof. apply (head_merge_sort_None (flip post_key_le)). Qed.
Lemma head_order_asc_None qs :
  head (order_by_created_id qs) = None ↔ qs = [].
Proof. apply (head_merge_sort_None post_key_le). Qed.

Lemma lookup_Forum_store self db :
  rows (forums (Forum_store self db)) !! Forum_id self = Some (Forum_to_row self).
Proof. unfold Forum_store. simpl. apply lookup_insert_eq. Qed.

Lemma Forum_recount_updated_nil self db :
  Post_objects_filter_topic__forum_id (Forum_id self) db = [] →
  Forum_updated (Forum_recount self db) = Forum_updated self.
Proof. intros Hnil. unfold Forum_recount. simpl. by rewrite Hnil. Qed.

Lemma Forum_recount_updated_last self db :
  Post_objects_filter_topic__forum_id (Forum_id self) db ≠ [] →
  ∃ p, is_last_post p (Post_objects_filter_topic__forum_id (Forum_id self) db) ∧
       Forum_updated (Forum_recount self db) = Some (updated_or_created p).
Proof.
  intros Hne. unfold Forum_recount. simpl.
  destruct (head _) as [p|] eqn:Hh.
  - exists p. split; [by apply head_order_desc_Some|done].
  - by apply head_order_desc_None in Hh.
Qed.

(** ** Forum.update_counters (claim C5) *)

(** C5, as the code has it.  Recomputing a forum's counters always
    succeeds.  It sets [post_count] to the number of posts whose topic
    belongs to the forum and [topic_count] to the number of topics of the
    forum.  When the forum has a post, [updated] becomes
    [updated ?? created] of the last post, the one that is greatest by
    [(created, id)]; when it has none, [updated] keeps its value.  The
    forum row is then written with these values; topics and posts are not
    touched. *)
Theorem C5_forum_update_counters (self : Forum) (db : DB) :
  let qs := Post_objects_filter_topic__forum_id (Forum_id self) db in
  ∃ self',
    Forum_update_counters self db = (Ok self', Forum_store self' db) ∧
    Forum_id self' = Forum_id self ∧
    Forum_post_count self' =
      Z.of_nat (size (filter
        (λ p, tr_forum_id <$> rows (topics db) !! pr_topic_id p.2
              = Some (Forum_id self))
        (rows (posts db)))) ∧
    Forum_topic_count self' =
      Z.of_nat (size (filter (λ t, tr_forum_id t.2 = Forum_id self)
                        (rows (topics db)))) ∧
    (qs = [] → Forum_updated self' = Forum_updated self) ∧
    (qs ≠ [] → ∃ p, is_last_post p qs ∧
                     Forum_updated self' = Some (updated_or_created p)) ∧
    rows (forums (Forum_store self' db)) !! Forum_id self
      = Some (Forum_to_row self') ∧
    topics (Forum_store self' db) = topics db ∧
    posts (Forum_store self' db) = posts db.
Proof.
  intros qs. exists (Forum_recount self db).
  split; [apply Forum_update_counters_eq|].
  split; [done|]. split; [apply count_tbl_filter|].
  split; [apply count_tbl_filter|].
  split; [apply Forum_recount_updated_nil|].
  split; [apply Forum_recount_updated_last|].
  split; [apply (lookup_Forum_store (Forum_recount self db))|done].
Qed.

(** Following the words of the claim: the greatest [updated ?? created]
    over the posts of a queryset ([None] for no post). *)
Definition max_updated_or_created (qs : QuerySet PostRow) : option Z :=
  foldr (λ p acc, Some (match acc with
                        | Some m => Z.max (updated_or_created p) m
                        | None => updated_or_created p
                        end)) None qs.

Definition c5_db : DB :=
  mkDB (mkTable {[1 := mkForumRow None 0 0]} 2)
       (mkTable {[1 := mkTopicRow 1 (Some 1) None 0 false 0]} 2)
       (mkTable {[1 := mkPostRow 1 1 (Some 10) false;
                  2 := mkPostRow 1 2 None false]} 3)
       empty_table empty_table empty_table empty_table.

(** C5 as stated fails: with post 1 created at 1 and edited at 10 and
    post 2 created at 2 and never edited, the forum's [updated] becomes 2
    (the last post's time stamp), not the maximum 10. *)
Lemma C5_counterexample :
  ∃ self' db',
    Forum_update_counters (Forum_of_row 1 (mkForumRow None 0 0)) c5_db
      = (Ok self', db') ∧
    Forum_updated self' = Some 2 ∧
    max_updated_or_created (Post_objects_filter_topic__forum_id 1 c5_db)
      = Some 10 ∧
    Forum_updated self'
      ≠ max_updated_or_created (Post_objects_filter_topic__forum_id 1 c5_db).
Proof.
  eexists _, _. split; [vm_compute; reflexivity|].
  split; [reflexivity|]. split; [vm_compute; reflexivity|].
  vm_compute. discriminate.
Qed.

Lemma tbl_filter_functional {A} (P Q : Z * A → Prop)
    `{!∀ x, Decision (P x), !∀ x, Decision (Q x)} (t : Table A) k r1 r2 :
  (k, r1) ∈ tbl_filter P t → (k, r2) ∈ tbl_filter Q t → r1 = r2.
Proof.
  rewrite !elem_of_tbl_filter. intros [H1 _] [H2 _]. congruence.
Qed.

(** A queryset of posts holds each primary key once. *)
Definition keyed (qs : QuerySet PostRow) : Prop :=
  ∀ k r1 r2, (k, r1) ∈ qs → (k, r2) ∈ qs → r1 = r2.

Lemma keyed_topic_posts tid db : keyed (Post_objects_filter_topic_id tid db).
Proof.
  destruct tid as [tid|]; simpl.
  - intros k r1 r2. apply tbl_filter_functional.
  - intros k r1 r2 H. by apply not_elem_of_nil in H.
Qed.
Lemma keyed_forum_posts fid db :
  keyed (Post_objects_filter_topic__forum_id fid db).
Proof. intros k r1 r2. apply tbl_filter_functional. Qed.

Lemma is_last_post_unique qs p q :
  keyed qs → is_last_post p qs → is_last_post q qs → p = q.
Proof.
  intros Hk [Hp Hpmax] [Hq Hqmax]. rewrite Forall_forall in Hpmax, Hqmax.
  pose proof (post_key_le_antisym _ _ (Hpmax _ Hq) (Hqmax _ Hp)) as Heq.
  destruct p as [i r1], q as [j r2]. simpl in Heq. subst j.
  f_equal. by eapply Hk.
Qed.
Lemma is_first_post_unique qs p q :
  keyed qs → is_first_post p qs → is_first_post q qs → p = q.
Proof.
  intros Hk [Hp Hpmin] [Hq Hqmin]. rewrite Forall_forall in Hpmin, Hqmin.
  pose proof (post_key_le_antisym _ _ (Hpmin _ Hq) (Hqmin _ Hp)) as Heq.
  destruct p as [i r1], q as [j r2]. simpl in Heq. subst j.
  f_equal. by eapply Hk.
Qed.

Lemma head_order_desc_last qs p :
  keyed qs → is_last_post p qs → head (order_by_created_id_desc qs) = Some p.
Proof.
  intros Hk Hp. destruct (head (order_by_created_id_desc qs)) as [q|] eqn:Hh.
  - apply head_order_desc_Some in Hh. f_equal. by eapply is_last_post_unique.
  - apply head_order_desc_None in Hh. destruct Hp as [Hp _].
    rewrite Hh in Hp. by apply not_elem_of_nil in Hp.
Qed.
Lemma head_order_asc_first qs p :
  keyed qs → is_first_post p qs → head (order_by_created_id qs) = Some p.
Proof.
  intros Hk Hp. destruct (head (order_by_created_id qs)) as [q|] eqn:Hh.
  - apply head_order_asc_Some in Hh. f_equal. by eapply is_first_post_unique.
  - apply head_order_asc_None in Hh. destruct Hp as [Hp _].
    rewrite Hh in Hp. by apply not_elem_of_nil in Hp.
Qed.

Lemma lookup_Topic_store pk self db :
  rows (topics (Topic_store pk self db)) !! pk = Some (Topic_to_row self).
Proof. unfold Topic_store. simpl. apply lookup_insert_eq. Qed.

Lemma Topic_recount_None self db :
  Topic_recount self db = None ↔ Topic_posts self db = [].
Proof.
  unfold Topic_recount, Topic_posts. destruct (head _) eqn:Hh.
  - split; [done|]. intros Hnil. rewrite Hnil in Hh. done.
  - by apply head_order_desc_None in Hh.
Qed.

Lemma Topic_recount_Some self db self' :
  Topic_recount self db = Some self' →
  ∃ p, is_last_post p (Topic_posts self db) ∧
       self' = Topic_set_updated (Some (updated_or_created p))
                 (Topic_set_post_count (count (Topic_posts self db)) self).
Proof.
  unfold Topic_recount, Topic_posts. destruct (head _) as [p|] eqn:Hh; [|done].
  intros [= <-]. exists p. split; [by apply head_order_desc_Some|done].
Qed.

(** Every forum row of the first store is still a row of the second. *)
Definition forums_kept (db db' : DB) : Prop :=
  ∀ x, is_Some (rows (forums db) !! x) → is_Some (rows (forums db') !! x).

Lemma forums_kept_trans db1 db2 db3 :
  forums_kept db1 db2 → forums_kept db2 db3 → forums_kept db1 db3.
Proof. unfold forums_kept. eauto. Qed.

Lemma forums_kept_Forum_store self db :
  forums_kept db (Forum_store self db).
Proof.
  intros x Hx. unfold Forum_store. cbn [forums set_forums tbl_update rows].
  rewrite lookup_insert. case_decide; eauto.
Qed.

Lemma forums_kept_same db db' : forums db' = forums db → forums_kept db db'.
Proof. intros Heq x. by rewrite Heq. Qed.

(** Saving an existing topic, both cases at once. *)
Lemma Topic_save_existing now self db pk r f frA frB :
  Topic_id self = Some pk →
  rows (topics db) !! pk = Some r →
  Topic_forum_resolved self db = Some f →
  rows (forums db) !! tr_forum_id r = Some frA →
  rows (forums db) !! Forum_id f = Some frB →
  ∃ f' db',
    Topic_save now self db = (Ok (Topic_set_forum (Loaded f') self), db') ∧
    Forum_id f' = Forum_id f ∧
    topics db' = topics (Topic_store pk self db) ∧
    posts db' = posts db ∧
    forums_kept db db' ∧
    (Forum_id f = tr_forum_id r → f' = f ∧ db' = Topic_store pk self db).
Proof.
  intros Hid Hr Hf HA HB.
  destruct (decide (Forum_id f = tr_forum_id r)) as [Heq|Hne].
  - exists f, (Topic_store pk self db). split.
    { eapply Topic_save_same_forum; eauto.
      by rewrite <- (Topic_forum_resolved_id _ _ _ Hf). }
    do 3 (split; [done|]). split; [by apply forums_kept_same|done].
  - eexists _, _. split.
    + eapply Topic_save_forum_changed; eauto.
    + cbv zeta. do 3 (split; [done|]). split; [|done].
      eapply forums_kept_trans; [|apply forums_kept_Forum_store].
      eapply forums_kept_trans; [|apply forums_kept_Forum_store].
      by apply forums_kept_same.
Qed.

(** A small consistent store used to instantiate the theorems: two forums
    with one topic each; topic 1 has posts 1, 2, 3 and topic 2 has post 4. *)
Definition demo_db : DB :=
  mkDB (mkTable {[1 := mkForumRow (Some 12) 3 1;
                  2 := mkForumRow (Some 13) 1 1]} 3)
       (mkTable {[1 := mkTopicRow 1 (Some 5) (Some 12) 3 false 0;
                  2 := mkTopicRow 2 (Some 6) (Some 13) 1 false 0]} 3)
       (mkTable {[1 := mkPostRow 1 10 None false;
                  2 := mkPostRow 1 11 None false;
                  3 := mkPostRow 1 12 None false;
                  4 := mkPostRow 2 13 None false]} 5)
       empty_table empty_table empty_table empty_table.

(** ** Topic.update_counters (claim C4) *)

(** C4.  Recomputing the counters of a topic without posts raises
    [IndexError] and writes nothing.  For a stored topic with at least one
    post whose forum exists, it succeeds, sets [post_count] to the number
    of posts of the topic and [updated] to [updated ?? created] of the
    last post by [(created, id)], and writes the topic row with these
    values. *)
Theorem C4_topic_update_counters (now : Z) (self : Topic) (db : DB) :
  (Topic_posts self db = [] →
   Topic_update_counters now self db = (Raise IndexError, db)) ∧
  (∀ pk r f frA frB,
     Topic_id self = Some pk →
     rows (topics db) !! pk = Some r →
     Topic_forum_resolved self db = Some f →
     rows (forums db) !! tr_forum_id r = Some frA →
     rows (forums db) !! Forum_id f = Some frB →
     Topic_posts self db ≠ [] →
     ∃ self' db' last_post,
       Topic_update_counters now self db = (Ok self', db') ∧
       is_last_post last_post (Topic_posts self db) ∧
       Topic_post_count self' =
         Z.of_nat (size (filter (λ p, pr_topic_id p.2 = pk) (rows (posts db)))) ∧
       Topic_updated self' = Some (updated_or_created last_post) ∧
       rows (topics db') !! pk = Some (Topic_to_row self') ∧
       posts db' = posts db).
Proof.
  split.
  - intros Hnil. rewrite Topic_update_counters_unfold.
    apply Topic_recount_None in Hnil. by rewrite Hnil.
  - intros pk r f frA frB Hid Hr Hf HA HB Hne.
    rewrite Topic_update_counters_unfold.
    destruct (Topic_recount self db) as [self1|] eqn:Hrc;
      [|by apply Topic_recount_None in Hrc].
    apply Topic_recount_Some in Hrc as (p & Hlast & ->).
    set (self1 := Topic_set_updated _ _).
    destruct (Topic_save_existing now self1 db pk r f frA frB)
      as (f' & db' & Hsave & Hf' & Htopics & Hposts & _); try done.
    exists (Topic_set_forum (Loaded f') self1), db', p.
    split; [done|]. split; [done|].
    split.
    { simpl. unfold Topic_posts. rewrite Hid. simpl. apply count_tbl_filter. }
    split; [done|]. split; [|done].
    rewrite Htopics, lookup_Topic_store. f_equal. symmetry.
    apply Topic_to_row_set_forum. rewrite Hf'.
    by apply (Topic_forum_resolved_id self1 db).
Qed.

Lemma C4_topic_update_counters_witness :
  ∃ self' db' last_post,
    Topic_update_counters 20
      (Topic_of_row 1 (mkTopicRow 1 (Some 5) None 0 false 0)) demo_db
      = (Ok self', db') ∧
    is_last_post last_post
      (Topic_posts (Topic_of_row 1 (mkTopicRow 1 (Some 5) None 0 false 0)) demo_db) ∧
    Topic_post_count self' =
      Z.of_nat (size (filter (λ p, pr_topic_id p.2 = 1) (rows (posts demo_db)))) ∧
    Topic_updated self' = Some (updated_or_created last_post) ∧
    rows (topics db') !! 1 = Some (Topic_to_row self') ∧
    posts db' = posts demo_db.
Proof.
  apply (proj2 (C4_topic_update_counters 20
            (Topic_of_row 1 (mkTopicRow 1 (Some 5) None 0 false 0)) demo_db)
           1 (mkTopicRow 1 (Some 5) (Some 12) 3 false 0)
           (Forum_of_row 1 (mkForumRow (Some 12) 3 1))
           (mkForumRow (Some 12) 3 1) (mkForumRow (Some 12) 3 1)).
  - reflexivity.
  - vm_compute. reflexivity.
  - vm_compute. reflexivity.
  - vm_compute. reflexivity.
  - vm_compute. reflexivity.
  - vm_compute. discriminate.
Defined.

(** ** Topic.save (claim C7) *)

(** The stored counters of a forum are those a recomputation over the
    store yields. *)
Definition Forum_recomputed (fid : Z) (db : DB) : Prop :=
  ∃ fr,
    rows (forums db) !! fid = Some fr ∧
    fr_post_count fr = count (Post_objects_filter_topic__forum_id fid db) ∧
    fr_topic_count fr = count (Topic_objects_filter_forum fid db) ∧
    ∀ last_post,
      is_last_post last_post (Post_objects_filter_topic__forum_id fid db) →
      fr_updated fr = Some (updated_or_created last_post).

Lemma Forum_recount_recomputed self db db' :
  topics db' = topics db → posts db' = posts db →
  rows (forums db') !! Forum_id self = Some (Forum_to_row (Forum_recount self db)) →
  Forum_recomputed (Forum_id self) db'.
Proof.
  intros Ht Hp Hrow. exists (Forum_to_row (Forum_recount self db)).
  assert (Post_objects_filter_topic__forum_id (Forum_id self) db'
          = Post_objects_filter_topic__forum_id (Forum_id self) db) as ->.
  { unfold Post_objects_filter_topic__forum_id. by rewrite Ht, Hp. }
  assert (Topic_objects_filter_forum (Forum_id self) db'
          = Topic_objects_filter_forum (Forum_id self) db) as ->.
  { unfold Topic_objects_filter_forum. by rewrite Ht. }
  split; [done|]. split; [done|]. split; [done|].
  intros last Hlast. unfold Forum_recount. simpl.
  by rewrite (head_order_desc_last _ _ (keyed_forum_posts _ _) Hlast).
Qed.

(** C7.  Saving a stored topic writes its row from the instance and leaves
    the instance's [post_count] and [updated] as they were.  When the
    instance's forum differs from the forum of the stored row, the
    counters of both forums are recomputed; when it is the same forum, no
    forum row is written. *)
Theorem C7_topic_save_move (now : Z) (self : Topic) (db : DB)
    (pk : Z) (r : TopicRow) (fB : Forum) (frA frB : ForumRow) :
  Topic_id self = Some pk →
  rows (topics db) !! pk = Some r →
  Topic_forum_resolved self db = Some fB →
  rows (forums db) !! tr_forum_id r = Some frA →
  rows (forums db) !! Forum_id fB = Some frB →
  ∃ self' db',
    Topic_save now self db = (Ok self', db') ∧
    Topic_post_count self' = Topic_post_count self ∧
    Topic_updated self' = Topic_updated self ∧
    rows (topics db') !! pk = Some (Topic_to_row self) ∧
    posts db' = posts db ∧
    (Forum_id fB ≠ tr_forum_id r →
       Forum_recomputed (tr_forum_id r) db' ∧
       Forum_recomputed (Forum_id fB) db') ∧
    (Forum_id fB = tr_forum_id r → forums db' = forums db).
Proof.
  intros Hid Hr Hf HA HB.
  destruct (decide (Forum_id fB = tr_forum_id r)) as [Heq|Hne].
  - exists (Topic_set_forum (Loaded fB) self), (Topic_store pk self db).
    split.
    { eapply Topic_save_same_forum; eauto.
      by rewrite <- (Topic_forum_resolved_id _ _ _ Hf). }
    split; [done|]. split; [done|].
    split; [apply lookup_Topic_store|]. split; [done|]. split; done.
  - eexists _, _. split; [eapply Topic_save_forum_changed; eauto|].
    cbv zeta.
    set (db1 := Topic_store pk self db).
    set (fA' := Forum_recount (Forum_of_row (tr_forum_id r) frA) db1).
    set (db2 := Forum_store fA' db1).
    set (fB' := Forum_recount fB db2).
    split; [done|]. split; [done|].
    split; [apply lookup_Topic_store|]. split; [done|]. split; [|done].
    intros _. split.
    + apply (Forum_recount_recomputed (Forum_of_row (tr_forum_id r) frA) db1);
        [done..|].
      unfold Forum_store. cbn [forums rows set_forums tbl_update].
      rewrite lookup_insert_ne by done.
      apply (lookup_Forum_store fA').
    + apply (Forum_recount_recomputed fB db2); [done..|].
      apply (lookup_Forum_store fB').
Qed.

Lemma C7_topic_save_move_witness :
  ∃ self' db',
    Topic_save 20 (Topic_set_forum (Unloaded 2)
                     (Topic_of_row 1 (mkTopicRow 1 (Some 5) (Some 12) 3 false 0)))
      demo_db = (Ok self', db') ∧
    Topic_post_count self' = 3 ∧
    Topic_updated self' = Some 12 ∧
    rows (topics db') !! 1 = Some (mkTopicRow 2 (Some 5) (Some 12) 3 false 0) ∧
    posts db' = posts demo_db ∧
    (2 ≠ 1 → Forum_recomputed 1 db' ∧ Forum_recomputed 2 db') ∧
    (2 = 1 → forums db' = forums demo_db).
Proof.
  apply (C7_topic_save_move 20
           (Topic_set_forum (Unloaded 2)
              (Topic_of_row 1 (mkTopicRow 1 (Some 5) (Some 12) 3 false 0)))
           demo_db 1 (mkTopicRow 1 (Some 5) (Some 12) 3 false 0)
           (Forum_of_row 2 (mkForumRow (Some 13) 1 1))
           (mkForumRow (Some 12) 3 1) (mkForumRow (Some 13) 1 1)).
  - reflexivity.
  - vm_compute. reflexivity.
  - vm_compute. reflexivity.
  - vm_compute. reflexivity.
  - vm_compute. reflexivity.
Defined.

(** ** Equations for the lifecycle methods *)

(** The topic instance [self.topic] evaluates to. *)
Definition Post_topic_resolved (self : Post) (db : DB) : option Topic :=
  match Post_topic self with
  | Loaded topic => Some topic
  | Unloaded id => Topic_of_row id <$> rows (topics db) !! id
  end.

Lemma Post_get_topic_eq self db topic :
  Post_topic_resolved self db = Some topic →
  Post_get_topic self db = (Ok (topic, Post_set_topic (Loaded topic) self), db).
Proof.
  unfold Post_topic_resolved, Post_get_topic.
  destruct self as [i [ti|g] c u om]; simpl.
  - destruct (rows (topics db) !! ti) as [r|] eqn:E; simpl; [|done].
    intros [= <-]. by mok (by apply Topic_objects_get_Some).
  - by intros [= ->].
Qed.

Lemma Post_get_topic_None self db :
  Post_topic_resolved self db = None →
  Post_get_topic self db = (Raise DoesNotExist, db).
Proof.
  unfold Post_topic_resolved, Post_get_topic.
  destruct (Post_topic self) as [ti|g]; [|done].
  destruct (rows (topics db) !! ti) as [r|] eqn:E; simpl; [done|].
  intros _. by mraise (by apply Topic_objects_get_None).
Qed.

Lemma Post_topic_resolved_id self db topic :
  Post_topic_resolved self db = Some topic →
  Post_topic_id self = Topic_id topic.
Proof.
  unfold Post_topic_resolved, Post_topic_id.
  destruct (Post_topic self) as [i|g]; [|by intros [= ->]].
  destruct (rows (topics db) !! i); simpl; [|done]. by intros [= <-].
Qed.

Lemma Topic_delete_eq self db pk f :
  Topic_id self = Some pk →
  Topic_forum_resolved self db = Some f →
  Topic_delete self db =
  let db1 := Topic_cascade pk db in
  (Ok tt, Forum_store (Forum_recount f db1) db1).
Proof.
  intros Hid Hf. unfold Topic_delete, Topic_super_delete. rewrite Hid.
  mok (mok (apply modify_eq); apply ret_eq).
  mok (by apply Topic_get_forum_eq).
  mok (apply Forum_update_counters_eq). done.
Qed.

Definition Post_store_delete (pk : Z) (db : DB) : DB :=
  set_posts (tbl_delete_where (λ p, p.1 = pk) (posts db)) db.

Lemma Post_delete_unfold now self db topic h :
  Post_topic_resolved self db = Some topic →
  head (order_by_created_id (Topic_posts topic db)) = Some h →
  Post_delete now self db =
  if bool_decide (Post_id self = Some h.1) then Topic_delete topic db
  else match Post_id self with
       | None => (Raise AssertionError, db)
       | Some pk =>
           (topic ← Topic_update_counters now topic;
            '(forum, _) ← Topic_get_forum topic;
            Forum_update_counters forum;;
            mret tt) (Post_store_delete pk db)
       end.
Proof.
  intros Ht Hh. unfold Post_delete.
  mok (by apply Post_get_topic_eq).
  mok (mok (apply gets_eq); unfold first; rewrite Hh; apply ret_eq).
  cbn [Post_id Post_set_topic].
  destruct (bool_decide (Post_id self = Some h.1)); [done|].
  unfold Post_super_delete. cbn [Post_id Post_set_topic].
  destruct (Post_id self) as [pk|]; [|by mraise reflexivity].
  mok (mok (apply modify_eq); apply ret_eq). done.
Qed.

Lemma Post_delete_empty now self db topic :
  Post_topic_resolved self db = Some topic →
  Topic_posts topic db = [] →
  Post_delete now self db = (Raise IndexError, db).
Proof.
  intros Ht Hnil. unfold Post_delete.
  mok (by apply Post_get_topic_eq).
  by mraise (mok (apply gets_eq); rewrite Hnil; done).
Qed.

(** ** Post.delete on a topic without posts (claim C3) *)

(** A store with a third, empty topic. *)
Definition c3_db : DB :=
  set_topics (tbl_update 3 (mkTopicRow 1 (Some 7) None 0 false 0) (topics demo_db))
             demo_db.

(** C3 as stated fails: for an instance of a post whose topic has no
    post left, the lookup of the first post raises [IndexError]; the
    delete does not complete. *)
Lemma C3_counterexample :
  Topic_posts (Topic_of_row 3 (mkTopicRow 1 (Some 7) None 0 false 0)) c3_db = [] ∧
  Post_delete 20 (mkPost (Some 9) (Unloaded 3) (Some 8) None false) c3_db
    = (Raise IndexError, c3_db) ∧
  ¬ ∃ db', Post_delete 20 (mkPost (Some 9) (Unloaded 3) (Some 8) None false) c3_db
           = (Ok tt, db').
Proof.
  assert (Post_delete 20 (mkPost (Some 9) (Unloaded 3) (Some 8) None false) c3_db
          = (Raise IndexError, c3_db)) as Heq.
  { apply (Post_delete_empty _ _ _
             (Topic_of_row 3 (mkTopicRow 1 (Some 7) None 0 false 0)));
      vm_compute; reflexivity. }
  split; [vm_compute; reflexivity|]. split; [done|].
  intros [db' Hdb']. rewrite Heq in Hdb'. discriminate.
Qed.

(** C3, as the code has it.  When the topic of the post has no posts, the
    lookup of the first post raises [IndexError]: the delete fails, and
    nothing is deleted or written. *)
Theorem C3_post_delete_empty_topic (now : Z) (self : Post) (db : DB)
    (topic : Topic) :
  Post_topic_resolved self db = Some topic →
  Topic_posts topic db = [] →
  Post_delete now self db = (Raise IndexError, db).
Proof. apply Post_delete_empty. Qed.

Lemma C3_post_delete_empty_topic_witness :
  Post_delete 20 (mkPost (Some 9) (Unloaded 3) (Some 8) None false) c3_db
    = (Raise IndexError, c3_db).
Proof.
  apply (C3_post_delete_empty_topic 20
           (mkPost (Some 9) (Unloaded 3) (Some 8) None false) c3_db
           (Topic_of_row 3 (mkTopicRow 1 (Some 7) None 0 false 0))).
  - vm_compute. reflexivity.
  - vm_compute. reflexivity.
Defined.

(** ** Post.delete (claim C2) *)

Lemma rows_tbl_delete_pk {A} (pk : Z) (t : Table A) :
  rows (tbl_delete_where (λ p, p.1 = pk) t) = delete pk (rows t).
Proof.
  apply map_eq. intros k. rewrite lookup_tbl_delete_where.
  destruct (decide (k = pk)) as [->|Hne].
  - rewrite lookup_delete_eq. destruct (rows t !! pk); [|done].
    by case_decide.
  - rewrite lookup_delete_ne by done. destruct (rows t !! k); [|done].
    by case_decide.
Qed.

(** The stored counters of a topic are those a recomputation over the
    store yields. *)
Definition Topic_recomputed (tid : Z) (db : DB) : Prop :=
  ∃ tr,
    rows (topics db) !! tid = Some tr ∧
    tr_post_count tr = count (Post_objects_filter_topic_id (Some tid) db) ∧
    ∀ last_post,
      is_last_post last_post (Post_objects_filter_topic_id (Some tid) db) →
      tr_updated tr = Some (updated_or_created last_post).

Lemma Topic_recount_recomputed self self1 pk db db' :
  Topic_id self = Some pk →
  Topic_recount self db = Some self1 →
  posts db' = posts db →
  rows (topics db') !! pk = Some (Topic_to_row self1) →
  Topic_recomputed pk db'.
Proof.
  intros Hid Hrc Hp Hrow. exists (Topic_to_row self1).
  assert (Post_objects_filter_topic_id (Some pk) db'
          = Post_objects_filter_topic_id (Some pk) db) as ->.
  { unfold Post_objects_filter_topic_id. by rewrite Hp. }
  split; [done|].
  apply Topic_recount_Some in Hrc as (p & Hlast & ->).
  unfold Topic_posts in *. rewrite Hid in *.
  split; [done|]. intros last Hlast'. simpl.
  by rewrite (is_last_post_unique _ _ _ (keyed_topic_posts _ _) Hlast Hlast').
Qed.

(** [update_counters] on a stored topic that has a post. *)
Lemma Topic_update_counters_existing now self self1 db pk r f frA frB :
  Topic_id self = Some pk →
  rows (topics db) !! pk = Some r →
  Topic_forum_resolved self db = Some f →
  rows (forums db) !! tr_forum_id r = Some frA →
  rows (forums db) !! Forum_id f = Some frB →
  Topic_recount self db = Some self1 →
  ∃ f' db',
    Topic_update_counters now self db
      = (Ok (Topic_set_forum (Loaded f') self1), db') ∧
    Forum_id f' = Forum_id f ∧
    topics db' = topics (Topic_store pk self1 db) ∧
    posts db' = posts db ∧
    forums_kept db db' ∧
    (Forum_id f = tr_forum_id r → f' = f ∧ db' = Topic_store pk self1 db).
Proof.
  intros Hid Hr Hf HA HB Hrc. rewrite Topic_update_counters_unfold, Hrc.
  apply Topic_recount_Some in Hrc as (p & _ & ->).
  by eapply Topic_save_existing.
Qed.

Lemma is_first_post_iff_head qs h p :
  keyed qs → head (order_by_created_id qs) = Some h → p ∈ qs →
  is_first_post p qs ↔ h.1 = p.1.
Proof.
  intros Hk Hh Hp. apply head_order_asc_Some in Hh as Hfirst. split.
  - intros Hp'. by rewrite (is_first_post_unique _ _ _ Hk Hfirst Hp').
  - intros Heq. destruct h as [i r1], p as [j r2]. simpl in Heq. subst j.
    destruct Hfirst as [Hin Hmin].
    by rewrite <- (Hk _ _ _ Hin Hp).
Qed.

(** C2.  Let the instance be a stored post of a stored topic that has a
    post.  When the post is the first post of the topic by
    [(created, id)], deleting it deletes the topic and every post of the
    topic.  Otherwise only that post is deleted, and the counters of the
    topic and of its forum are then recomputed. *)
Theorem C2_post_delete_head_cascade (now : Z) (self : Post) (db : DB)
    (pk : Z) (pr : PostRow) (topic : Topic) (t : Z) (rt : TopicRow)
    (f : Forum) (frA frB : ForumRow) :
  Post_id self = Some pk →
  rows (posts db) !! pk = Some pr →
  Post_topic_resolved self db = Some topic →
  Topic_id topic = Some t →
  pr_topic_id pr = t →
  rows (topics db) !! t = Some rt →
  Topic_forum_resolved topic db = Some f →
  rows (forums db) !! tr_forum_id rt = Some frA →
  rows (forums db) !! Forum_id f = Some frB →
  (is_first_post (pk, pr) (Topic_posts topic db) →
   ∃ db',
     Post_delete now self db = (Ok tt, db') ∧
     rows (topics db') !! t = None ∧
     (∀ k r, rows (posts db') !! k = Some r ↔
             rows (posts db) !! k = Some r ∧ pr_topic_id r ≠ t) ∧
     (∀ t', t' ≠ t → rows (topics db') !! t' = rows (topics db) !! t')) ∧
  (¬ is_first_post (pk, pr) (Topic_posts topic db) →
   ∃ db',
     Post_delete now self db = (Ok tt, db') ∧
     rows (posts db') = delete pk (rows (posts db)) ∧
     Topic_recomputed t db' ∧
     Forum_recomputed (Forum_id f) db' ∧
     (∀ t', t' ≠ t → rows (topics db') !! t' = rows (topics db) !! t')).
Proof.
  intros Hid Hpr Htopic Ht Hprt Hrt Hf HA HB.
  assert ((pk, pr) ∈ Topic_posts topic db) as Hin.
  { unfold Topic_posts. rewrite Ht. by apply elem_of_topic_posts. }
  pose proof (keyed_topic_posts (Topic_id topic) db) as Hk.
  fold (Topic_posts topic db) in Hk.
  destruct (head (order_by_created_id (Topic_posts topic db))) as [h|] eqn:Hh.
  2:{ apply head_order_asc_None in Hh. rewrite Hh in Hin.
      by apply not_elem_of_nil in Hin. }
  pose proof (is_first_post_iff_head _ _ _ Hk Hh Hin) as Hiff. simpl in Hiff.
  rewrite (Post_delete_unfold now self db topic h) by done.
  rewrite Hid. split.
  - intros Hfirst. apply Hiff in Hfirst.
    rewrite bool_decide_true by congruence.
    rewrite (Topic_delete_eq topic db t f) by done. cbv zeta.
    eexists. split; [done|].
    unfold Forum_store, Topic_cascade. cbn [topics posts set_forums].
    split.
    { rewrite lookup_tbl_delete_where, Hrt. simpl. by rewrite decide_True. }
    split.
    { intros k r. rewrite lookup_tbl_delete_where.
      destruct (rows (posts db) !! k) as [r'|]; simpl.
      - case_decide; (split; [intros ? | intros [? ?]]); by simplify_eq.
      - split; [done | by intros [? _]]. }
    intros t' Hne. rewrite lookup_tbl_delete_where.
    destruct (rows (topics db) !! t') as [r'|]; simpl; [|done].
    by rewrite decide_False.
  - intros Hnfirst. rewrite bool_decide_false by (intros [= ->]; tauto).
    set (db1 := Post_store_delete pk db).
    assert (is_Some (Topic_recount topic db1)) as [topic1 Hrc].
    { destruct (Topic_recount topic db1) eqn:Hrc; [eauto|].
      apply Topic_recount_None in Hrc. exfalso.
      apply head_order_asc_Some in Hh as [Hhin _].
      destruct h as [i r]. unfold Topic_posts in Hhin, Hrc.
      rewrite Ht in Hhin, Hrc. apply elem_of_topic_posts in Hhin as [Hi Hit].
      assert ((i, r) ∈ Post_objects_filter_topic_id (Some t) db1) as Hin1.
      { apply elem_of_topic_posts. split; [|done].
        unfold db1, Post_store_delete. cbn [posts set_posts].
        rewrite rows_tbl_delete_pk, lookup_delete_ne; [done|].
        intros ->. simpl in Hiff. tauto. }
      rewrite Hrc in Hin1. by apply not_elem_of_nil in Hin1. }
    destruct (Topic_update_counters_existing now topic topic1 db1 t rt f frA frB)
      as (f' & db2 & Huc & Hf' & Htopics & Hposts & _); try done.
    mok (exact Huc).
    mok (by apply Topic_get_forum_eq).
    mok (apply Forum_update_counters_eq).
    eexists. split; [done|].
    split.
    { unfold Forum_store. cbn [posts set_forums]. rewrite Hposts.
      unfold db1, Post_store_delete. cbn [posts set_posts].
      apply rows_tbl_delete_pk. }
    split.
    { eapply (Topic_recount_recomputed topic topic1 t db1); [done..| |].
      - done.
      - unfold Forum_store. cbn [topics set_forums].
        by rewrite Htopics, lookup_Topic_store. }
    split.
    { rewrite <- Hf'. eapply (Forum_recount_recomputed f' db2); [done..|].
      apply (lookup_Forum_store (Forum_recount f' db2)). }
    intros t' Hne. unfold Forum_store. cbn [topics set_forums].
    rewrite Htopics. unfold Topic_store. cbn [topics set_topics tbl_update rows].
    by rewrite lookup_insert_ne.
Qed.

Lemma C2_post_delete_head_cascade_witness :
  (∃ db',
     Post_delete 20 (Post_of_row 1 (mkPostRow 1 10 None false)) demo_db
       = (Ok tt, db') ∧
     rows (topics db') !! 1 = None ∧
     (∀ k r, rows (posts db') !! k = Some r ↔
             rows (posts demo_db) !! k = Some r ∧ pr_topic_id r ≠ 1) ∧
     (∀ t', t' ≠ 1 → rows (topics db') !! t' = rows (topics demo_db) !! t')) ∧
  (∃ db',
     Post_delete 20 (Post_of_row 2 (mkPostRow 1 11 None false)) demo_db
       = (Ok tt, db') ∧
     rows (posts db') = delete 2 (rows (posts demo_db)) ∧
     Topic_recomputed 1 db' ∧
     Forum_recomputed 1 db' ∧
     (∀ t', t' ≠ 1 → rows (topics db') !! t' = rows (topics demo_db) !! t')).
Proof.
  split.
  - apply (proj1 (C2_post_delete_head_cascade 20
             (Post_of_row 1 (mkPostRow 1 10 None false)) demo_db
             1 (mkPostRow 1 10 None false)
             (Topic_of_row 1 (mkTopicRow 1 (Some 5) (Some 12) 3 false 0))
             1 (mkTopicRow 1 (Some 5) (Some 12) 3 false 0)
             (Forum_of_row 1 (mkForumRow (Some 12) 3 1))
             (mkForumRow (Some 12) 3 1) (mkForumRow (Some 12) 3 1)
             eq_refl eq_refl eq_refl eq_refl eq_refl eq_refl eq_refl
             eq_refl eq_refl)).
    refine (bool_decide_unpack (is_first_post _ _) _). vm_compute. exact I.
  - apply (proj2 (C2_post_delete_head_cascade 20
             (Post_of_row 2 (mkPostRow 1 11 None false)) demo_db
             2 (mkPostRow 1 11 None false)
             (Topic_of_row 1 (mkTopicRow 1 (Some 5) (Some 12) 3 false 0))
             1 (mkTopicRow 1 (Some 5) (Some 12) 3 false 0)
             (Forum_of_row 1 (mkForumRow (Some 12) 3 1))
             (mkForumRow (Some 12) 3 1) (mkForumRow (Some 12) 3 1)
             eq_refl eq_refl eq_refl eq_refl eq_refl eq_refl eq_refl
             eq_refl eq_refl)).
    refine (bool_decide_unpack (¬ is_first_post _ _) _). vm_compute. exact I.
Defined.

(** ** Equations for Post.save *)

(** What the [head] property returns, and the instance with [_head] set. *)
Definition Topic_head_eval (self : Topic) (db : DB)
    : option (Z * PostRow) * Topic :=
  let self' := match Topic__head self with
               | Some _ => self
               | None => Topic_set__head
                           (Some (order_by_created_id (Topic_posts self db))) self
               end in
  (match Topic__head self' with
   | Some (p :: _) => Some p
   | _ => None
   end, self').

Lemma Topic_head_eq self db :
  Topic_head self db
  = (Ok ((Topic_head_eval self db).1, (Topic_head_eval self db).2), db).
Proof.
  unfold Topic_head, Topic_head_eval.
  destruct (Topic__head self) as [qs|] eqn:Hc.
  - mok (apply ret_eq). rewrite Hc. by destruct qs.
  - mok (mok (apply gets_eq); apply ret_eq). simpl.
    by destruct (order_by_created_id _).
Qed.

(** The moderation rule of [Post.save]: the flag of the topic instance
    after the test on the head post. *)
Definition Topic_auto_clear (self : Post) (head : option (Z * PostRow))
    (topic : Topic) : Topic :=
  if Post_eq_opt head self && negb (Post_on_moderation self)
     && Topic_on_moderation topic
  then Topic_set_on_moderation false topic
  else topic.

(** The last two statements of [Post.save], run for the topic the post
    left. *)
Definition Post_save_old_counters (now : Z) (old_topic : Topic) : M DB unit :=
  old_topic ← Topic_update_counters now old_topic;
  '(old_forum, _) ← Topic_get_forum old_topic;
  Forum_update_counters old_forum;;
  mret tt.

(** The stored state of the post a [save] starts from: no row for a new
    instance, and otherwise the row and the topic it refers to. *)
Inductive Post_persisted (self : Post) (db : DB)
    : option (Z * TopicRow) → Prop :=
  | Post_persisted_new :
      Post_id self = None → Post_persisted self db None
  | Post_persisted_old pk r_old rt_old :
      Post_id self = Some pk →
      rows (posts db) !! pk = Some r_old →
      rows (topics db) !! pr_topic_id r_old = Some rt_old →
      is_Some (rows (forums db) !! tr_forum_id rt_old) →
      Post_persisted self db (Some (pr_topic_id r_old, rt_old)).

(** The row [Post.save] writes and the store after the write. *)
Definition Post_row (now : Z) (self : Post) (t : Z) : PostRow :=
  mkPostRow t (default now (Post_created self)) (Post_updated self)
            (Post_on_moderation self).
Definition Post_pk (self : Post) (db : DB) : Z :=
  default (next_id (posts db)) (Post_id self).
Definition Post_store (now : Z) (self : Post) (t : Z) (db : DB) : DB :=
  set_posts (match Post_id self with
             | Some pk => tbl_update pk (Post_row now self t) (posts db)
             | None => (tbl_insert (Post_row now self t) (posts db)).2
             end) db.
(** [self] after the default for [created] (the first statements of
    [Post.save]). *)
Definition Post_with_created (now : Z) (self : Post) : Post :=
  match Post_created self with
  | None => Post_set_created (Some now) self
  | Some _ => self
  end.
Definition Post_saved (now : Z) (self : Post) (topic : Topic) (db : DB) : Post :=
  Post_set_topic (Loaded topic)
    (Post_set_id (Some (Post_pk self db)) (Post_with_created now self)).

Lemma lookup_Post_store now self t db :
  rows (posts (Post_store now self t db)) !! Post_pk self db
  = Some (Post_row now self t).
Proof.
  unfold Post_store, Post_pk. destruct (Post_id self); simpl;
    apply lookup_insert_eq.
Qed.

Lemma Post_with_created_created now self :
  Post_created (Post_with_created now self)
  = Some (default now (Post_created self)).
Proof. unfold Post_with_created. by destruct (Post_created self) eqn:E. Qed.

Lemma Post_super_save_eq now self t db :
  Post_topic_id self = Some t →
  is_Some (rows (topics db) !! t) →
  Post_super_save (Post_with_created now self) db
  = (Ok (Post_set_id (Some (Post_pk self db)) (Post_with_created now self)),
     Post_store now self t db).
Proof.
  intros Ht [rt Hrt]. unfold Post_super_save.
  rewrite Post_with_created_created.
  assert (Post_topic_id (Post_with_created now self) = Some t) as ->.
  { unfold Post_with_created. by destruct (Post_created self). }
  mok (apply gets_eq). rewrite Hrt.
  assert (Post_id (Post_with_created now self) = Post_id self) as Hid.
  { unfold Post_with_created. by destruct (Post_created self). }
  assert (Post_updated (Post_with_created now self) = Post_updated self) as ->.
  { unfold Post_with_created. by destruct (Post_created self). }
  assert (Post_on_moderation (Post_with_created now self)
          = Post_on_moderation self) as ->.
  { unfold Post_with_created. by destruct (Post_created self). }
  rewrite Hid. unfold Post_store, Post_pk, Post_row.
  destruct (Post_id self) as [pk|] eqn:Hpk; cbn beta iota zeta.
  - mok reflexivity. simpl. destruct (Post_with_created now self); simpl in *.
    by subst.
  - reflexivity.
Qed.

Lemma Post_save_old_counters_map {A} now old_topic (a : A) db :
  (old_topic ← Topic_update_counters now old_topic;
   '(old_forum, _) ← Topic_get_forum old_topic;
   Forum_update_counters old_forum;;
   mret a) db
  = match Post_save_old_counters now old_topic db with
    | (Ok _, db') => (Ok a, db')
    | (Raise e, db') => (Raise e, db')
    end.
Proof.
  unfold Post_save_old_counters, mbind, M_bind.
  destruct (Topic_update_counters now old_topic db) as [[x|e] s]; [|done].
  destruct (Topic_get_forum x s) as [[[fo x']|e] s']; [|done].
  by destruct (Forum_update_counters fo s') as [[y|e] s''].
Qed.

Lemma Topic_auto_clear_id self head topic :
  Topic_id (Topic_auto_clear self head topic) = Topic_id topic.
Proof. unfold Topic_auto_clear. by destruct (_ && _). Qed.
Lemma Topic_auto_clear_forum self head topic :
  Topic_forum (Topic_auto_clear self head topic) = Topic_forum topic.
Proof. unfold Topic_auto_clear. by destruct (_ && _). Qed.
Lemma Topic_head_eval_id topic db :
  Topic_id (Topic_head_eval topic db).2 = Topic_id topic.
Proof. unfold Topic_head_eval. simpl. by destruct (Topic__head topic). Qed.
Lemma Topic_head_eval_forum topic db :
  Topic_forum (Topic_head_eval topic db).2 = Topic_forum topic.
Proof. unfold Topic_head_eval. simpl. by destruct (Topic__head topic). Qed.

Lemma Topic_forum_resolved_ext self self' db db' :
  Topic_forum self' = Topic_forum self → forums db' = forums db →
  Topic_forum_resolved self' db' = Topic_forum_resolved self db.
Proof. intros Hf Hdb. unfold Topic_forum_resolved. by rewrite Hf, Hdb. Qed.

(** The statements of [Post.save] from the write of the row to the
    recomputation for the post's topic and forum. *)
Lemma Post_save_tail now self db topic t rt f frA frB :
  Post_topic_resolved self db = Some topic →
  Topic_id topic = Some t →
  rows (topics db) !! t = Some rt →
  Topic_forum_resolved topic db = Some f →
  rows (forums db) !! tr_forum_id rt = Some frA →
  rows (forums db) !! Forum_id f = Some frB →
  let db1 := Post_store now self t db in
  let self1 := Post_saved now self topic db in
  let ht := Topic_head_eval topic db1 in
  let topic2 := Topic_auto_clear self1 ht.1 ht.2 in
  ∃ topic3 f' db2,
    Topic_recount topic2 db1 = Some topic3 ∧
    Forum_id f' = Forum_id f ∧
    topics db2 = topics (Topic_store t topic3 db1) ∧
    posts db2 = posts db1 ∧
    forums_kept db db2 ∧
    (Forum_id f = tr_forum_id rt → f' = f ∧ db2 = Topic_store t topic3 db1) ∧
    let f'' := Forum_recount f' db2 in
    let db3 := Forum_store f'' db2 in
    let self' :=
      Post_set_topic (Loaded (Topic_set_forum (Loaded f'') topic3)) self1 in
    ∀ A (k : Post → M DB A),
    (self ← Post_super_save (Post_with_created now self);
     '(topic, self) ← Post_get_topic self;
     '(head, topic) ← Topic_head topic;
     let topic :=
       if Post_eq_opt head self && negb (Post_on_moderation self)
          && Topic_on_moderation topic
       then Topic_set_on_moderation false topic else topic in
     topic ← Topic_update_counters now topic;
     '(forum, topic) ← Topic_get_forum topic;
     forum ← Forum_update_counters forum;
     k (Post_set_topic (Loaded (Topic_set_forum (Loaded forum) topic)) self)) db
    = k self' db3.
Proof.
  intros Htopic Ht Hrt Hf HA HB db1 self1 ht topic2.
  pose proof (Post_topic_resolved_id _ _ _ Htopic) as Htid. rewrite Ht in Htid.
  set (self0 := Post_with_created now self).
  assert (Post_topic self0 = Post_topic self) as Htopic0.
  { unfold self0, Post_with_created. by destruct (Post_created self). }
  set (self0' := Post_set_id (Some (Post_pk self db)) self0).
  assert (Post_topic_resolved self0' db1 = Some topic) as Htopic1.
  { unfold Post_topic_resolved in *. simpl. by rewrite Htopic0. }
  assert (Topic_id topic2 = Some t) as Ht2.
  { unfold topic2, ht. by rewrite Topic_auto_clear_id, Topic_head_eval_id. }
  assert (Topic_forum_resolved topic2 db1 = Some f) as Hf2.
  { rewrite <- Hf. apply Topic_forum_resolved_ext; [|done].
    unfold topic2, ht.
    by rewrite Topic_auto_clear_forum, Topic_head_eval_forum. }
  assert (is_Some (Topic_recount topic2 db1)) as [topic3 Hrc].
  { destruct (Topic_recount topic2 db1) eqn:Hrc; [eauto|].
    apply Topic_recount_None in Hrc. exfalso.
    assert ((Post_pk self db, Post_row now self t)
            ∈ Post_objects_filter_topic_id (Some t) db1) as Hin.
    { apply elem_of_topic_posts. split; [apply lookup_Post_store|done]. }
    unfold Topic_posts in Hrc. rewrite Ht2 in Hrc. rewrite Hrc in Hin.
    by apply not_elem_of_nil in Hin. }
  destruct (Topic_update_counters_existing now topic2 topic3 db1 t rt f frA frB)
    as (f' & db2 & Huc & Hf' & Htopics & Hposts & Hkept & Hsame); try done.
  exists topic3, f', db2. do 6 (split; [done|]).
  intros f'' db3 self' A k.
  mok (apply Post_super_save_eq; [by rewrite Htid | by eauto]).
  fold self0 self0' db1. mok (by apply Post_get_topic_eq).
  mok (apply Topic_head_eq).
  change (Post_set_topic (Loaded topic) self0') with self1.
  fold ht.
  change (if Post_eq_opt ht.1 self1 && negb (Post_on_moderation self1)
             && Topic_on_moderation ht.2
          then Topic_set_on_moderation false ht.2 else ht.2)
    with topic2.
  mok (exact Huc).
  mok (by apply Topic_get_forum_eq).
  mok (apply Forum_update_counters_eq).
  by destruct topic3.
Qed.

Lemma Post_save_spec now self db topic t rt f frA frB old :
  Post_topic_resolved self db = Some topic →
  Topic_id topic = Some t →
  rows (topics db) !! t = Some rt →
  Topic_forum_resolved topic db = Some f →
  rows (forums db) !! tr_forum_id rt = Some frA →
  rows (forums db) !! Forum_id f = Some frB →
  Post_persisted self db old →
  let db1 := Post_store now self t db in
  let self1 := Post_saved now self topic db in
  let ht := Topic_head_eval topic db1 in
  let topic2 := Topic_auto_clear self1 ht.1 ht.2 in
  ∃ topic3 f' db2,
    Topic_recount topic2 db1 = Some topic3 ∧
    Forum_id f' = Forum_id f ∧
    topics db2 = topics (Topic_store t topic3 db1) ∧
    posts db2 = posts db1 ∧
    forums_kept db db2 ∧
    (Forum_id f = tr_forum_id rt → f' = f ∧ db2 = Topic_store t topic3 db1) ∧
    let f'' := Forum_recount f' db2 in
    let db3 := Forum_store f'' db2 in
    let self' :=
      Post_set_topic (Loaded (Topic_set_forum (Loaded f'') topic3)) self1 in
    Post_save now self db =
    match old with
    | Some (t_old, rt_old) =>
        if bool_decide (t_old = t) then (Ok self', db3)
        else match Post_save_old_counters now (Topic_of_row t_old rt_old) db3 with
             | (Ok _, db5) => (Ok self', db5)
             | (Raise e, db5) => (Raise e, db5)
             end
    | None => (Ok self', db3)
    end.
Proof.
  intros Htopic Ht Hrt Hf HA HB Hold.
  destruct Hold as [Hnew | pk r_old rt_old Hpk Hr_old Hrt_old Hfr_old].
  - destruct (Post_save_tail now self db topic t rt f frA frB)
      as (topic3 & f' & db2 & Hrc & Hf' & Htopics & Hposts & Hkept & Hsame & Heq);
      try done.
    cbv zeta. exists topic3, f', db2. do 6 (split; [done|]).
    unfold Post_save. cbn beta iota zeta.
    fold (Post_with_created now self).
    assert (Post_id (Post_with_created now self) = None) as ->.
    { unfold Post_with_created. by destruct (Post_created self). }
    mok (apply ret_eq).
    cbv zeta in Heq. by rewrite Heq.
  - set (selfL := Post_set_topic (Loaded topic) self).
    destruct (Post_save_tail now selfL db topic t rt f frA frB)
      as (topic3 & f' & db2 & Hrc & Hf' & Htopics & Hposts & Hkept & Hsame & Heq);
      try done.
    assert (Post_saved now selfL topic db = Post_saved now self topic db) as HselfL.
    { unfold Post_saved, Post_with_created, selfL. simpl.
      by destruct (Post_created self). }
    cbv zeta in *. change (Post_store now selfL t db) with (Post_store now self t db) in *.
    rewrite HselfL in *.
    exists topic3, f', db2. do 6 (split; [done|]).
    unfold Post_save. cbn beta iota zeta.
    fold (Post_with_created now self).
    assert (Post_id (Post_with_created now self) = Some pk) as ->.
    { unfold Post_with_created. by destruct (Post_created self). }
    assert (Post_topic_resolved (Post_with_created now self) db = Some topic)
      as Htopic0.
    { unfold Post_with_created. by destruct (Post_created self). }
    mok (mok (by apply Post_objects_get_Some);
         mok (apply Post_get_topic_eq; unfold Post_topic_resolved; simpl;
              by rewrite Hrt_old);
         mok (by apply Post_get_topic_eq);
         apply ret_eq).
    cbn [Topic_id Topic_of_row]. rewrite Ht.
    assert (Post_set_topic (Loaded topic) (Post_with_created now self)
            = Post_with_created now selfL) as ->.
    { unfold Post_with_created, selfL. simpl. by destruct (Post_created self). }
    destruct (decide (pr_topic_id r_old = t)) as [Heqt|Hnet].
    + rewrite !bool_decide_true by congruence. cbn [negb].
      by rewrite Heq.
    + rewrite !bool_decide_false by congruence. cbn [negb].
      etrans.
      { exact (Heq _ (λ self0,
          '(old_topic, _) ← Post_get_topic
             (Post_set_topic (Loaded (Topic_of_row (pr_topic_id r_old) rt_old))
                (Post_of_row pk r_old));
          old_topic ← Topic_update_counters now old_topic;
          '(old_forum, _) ← Topic_get_forum old_topic;
          Forum_update_counters old_forum;;
          mret self0)). }
      cbn beta.
      mok (by apply Post_get_topic_eq).
      apply Post_save_old_counters_map.
Qed.

Lemma Topic_update_counters_synced now self self1 db t rt f :
  Topic_id self = Some t →
  rows (topics db) !! t = Some rt →
  Topic_forum_id self = tr_forum_id rt →
  Topic_forum_resolved self db = Some f →
  is_Some (rows (forums db) !! tr_forum_id rt) →
  Topic_recount self db = Some self1 →
  Topic_update_counters now self db
  = (Ok (Topic_set_forum (Loaded f) self1), Topic_store t self1 db).
Proof.
  intros Hid Hrt Hfid Hf Hfr Hrc.
  rewrite Topic_update_counters_unfold, Hrc.
  apply Topic_recount_Some in Hrc as (p & _ & ->).
  by apply (Topic_save_same_forum _ _ db t rt f).
Qed.

(** [update_counters] of a stored topic whose instance has the stored
    forum, followed by [update_counters] of that forum. *)
Lemma Post_save_old_counters_eq now old_topic db t rt f fr :
  Topic_id old_topic = Some t →
  rows (topics db) !! t = Some rt →
  Topic_forum_id old_topic = tr_forum_id rt →
  Topic_forum_resolved old_topic db = Some f →
  rows (forums db) !! tr_forum_id rt = Some fr →
  Post_save_old_counters now old_topic db =
  match Topic_recount old_topic db with
  | None => (Raise IndexError, db)
  | Some old_topic1 =>
      let db4 := Topic_store t old_topic1 db in
      (Ok tt, Forum_store (Forum_recount f db4) db4)
  end.
Proof.
  intros Hid Hrt Hfid Hf Hfr. unfold Post_save_old_counters.
  destruct (Topic_recount old_topic db) as [old1|] eqn:Hrc.
  - mok (by apply (Topic_update_counters_synced _ _ old1 db t rt f); eauto).
    mok (by apply Topic_get_forum_eq).
    by mok (apply Forum_update_counters_eq).
  - by mraise (by rewrite Topic_update_counters_unfold, Hrc).
Qed.

Lemma topic_posts_ext tid db db' :
  posts db' = posts db →
  Post_objects_filter_topic_id tid db' = Post_objects_filter_topic_id tid db.
Proof. intros Hp. unfold Post_objects_filter_topic_id. by rewrite Hp. Qed.

Lemma Topic_recount_on_moderation self db self1 :
  Topic_recount self db = Some self1 →
  Topic_on_moderation self1 = Topic_on_moderation self ∧
  Topic_id self1 = Topic_id self ∧
  Topic_forum self1 = Topic_forum self.
Proof. intros Hrc. by apply Topic_recount_Some in Hrc as (p & _ & ->). Qed.


(** ** Post.save and the moderation flag (claim C6) *)


(** A store with a third topic, without posts and flagged for moderation. *)
Definition c6_db : DB :=
  set_topics (tbl_update 3 (mkTopicRow 1 (Some 7) None 0 true 0) (topics demo_db))
             demo_db.


(** The flag is cleared in this store: the new post is the first post of
    topic 3. *)
Example c6_flag_cleared :
  ∃ self' db',
    Post_save 20 (mkPost None (Unloaded 3) None None false) c6_db
      = (Ok self', db') ∧
    tr_on_moderation <$> rows (topics db') !! 3 = Some false ∧
    tr_on_moderation <$> rows (topics c6_db) !! 3 = Some true.
Proof. eexists _, _. split; [vm_compute; reflexivity|]. by vm_compute. Qed.

(** With the post itself on moderation the flag stays. *)
Example c6_flag_kept :
  ∃ self' db',
    Post_save 20 (mkPost None (Unloaded 3) None None true) c6_db
      = (Ok self', db') ∧
    tr_on_moderation <$> rows (topics db') !! 3 = Some true.
Proof. eexists _, _. split; [vm_compute; reflexivity|]. by vm_compute. Qed.

(** The [_head] attribute is kept on the instance: a topic instance whose
    [head] was read before the first post existed keeps the empty
    queryset, and the flag is then not cleared. *)
Example c6_stale_head_cache :
  ∃ self' db',
    Post_save 20
      (mkPost None
         (Loaded (Topic_set__head (Some [])
                    (Topic_of_row 3 (mkTopicRow 1 (Some 7) None 0 true 0))))
         None None false) c6_db
      = (Ok self', db') ∧
    tr_on_moderation <$> rows (topics db') !! 3 = Some true.
Proof. eexists _, _. split; [vm_compute; reflexivity|]. by vm_compute. Qed.


(** ** The counters as an invariant of the store (claim C1) *)

(** The stored [post_count] of a topic, and of a forum, is the number of
    posts the store holds for it. *)
Definition topic_ok (db : DB) (t : Z) (r : TopicRow) : Prop :=
  tr_post_count r = count (Post_objects_filter_topic_id (Some t) db).
Definition forum_ok (db : DB) (f : Z) (r : ForumRow) : Prop :=
  fr_post_count r = count (Post_objects_filter_topic__forum_id f db).

Definition counters_ok (db : DB) : Prop :=
  map_Forall (topic_ok db) (rows (topics db)) ∧
  map_Forall (forum_ok db) (rows (forums db)).

(** What the relational store guarantees: every post refers to a stored
    topic and every topic to a stored forum, and the keys of the posts
    are below the next key of the sequence. *)
Definition db_wf (db : DB) : Prop :=
  map_Forall (λ _ r, is_Some (rows (topics db) !! pr_topic_id r))
             (rows (posts db)) ∧
  map_Forall (λ _ r, is_Some (rows (forums db) !! tr_forum_id r))
             (rows (topics db)) ∧
  map_Forall (λ p _, p < next_id (posts db)) (rows (posts db)).

Global Instance counters_ok_dec db : Decision (counters_ok db).
Proof. unfold counters_ok, topic_ok, forum_ok. apply _. Defined.
Global Instance db_wf_dec db : Decision (db_wf db).
Proof. unfold db_wf. apply _. Defined.

Lemma demo_ok : db_wf demo_db ∧ counters_ok demo_db.
Proof. split; refine (bool_decide_unpack _ _); vm_compute; exact I. Qed.

(** The counters are right except for the topics of [Ts] and the forums
    of [Fs]. *)
Definition ok_except (Ts Fs : gset Z) (db : DB) : Prop :=
  (∀ t r, t ∉ Ts → rows (topics db) !! t = Some r → topic_ok db t r) ∧
  (∀ f r, f ∉ Fs → rows (forums db) !! f = Some r → forum_ok db f r).

Lemma ok_except_empty db : ok_except ∅ ∅ db ↔ counters_ok db.
Proof.
  unfold ok_except, counters_ok, map_Forall. split.
  - intros [Ht Hf]. split; intros k r Hk; [apply Ht|apply Hf]; set_solver.
  - intros [Ht Hf]. split; intros k r _ Hk; [by apply Ht|by apply Hf].
Qed.

Lemma ok_except_weaken Ts Fs Ts' Fs' db :
  Ts ⊆ Ts' → Fs ⊆ Fs' → ok_except Ts Fs db → ok_except Ts' Fs' db.
Proof.
  intros HT HF [Ht Hf]. split; intros k r Hk; [apply Ht|apply Hf]; set_solver.
Qed.

Lemma forum_posts_ext f db db' :
  posts db' = posts db →
  (∀ x, tr_forum_id <$> rows (topics db') !! x
        = tr_forum_id <$> rows (topics db) !! x) →
  Post_objects_filter_topic__forum_id f db'
  = Post_objects_filter_topic__forum_id f db.
Proof.
  intros Hp Hx. unfold Post_objects_filter_topic__forum_id. rewrite Hp.
  apply tbl_filter_ext. intros k r. simpl. by rewrite Hx.
Qed.

Lemma Topic_store_forum_ids t self1 rt db x :
  rows (topics db) !! t = Some rt →
  Topic_forum_id self1 = tr_forum_id rt →
  tr_forum_id <$> rows (topics (Topic_store t self1 db)) !! x
  = tr_forum_id <$> rows (topics db) !! x.
Proof.
  intros Hrt Hfid. unfold Topic_store. cbn [topics set_topics tbl_update rows].
  destruct (decide (x = t)) as [->|Hne].
  - rewrite lookup_insert_eq, Hrt. simpl. by rewrite <- Hfid.
  - by rewrite lookup_insert_ne.
Qed.

Lemma ok_except_Topic_store Ts Fs db self self1 t rt :
  Topic_id self = Some t →
  rows (topics db) !! t = Some rt →
  Topic_forum_id self = tr_forum_id rt →
  Topic_recount self db = Some self1 →
  ok_except Ts Fs db →
  ok_except (Ts ∖ {[t]}) Fs (Topic_store t self1 db).
Proof.
  intros Hid Hrt Hfid Hrc [Ht Hf].
  apply Topic_recount_Some in Hrc as (p & _ & ->).
  set (self1 := Topic_set_updated _ _).
  assert (Topic_forum_id self1 = tr_forum_id rt) as Hfid1 by done.
  split.
  - intros t' r Ht' Hr. unfold topic_ok.
    rewrite (topic_posts_ext _ db) by done.
    destruct (decide (t' = t)) as [->|Hne].
    + rewrite lookup_Topic_store in Hr. injection Hr as <-.
      simpl. unfold Topic_posts. by rewrite Hid.
    + unfold Topic_store in Hr. cbn [topics set_topics tbl_update rows] in Hr.
      rewrite lookup_insert_ne in Hr by done. apply Ht; [set_solver|done].
  - intros f r Hf' Hr. unfold forum_ok.
    rewrite (forum_posts_ext _ db); [by apply Hf|done|].
    intros x. by eapply Topic_store_forum_ids.
Qed.

Lemma ok_except_Forum_store Ts Fs db f :
  ok_except Ts Fs db →
  ok_except Ts (Fs ∖ {[Forum_id f]}) (Forum_store (Forum_recount f db) db).
Proof.
  intros [Ht Hf]. split.
  - intros t r Ht' Hr. by apply Ht.
  - intros f' r Hf' Hr. unfold forum_ok.
    change (Post_objects_filter_topic__forum_id f'
              (Forum_store (Forum_recount f db) db))
      with (Post_objects_filter_topic__forum_id f' db).
    unfold Forum_store in Hr. cbn [forums set_forums tbl_update rows] in Hr.
    destruct (decide (f' = Forum_id f)) as [->|Hne].
    + change (Forum_id (Forum_recount f db)) with (Forum_id f) in Hr.
      rewrite lookup_insert_eq in Hr. by injection Hr as <-.
    + change (Forum_id (Forum_recount f db)) with (Forum_id f) in Hr.
      rewrite lookup_insert_ne in Hr by done. apply Hf; [set_solver|done].
Qed.

Lemma db_wf_Topic_store db t self1 rt :
  rows (topics db) !! t = Some rt →
  Topic_forum_id self1 = tr_forum_id rt →
  db_wf db → db_wf (Topic_store t self1 db).
Proof.
  intros Hrt Hfid (Ha & Hb & Hc). unfold db_wf, Topic_store.
  cbn [posts topics forums set_topics tbl_update rows].
  split; [|split; [|done]].
  - intros p r Hp. specialize (Ha p r Hp). simpl in Ha.
    rewrite lookup_insert. case_decide; [eauto|done].
  - apply map_Forall_insert_2; [|done]. simpl.
    rewrite Hfid. by apply (Hb t rt).
Qed.

Lemma db_wf_Forum_store db f :
  db_wf db → db_wf (Forum_store f db).
Proof.
  intros (Ha & Hb & Hc). unfold db_wf, Forum_store.
  cbn [posts topics forums set_forums tbl_update rows].
  split; [done|]. split; [|done].
  intros t r Ht. specialize (Hb t r Ht). simpl in Hb.
  rewrite lookup_insert. case_decide; [eauto|done].
Qed.

(** A change of the posts table leaves the counters right for every topic
    and forum that no changed row belongs to. *)
Lemma ok_except_posts_change db db1 Ts Fs :
  topics db1 = topics db →
  forums db1 = forums db →
  (∀ k, rows (posts db1) !! k = rows (posts db) !! k ∨
        ∀ r, rows (posts db1) !! k = Some r ∨ rows (posts db) !! k = Some r →
             pr_topic_id r ∈ Ts ∧
             ∀ tr, rows (topics db) !! pr_topic_id r = Some tr →
                   tr_forum_id tr ∈ Fs) →
  counters_ok db → ok_except Ts Fs db1.
Proof.
  intros Ht Hf Hk [Hokt Hokf]. split.
  - intros t r Hnot Hr. rewrite Ht in Hr. unfold topic_ok.
    rewrite (Hokt t r Hr). f_equal. unfold Post_objects_filter_topic_id.
    apply tbl_filter_ext. intros k r'. simpl.
    destruct (Hk k) as [Heq | Hch]; [by rewrite Heq|].
    split; intros [Hrow Htop]; exfalso; subst t;
      [destruct (Hch r' (or_intror Hrow)) | destruct (Hch r' (or_introl Hrow))];
      done.
  - intros f r Hnot Hr. rewrite Hf in Hr. unfold forum_ok.
    rewrite (Hokf f r Hr). f_equal. unfold Post_objects_filter_topic__forum_id.
    apply tbl_filter_ext. intros k r'. simpl. rewrite Ht.
    destruct (Hk k) as [Heq | Hch]; [by rewrite Heq|].
    split; intros [Hrow Htop]; exfalso;
      [destruct (Hch r' (or_intror Hrow)) as [_ Hfor]
      |destruct (Hch r' (or_introl Hrow)) as [_ Hfor]];
      destruct (rows (topics db) !! pr_topic_id r') as [tr|] eqn:Htr;
      simplify_eq/=; by apply Hnot, Hfor.
Qed.

(** The topics and forums a [save] of the post can change the counts of. *)
Definition old_topics (old : option (Z * TopicRow)) : gset Z :=
  match old with Some (t_old, _) => {[t_old]} | None => ∅ end.
Definition old_forums (old : option (Z * TopicRow)) : gset Z :=
  match old with Some (_, rt_old) => {[tr_forum_id rt_old]} | None => ∅ end.

Lemma ok_except_Post_store now self t rt old db :
  rows (topics db) !! t = Some rt →
  Post_persisted self db old →
  db_wf db → counters_ok db →
  ok_except ({[t]} ∪ old_topics old) ({[tr_forum_id rt]} ∪ old_forums old)
            (Post_store now self t db).
Proof.
  intros Hrt Hold (_ & _ & Hc) Hok.
  apply (ok_except_posts_change db); [done..| |done].
  intros k. unfold Post_store.
  destruct Hold as [Hnew | pk r_old rt_old Hpk Hr_old Hrt_old Hfr_old].
  - rewrite Hnew. cbn [posts set_posts tbl_insert rows snd].
    destruct (decide (k = next_id (posts db))) as [->|Hne];
      [|left; by rewrite lookup_insert_ne].
    right. intros r. rewrite lookup_insert_eq.
    destruct (rows (posts db) !! next_id (posts db)) as [r0|] eqn:Hr0.
    { specialize (Hc _ _ Hr0). simpl in Hc. lia. }
    intros [[= <-]|?]; [|done]. simpl. split; [set_solver|].
    intros tr. rewrite Hrt. intros [= <-]. set_solver.
  - rewrite Hpk. cbn [posts set_posts tbl_update rows].
    destruct (decide (k = pk)) as [->|Hne];
      [|left; by rewrite lookup_insert_ne].
    right. intros r. rewrite lookup_insert_eq, Hr_old.
    intros [[= <-]|[= <-]]; simpl.
    + split; [set_solver|]. intros tr. rewrite Hrt. intros [= <-]. set_solver.
    + split; [set_solver|]. intros tr. rewrite Hrt_old. intros [= <-].
      set_solver.
Qed.

Lemma db_wf_Post_store now self t rt db :
  rows (topics db) !! t = Some rt →
  db_wf db → db_wf (Post_store now self t db).
Proof.
  intros Hrt (Ha & Hb & Hc). unfold db_wf, Post_store.
  destruct (Post_id self) as [pk|];
    cbn [posts topics forums set_posts tbl_update tbl_insert rows next_id snd].
  - split; [|split; [done|]].
    + apply map_Forall_insert_2; [simpl; by rewrite Hrt|done].
    + apply map_Forall_insert_2; [lia|].
      intros p r Hp. specialize (Hc p r Hp). simpl in Hc. lia.
  - split; [|split; [done|]].
    + apply map_Forall_insert_2; [simpl; by rewrite Hrt|done].
    + apply map_Forall_insert_2; [lia|].
      intros p r Hp. specialize (Hc p r Hp). simpl in Hc. lia.
Qed.

Lemma ok_except_Post_store_delete pk r rt db :
  rows (posts db) !! pk = Some r →
  rows (topics db) !! pr_topic_id r = Some rt →
  counters_ok db →
  ok_except {[pr_topic_id r]} {[tr_forum_id rt]} (Post_store_delete pk db).
Proof.
  intros Hr Hrt Hok.
  apply (ok_except_posts_change db); [done..| |done].
  intros k. unfold Post_store_delete. cbn [posts set_posts].
  rewrite rows_tbl_delete_pk.
  destruct (decide (k = pk)) as [->|Hne]; [|left; by rewrite lookup_delete_ne].
  right. intros r'. rewrite lookup_delete_eq, Hr.
  intros [?|[= <-]]; [done|]. split; [set_solver|].
  intros tr. rewrite Hrt. intros [= <-]. set_solver.
Qed.

Lemma db_wf_Post_store_delete pk db :
  db_wf db → db_wf (Post_store_delete pk db).
Proof.
  intros (Ha & Hb & Hc). unfold db_wf, Post_store_delete.
  cbn [posts topics forums set_posts].
  rewrite rows_tbl_delete_pk. cbn [tbl_delete_where next_id].
  split; [by apply map_Forall_delete|]. split; [done|].
  by apply map_Forall_delete.
Qed.

Lemma lookup_posts_Topic_cascade t db k r :
  rows (posts (Topic_cascade t db)) !! k = Some r ↔
  rows (posts db) !! k = Some r ∧ pr_topic_id r ≠ t.
Proof.
  unfold Topic_cascade. cbn [posts]. rewrite lookup_tbl_delete_where.
  destruct (rows (posts db) !! k) as [r'|]; simpl.
  - case_decide; (split; [intros ? | intros [? ?]]); by simplify_eq.
  - split; [done | by intros [? _]].
Qed.

Lemma lookup_topics_Topic_cascade t db t' r :
  rows (topics (Topic_cascade t db)) !! t' = Some r ↔
  rows (topics db) !! t' = Some r ∧ t' ≠ t.
Proof.
  unfold Topic_cascade. cbn [topics]. rewrite lookup_tbl_delete_where.
  destruct (rows (topics db) !! t') as [r'|]; simpl.
  - case_decide; (split; [intros ? | intros [? ?]]); by simplify_eq.
  - split; [done | by intros [? _]].
Qed.

Lemma ok_except_Topic_cascade t rt db :
  rows (topics db) !! t = Some rt →
  counters_ok db →
  ok_except ∅ {[tr_forum_id rt]} (Topic_cascade t db).
Proof.
  intros Hrt [Hokt Hokf]. split.
  - intros t' r _ Hr. apply lookup_topics_Topic_cascade in Hr as [Hr Hne].
    unfold topic_ok. rewrite (Hokt t' r Hr). f_equal.
    unfold Post_objects_filter_topic_id. apply tbl_filter_ext.
    intros k r0. rewrite lookup_posts_Topic_cascade. simpl.
    split; [|intros [[? ?] ?]; done]. intros [? ?]. split; [|done].
    split; [done|]. congruence.
  - intros f r Hnot Hr. change (forums (Topic_cascade t db)) with (forums db) in Hr.
    unfold forum_ok. rewrite (Hokf f r Hr). f_equal.
    unfold Post_objects_filter_topic__forum_id. apply tbl_filter_ext.
    intros k r0. rewrite lookup_posts_Topic_cascade. cbn [snd].
    split.
    + intros [Hr0 Hfor].
      destruct (rows (topics db) !! pr_topic_id r0) as [tr|] eqn:Htr; [|done].
      simpl in Hfor. injection Hfor as Hfor.
      assert (pr_topic_id r0 ≠ t) as Hne.
      { intros Heq. rewrite Heq, Hrt in Htr. injection Htr as <-.
        set_solver. }
      split; [done|].
      assert (rows (topics (Topic_cascade t db)) !! pr_topic_id r0 = Some tr)
        as -> by by apply lookup_topics_Topic_cascade.
      simpl. by rewrite Hfor.
    + intros [[Hr0 Hne] Hfor]. split; [done|].
      destruct (rows (topics (Topic_cascade t db)) !! pr_topic_id r0)
        as [tr|] eqn:Htr; [|done].
      apply lookup_topics_Topic_cascade in Htr as [-> _]. done.
Qed.

Lemma db_wf_Topic_cascade t db :
  db_wf db → db_wf (Topic_cascade t db).
Proof.
  intros (Ha & Hb & Hc). unfold db_wf. split; [|split].
  - intros p r Hr. apply lookup_posts_Topic_cascade in Hr as [Hr Hne].
    destruct (Ha p r Hr) as [tr Htr]. simpl in Htr.
    exists tr. by apply lookup_topics_Topic_cascade.
  - intros t' r Hr. apply lookup_topics_Topic_cascade in Hr as [Hr Hne].
    by apply (Hb t' r).
  - intros p r Hr. apply lookup_posts_Topic_cascade in Hr as [Hr Hne].
    by apply (Hc p r).
Qed.

(** An instance of a stored topic that carries the stored forum. *)
Definition Topic_synced (topic : Topic) (t : Z) (rt : TopicRow) (db : DB)
    : Prop :=
  Topic_id topic = Some t ∧
  rows (topics db) !! t = Some rt ∧
  Topic_forum_id topic = tr_forum_id rt.

Lemma Topic_synced_of_row t rt db :
  rows (topics db) !! t = Some rt → Topic_synced (Topic_of_row t rt) t rt db.
Proof. done. Qed.

Lemma Topic_synced_forum topic t rt db :
  Topic_synced topic t rt db → db_wf db →
  ∃ f fr, Topic_forum_resolved topic db = Some f ∧
          Forum_id f = tr_forum_id rt ∧
          rows (forums db) !! tr_forum_id rt = Some fr.
Proof.
  intros (Hid & Hrt & Hfid) (_ & Hb & _).
  destruct (Hb t rt Hrt) as [fr Hfr]. simpl in Hfr.
  unfold Topic_forum_resolved, Topic_forum_id in *.
  destruct (Topic_forum topic) as [i|f0].
  - subst i. rewrite Hfr. by eexists _, _.
  - by eexists _, _.
Qed.

(** [Post.save] keeps the store well formed and the counters right. *)
Lemma Post_save_preserves now self db topic t rt old self' db' :
  Post_topic_resolved self db = Some topic →
  Topic_synced topic t rt db →
  Post_persisted self db old →
  db_wf db → counters_ok db →
  Post_save now self db = (Ok self', db') →
  db_wf db' ∧ counters_ok db'.
Proof.
  intros Htopic Hsync Hold Hwf Hok Hsave.
  destruct (Topic_synced_forum _ _ _ _ Hsync Hwf) as (f & fr & Hf & Hfid & Hfr).
  destruct Hsync as (Ht & Hrt & Hsfid).
  destruct (Post_save_spec now self db topic t rt f fr fr old)
    as (topic3 & f' & db2 & Hrc & _ & _ & _ & _ & Hsame & Heq);
    try done; [by rewrite Hfid|].
  destruct (Hsame Hfid) as [-> ->]. clear Hsame.
  cbv zeta in Hrc, Heq. rewrite Heq in Hsave. clear Heq.
  set (db1 := Post_store now self t db) in *.
  set (topic2 := Topic_auto_clear _ _ _) in *.
  set (db2 := Topic_store t topic3 db1) in *.
  set (db3 := Forum_store (Forum_recount f db2) db2) in *.
  assert (Topic_id topic2 = Some t) as Ht2.
  { unfold topic2. by rewrite Topic_auto_clear_id, Topic_head_eval_id. }
  assert (Topic_forum_id topic2 = tr_forum_id rt) as Hfid2.
  { unfold Topic_forum_id, topic2 in *.
    by rewrite Topic_auto_clear_forum, Topic_head_eval_forum. }
  destruct (Topic_recount_on_moderation _ _ _ Hrc) as (_ & Hid3 & Hfor3).
  assert (Topic_forum_id topic3 = tr_forum_id rt) as Hfid3.
  { unfold Topic_forum_id in *. by rewrite Hfor3. }
  pose proof (ok_except_Post_store now self t rt old db Hrt Hold Hwf Hok) as Hok1.
  fold db1 in Hok1.
  pose proof (db_wf_Post_store now self t rt db Hrt Hwf) as Hwf1. fold db1 in Hwf1.
  pose proof (ok_except_Topic_store _ _ db1 topic2 topic3 t rt Ht2 Hrt Hfid2
                Hrc Hok1) as Hok2. fold db2 in Hok2.
  pose proof (db_wf_Topic_store db1 t topic3 rt Hrt Hfid3 Hwf1) as Hwf2.
  fold db2 in Hwf2.
  pose proof (ok_except_Forum_store _ _ db2 f Hok2) as Hok3. fold db3 in Hok3.
  pose proof (db_wf_Forum_store db2 (Forum_recount f db2) Hwf2) as Hwf3.
  fold db3 in Hwf3.
  rewrite Hfid in Hok3.
  destruct Hold as [Hnew | pk r_old rt_old Hpk Hr_old Hrt_old [fr_old Hfr_old]].
  { injection Hsave as _ <-. split; [done|]. apply ok_except_empty.
    eapply ok_except_weaken; [| |exact Hok3]; simpl; set_unfold; lia. }
  destruct (decide (pr_topic_id r_old = t)) as [Heqt|Hnet].
  { rewrite bool_decide_true in Hsave by done. injection Hsave as _ <-.
    split; [done|]. apply ok_except_empty.
    assert (rt_old = rt) as -> by congruence.
    eapply ok_except_weaken; [| |exact Hok3]; simpl; set_unfold; lia. }
  rewrite bool_decide_false in Hsave by done.
  set (t_old := pr_topic_id r_old) in *.
  assert (rows (topics db3) !! t_old = Some rt_old) as Hrt_old3.
  { unfold db3, Forum_store, db2, Topic_store.
    cbn [topics set_forums set_topics tbl_update rows].
    by rewrite lookup_insert_ne. }
  assert (is_Some (rows (forums db3) !! tr_forum_id rt_old)) as [fr3 Hfr3].
  { apply forums_kept_Forum_store. eauto. }
  rewrite (Post_save_old_counters_eq now _ db3 t_old rt_old
             (Forum_of_row (tr_forum_id rt_old) fr3) fr3) in Hsave; try done.
  2:{ unfold Topic_forum_resolved. cbn [Topic_forum Topic_of_row].
      by rewrite Hfr3. }
  destruct (Topic_recount (Topic_of_row t_old rt_old) db3) as [old1|] eqn:Hrc_old;
    [|done].
  injection Hsave as _ <-.
  destruct (Topic_recount_on_moderation _ _ _ Hrc_old) as (_ & _ & Hfor_old).
  pose proof (ok_except_Topic_store _ _ db3 (Topic_of_row t_old rt_old) old1
                t_old rt_old eq_refl Hrt_old3 eq_refl Hrc_old Hok3) as Hok4.
  assert (Topic_forum_id old1 = tr_forum_id rt_old) as Hfid_old.
  { unfold Topic_forum_id. by rewrite Hfor_old. }
  pose proof (db_wf_Topic_store db3 t_old old1 rt_old Hrt_old3 Hfid_old Hwf3)
    as Hwf4.
  set (db4 := Topic_store t_old old1 db3) in *.
  pose proof (ok_except_Forum_store _ _ db4
                (Forum_of_row (tr_forum_id rt_old) fr3) Hok4) as Hok5.
  split; [by apply db_wf_Forum_store|]. apply ok_except_empty.
  eapply ok_except_weaken; [| |exact Hok5]; simpl; set_unfold; lia.
Qed.

(** [Topic.delete] keeps the store well formed and the counters right. *)
Lemma Topic_delete_preserves self db t rt db' :
  Topic_synced self t rt db →
  db_wf db → counters_ok db →
  Topic_delete self db = (Ok tt, db') →
  db_wf db' ∧ counters_ok db'.
Proof.
  intros Hsync Hwf Hok Hdel.
  destruct (Topic_synced_forum _ _ _ _ Hsync Hwf) as (f & fr & Hf & Hfid & Hfr).
  destruct Hsync as (Ht & Hrt & Hsfid).
  rewrite (Topic_delete_eq self db t f) in Hdel by done.
  cbv zeta in Hdel. injection Hdel as <-.
  split; [by apply db_wf_Forum_store, db_wf_Topic_cascade|].
  apply ok_except_empty.
  pose proof (ok_except_Forum_store _ _ _ f
                (ok_except_Topic_cascade t rt db Hrt Hok)) as Hok2.
  eapply ok_except_weaken; [| |exact Hok2]; set_unfold; lia.
Qed.

(** [Post.delete] keeps the store well formed and the counters right. *)
Lemma Post_delete_preserves now self db pk r topic rt db' :
  Post_id self = Some pk →
  rows (posts db) !! pk = Some r →
  Post_topic_resolved self db = Some topic →
  Topic_synced topic (pr_topic_id r) rt db →
  db_wf db → counters_ok db →
  Post_delete now self db = (Ok tt, db') →
  db_wf db' ∧ counters_ok db'.
Proof.
  intros Hpk Hr Htopic Hsync Hwf Hok Hdel.
  destruct (Topic_synced_forum _ _ _ _ Hsync Hwf) as (f & fr & Hf & Hfid & Hfr).
  pose proof Hsync as (Ht & Hrt & Hsfid).
  set (t := pr_topic_id r) in *.
  assert ((pk, r) ∈ Topic_posts topic db) as Hin.
  { unfold Topic_posts. rewrite Ht. by apply elem_of_topic_posts. }
  destruct (head (order_by_created_id (Topic_posts topic db))) as [h|] eqn:Hh.
  2:{ apply head_order_asc_None in Hh. rewrite Hh in Hin.
      by apply not_elem_of_nil in Hin. }
  rewrite (Post_delete_unfold now self db topic h) in Hdel by done.
  rewrite Hpk in Hdel. case_bool_decide as Hhead.
  { by eapply Topic_delete_preserves. }
  set (db1 := Post_store_delete pk db) in *.
  destruct (Topic_recount topic db1) as [topic1|] eqn:Hrc.
  2:{ rewrite (bind_raise _ _ _ IndexError db1) in Hdel; [done|].
      by rewrite Topic_update_counters_unfold, Hrc. }
  rewrite (bind_ok _ _ _ (Topic_set_forum (Loaded f) topic1)
             (Topic_store t topic1 db1)) in Hdel.
  2:{ apply (Topic_update_counters_synced _ _ _ db1 t rt f); eauto. }
  rewrite (bind_ok _ _ _ (f, Topic_set_forum (Loaded f) topic1)
             (Topic_store t topic1 db1)) in Hdel.
  2:{ rewrite (Topic_get_forum_eq _ _ f); [|done]. by destruct topic1. }
  cbn beta iota in Hdel.
  rewrite (bind_ok _ _ _ _ _ (Forum_update_counters_eq _ _)) in Hdel.
  injection Hdel as <-.
  destruct (Topic_recount_on_moderation _ _ _ Hrc) as (_ & _ & Hfor1).
  assert (Topic_forum_id topic1 = tr_forum_id rt) as Hfid1.
  { unfold Topic_forum_id in *. by rewrite Hfor1. }
  pose proof (ok_except_Post_store_delete pk r rt db Hr Hrt Hok) as Hok1.
  pose proof (ok_except_Topic_store _ _ db1 topic topic1 t rt Ht Hrt Hsfid
                Hrc Hok1) as Hok2.
  pose proof (ok_except_Forum_store _ _ _ f Hok2) as Hok3.
  split.
  - apply db_wf_Forum_store, (db_wf_Topic_store _ _ _ rt); [done..|].
    by apply db_wf_Post_store_delete.
  - apply ok_except_empty.
    eapply ok_except_weaken; [| |exact Hok3]; set_unfold; lia.
Qed.

(** *** Sequences of operations *)

(** The operations of the claim, as a caller performs them: the
    instances are read from the store, the new attribute values are
    assigned, and the method is called. *)
Inductive Op : Type :=
  | PostCreate (now topic_id : Z) (created updated : option Z)
               (on_moderation : bool)
  | PostUpdate (now post_id topic_id created : Z) (updated : option Z)
               (on_moderation : bool)
  | PostDelete (now post_id : Z)
  | TopicDelete (topic_id : Z).

Definition run_op (o : Op) : M DB unit :=
  match o with
  | PostCreate now topic_id created updated on_moderation =>
      topic ← Topic_objects_get topic_id;
      Post_save now (mkPost None (Loaded topic) created updated on_moderation);;
      mret tt
  | PostUpdate now post_id topic_id created updated on_moderation =>
      post ← Post_objects_get post_id;
      topic ← Topic_objects_get topic_id;
      Post_save now (mkPost (Post_id post) (Loaded topic) (Some created)
                            updated on_moderation);;
      mret tt
  | PostDelete now post_id =>
      post ← Post_objects_get post_id;
      Post_delete now post
  | TopicDelete topic_id =>
      topic ← Topic_objects_get topic_id;
      Topic_delete topic
  end.

(** One completed operation, and a sequence of completed operations. *)
Definition step (db : DB) (o : Op) (db' : DB) : Prop :=
  run_op o db = (Ok tt, db').

Inductive steps : DB → list Op → DB → Prop :=
  | steps_nil db : steps db [] db
  | steps_cons db o db1 ops db' :
      step db o db1 → steps db1 ops db' → steps db (o :: ops) db'.

Lemma step_preserves db o db' :
  db_wf db → counters_ok db → step db o db' → db_wf db' ∧ counters_ok db'.
Proof.
  intros Hwf Hok Hstep. unfold step in Hstep.
  destruct o as [now tid created updated om | now pid tid created updated om
                | now pid | tid]; unfold run_op in Hstep.
  - destruct (rows (topics db) !! tid) as [rt|] eqn:Hrt.
    2:{ by rewrite (bind_raise _ _ _ _ _ (Topic_objects_get_None _ _ Hrt))
          in Hstep. }
    rewrite (bind_ok _ _ _ _ _ (Topic_objects_get_Some _ _ _ Hrt)) in Hstep.
    apply bind_ok_inv in Hstep as (self' & db1 & Hsave & Hret).
    injection Hret as <-.
    refine (Post_save_preserves now _ db (Topic_of_row tid rt) tid rt None
              self' db1 _ _ _ Hwf Hok Hsave);
      [done|by apply Topic_synced_of_row|by apply Post_persisted_new].
  - destruct (rows (posts db) !! pid) as [r|] eqn:Hr.
    2:{ by rewrite (bind_raise _ _ _ _ _ (Post_objects_get_None _ _ Hr))
          in Hstep. }
    rewrite (bind_ok _ _ _ _ _ (Post_objects_get_Some _ _ _ Hr)) in Hstep.
    destruct (rows (topics db) !! tid) as [rt|] eqn:Hrt.
    2:{ by rewrite (bind_raise _ _ _ _ _ (Topic_objects_get_None _ _ Hrt))
          in Hstep. }
    rewrite (bind_ok _ _ _ _ _ (Topic_objects_get_Some _ _ _ Hrt)) in Hstep.
    apply bind_ok_inv in Hstep as (self' & db1 & Hsave & Hret).
    injection Hret as <-.
    pose proof Hwf as (Ha & Hb & _).
    destruct (Ha pid r Hr) as [rt_old Hrt_old]. simpl in Hrt_old.
    refine (Post_save_preserves now _ db (Topic_of_row tid rt) tid rt
              (Some (pr_topic_id r, rt_old)) self' db1 _ _ _ Hwf Hok Hsave);
      [done|by apply Topic_synced_of_row|].
    apply (Post_persisted_old _ _ pid r rt_old); [done..|].
    by apply (Hb (pr_topic_id r) rt_old).
  - destruct (rows (posts db) !! pid) as [r|] eqn:Hr.
    2:{ by rewrite (bind_raise _ _ _ _ _ (Post_objects_get_None _ _ Hr))
          in Hstep. }
    rewrite (bind_ok _ _ _ _ _ (Post_objects_get_Some _ _ _ Hr)) in Hstep.
    pose proof Hwf as (Ha & _ & _).
    destruct (Ha pid r Hr) as [rt Hrt]. simpl in Hrt.
    refine (Post_delete_preserves now (Post_of_row pid r) db pid r
              (Topic_of_row (pr_topic_id r) rt) rt db' eq_refl Hr _ _
              Hwf Hok Hstep); [|done].
    unfold Post_topic_resolved. cbn [Post_topic Post_of_row]. by rewrite Hrt.
  - destruct (rows (topics db) !! tid) as [rt|] eqn:Hrt.
    2:{ by rewrite (bind_raise _ _ _ _ _ (Topic_objects_get_None _ _ Hrt))
          in Hstep. }
    rewrite (bind_ok _ _ _ _ _ (Topic_objects_get_Some _ _ _ Hrt)) in Hstep.
    by apply (Topic_delete_preserves (Topic_of_row tid rt) db tid rt db').
Qed.

(** C1.  From a well-formed store whose counters are right, after every
    sequence of post creations, post saves (moves included), post
    deletions and topic deletions, each made on instances read from the
    store and each completed (none raises), the [post_count] of every
    stored topic is the number of posts of the topic and the [post_count]
    of every stored forum is the number of posts in the topics of the
    forum (and the store is still well formed).  The sequences are the
    relation [steps]: a prefix of such a sequence is one, so this holds
    after each operation. *)
Theorem C1_counter_convergence (db : DB) (ops : list Op) (db' : DB) :
  db_wf db → counters_ok db → steps db ops db' →
  db_wf db' ∧ counters_ok db'.
Proof.
  intros Hwf Hok Hsteps. induction Hsteps as [db | db o db1 ops db' Hstep _ IH].
  - done.
  - destruct (step_preserves db o db1 Hwf Hok Hstep) as [Hwf1 Hok1]. auto.
Qed.

(** The same sequences, run as a function: [None] when an operation
    raises. *)
Fixpoint run_ops (ops : list Op) (db : DB) : option DB :=
  match ops with
  | [] => Some db
  | o :: ops =>
      match run_op o db with
      | (Ok _, db1) => run_ops ops db1
      | (Raise _, _) => None
      end
  end.

Lemma run_ops_steps ops db db' :
  run_ops ops db = Some db' ↔ steps db ops db'.
Proof.
  revert db. induction ops as [|o ops IH]; intros db; simpl.
  - split; [intros [= <-]; constructor | by inversion 1].
  - split.
    + destruct (run_op o db) as [[[]|e] db1] eqn:Hop; [|done].
      intros Hrun. apply (steps_cons _ _ db1); [done|by apply IH].
    + inversion 1 as [|? ? db1 ? ? Hstep Hrest]; subst.
      unfold step in Hstep. rewrite Hstep. by apply IH.
Qed.

Definition c1_ops : list Op :=
  [PostCreate 20 2 None None false;
   PostUpdate 21 4 1 13 (Some 21) false;
   PostDelete 22 2;
   PostDelete 23 5;
   TopicDelete 1].

Lemma C1_counter_convergence_witness :
  ∃ db', steps demo_db c1_ops db' ∧ db_wf db' ∧ counters_ok db'.
Proof.
  assert (∃ db', run_ops c1_ops demo_db = Some db') as [db' Hrun].
  { vm_compute. eexists. reflexivity. }
  apply run_ops_steps in Hrun. exists db'. split; [exact Hrun|].
  apply (C1_counter_convergence demo_db c1_ops db');
    [apply demo_ok | apply demo_ok | exact Hrun].
Defined.

(** When the caller runs each operation in a transaction and an
    exception rolls it back, the invariant holds after every operation of
    every sequence, completed or not. *)
Definition run_atomic (o : Op) (db : DB) : DB :=
  match run_op o db with
  | (Ok _, db') => db'
  | (Raise _, _) => db
  end.

Lemma run_atomic_preserves db o :
  db_wf db → counters_ok db →
  db_wf (run_atomic o db) ∧ counters_ok (run_atomic o db).
Proof.
  intros Hwf Hok. unfold run_atomic.
  destruct (run_op o db) as [[[]|e] db'] eqn:Hop; [|done].
  by apply (step_preserves db o db').
Qed.

Fixpoint atomic_trace (db : DB) (ops : list Op) : list DB :=
  match ops with
  | [] => [db]
  | o :: ops => db :: atomic_trace (run_atomic o db) ops
  end.

Lemma run_atomic_trace db ops :
  db_wf db → counters_ok db →
  Forall (λ d, db_wf d ∧ counters_ok d) (atomic_trace db ops).
Proof.
  revert db. induction ops as [|o ops IH]; intros db Hwf Hok; simpl.
  - by apply Forall_singleton.
  - apply Forall_cons. split; [done|].
    destruct (run_atomic_preserves db o Hwf Hok). by apply IH.
Qed.

(** Without a rollback, a save that raises leaves its writes behind:
    moving the only post of topic 2 into topic 1 raises [IndexError] when
    the counters of topic 2 are recomputed, after the post was moved, and
    topic 2 keeps [post_count = 1] with no post left. *)
Example move_out_last_post_partial :
  ∃ db',
    run_op (PostUpdate 21 4 1 13 None false) demo_db = (Raise IndexError, db') ∧
    tr_post_count <$> rows (topics db') !! 2 = Some 1 ∧
    Post_objects_filter_topic_id (Some 2) db' = [] ∧
    ¬ counters_ok db'.
Proof.
  eexists. split; [vm_compute; reflexivity|].
  split; [vm_compute; reflexivity|]. split; [vm_compute; reflexivity|].
  refine (bool_decide_unpack (¬ counters_ok _) _). vm_compute. exact I.
Qed.

(** Nor does a later operation that completes repair it.  From a
    well-formed store with right counters, the move of post 4, the only
    post of topic 2, into topic 1 raises [IndexError]; the creation of a
    post in topic 1 that follows completes; and after it topic 2 still
    has [post_count = 1] and no post.  So the counters are not right
    after each completed operation of any sequence: the operations before
    it have to complete as well. *)
Lemma C1_counterexample :
  db_wf demo_db ∧ counters_ok demo_db ∧
  ∃ db1 db2,
    run_op (PostUpdate 21 4 1 13 None false) demo_db = (Raise IndexError, db1) ∧
    run_op (PostCreate 22 1 None None false) db1 = (Ok tt, db2) ∧
    tr_post_count <$> rows (topics db2) !! 2 = Some 1 ∧
    Post_objects_filter_topic_id (Some 2) db2 = [] ∧
    ¬ counters_ok db2.
Proof.
  split; [apply demo_ok|]. split; [apply demo_ok|].
  eexists _, _. split; [vm_compute; reflexivity|].
  split; [vm_compute; reflexivity|].
  split; [vm_compute; reflexivity|]. split; [vm_compute; reflexivity|].
  refine (bool_decide_unpack (¬ counters_ok _) _). vm_compute. exact I.
Qed.

(** ** Read trackers: get or create (claim C8) *)

(** [unique_together] as a property of the table: two rows with the same
    user and the same topic (or forum), not null, are one row. *)
Definition tracker_unique (k : TrackerModel) (db : DB) : Prop :=
  map_Forall (λ pk1 r1,
    map_Forall (λ pk2 r2,
      trk_user_id r1 = trk_user_id r2 →
      trk_target_id r1 = trk_target_id r2 →
      is_Some (trk_target_id r1) →
      pk1 = pk2) (rows (tracker_table k db))) (rows (tracker_table k db)).

Global Instance tracker_unique_dec k db : Decision (tracker_unique k db).
Proof. unfold tracker_unique. apply _. Defined.

Lemma NoDup_singleton_of {A} (l : list A) (x : A) :
  NoDup l → x ∈ l → (∀ y, y ∈ l → y = x) → l = [x].
Proof.
  intros Hnd Hx Hall. destruct l as [|a l]; [by apply not_elem_of_nil in Hx|].
  assert (a = x) as -> by (apply Hall; left).
  destruct l as [|b l]; [done|].
  assert (b = x) as -> by (apply Hall; right; left).
  apply NoDup_cons in Hnd as [Hnin _]. exfalso. apply Hnin. left.
Qed.

Lemma Tracker_objects_get_unique k user target db pk r :
  tracker_unique k db →
  (pk, r) ∈ tracker_conflicts k user target db →
  Tracker_objects_get k user target db = (Ok (Tracker_of_row pk r), db).
Proof.
  intros Huniq Hin. unfold Tracker_objects_get.
  apply elem_of_tbl_filter in Hin as [Hrow (Huser & Htarget & Hsome)].
  simpl in *.
  rewrite (NoDup_singleton_of _ (pk, r)); [done|apply NoDup_tbl_filter| |].
  - by apply elem_of_tbl_filter.
  - intros [pk' r'] Hin'. apply elem_of_tbl_filter in Hin' as [Hrow' [Hu' Ht']].
    simpl in *.
    assert (pk' = pk) as ->.
    { apply (Huniq pk' r' Hrow' pk r Hrow); [congruence..|].
      by rewrite Ht'. }
    congruence.
Qed.

Section try_except_facts.
Context {S A : Type}.
Implicit Types (body : M S A) (handles : Exc → bool) (handler : Exc → M S A).

Lemma try_except_ok body handles handler s a s' :
  body s = (Ok a, s') → try_except body handles handler s = (Ok a, s').
Proof. intros Hb. unfold try_except. by rewrite Hb. Qed.

Lemma try_except_caught body handles handler s e s' :
  body s = (Raise e, s') → handles e = true →
  try_except body handles handler s = handler e s'.
Proof. intros Hb Hh. unfold try_except. by rewrite Hb, Hh. Qed.

End try_except_facts.

Lemma Tracker_objects_create_new k now user target db :
  tracker_conflicts k user target db = [] →
  tracker_target_exists k db <$> target ≠ Some false →
  Tracker_objects_create k now user target db =
  (Ok (Tracker_of_row (next_id (tracker_table k db))
                      (mkTrackerRow user target now)),
   set_tracker_table k
     (tbl_insert (mkTrackerRow user target now) (tracker_table k db)).2 db).
Proof.
  intros Hnone Hfk. unfold Tracker_objects_create.
  rewrite Hnone, bool_decide_false by (by intros ?).
  by rewrite bool_decide_false by done.
Qed.

Lemma Tracker_objects_create_conflict k now user target db :
  tracker_conflicts k user target db ≠ [] →
  Tracker_objects_create k now user target db = (Raise IntegrityError, db).
Proof.
  intros Hsome. unfold Tracker_objects_create.
  by rewrite bool_decide_true by done.
Qed.

Lemma savepoint_lookup_top sid db sps :
  savepoint_lookup sid ((sid, db) :: sps) = Some (db, sps).
Proof. simpl. by rewrite decide_True. Qed.

(** The insert in its atomic block, when it succeeds: the savepoint of
    the block is released. *)
Lemma atomic_create_new k now user target db sps sid :
  tracker_conflicts k user target db = [] →
  tracker_target_exists k db <$> target ≠ Some false →
  get_atomic_func (execute (Tracker_objects_create k now user target))
                  (mkConnection db sps sid false) =
  (Ok (Tracker_of_row (next_id (tracker_table k db))
                      (mkTrackerRow user target now)),
   mkConnection
     (set_tracker_table k
        (tbl_insert (mkTrackerRow user target now) (tracker_table k db)).2 db)
     sps (sid + 1) false).
Proof.
  intros Hnone Hfk. unfold get_atomic_func.
  mok reflexivity.
  apply try_except_ok.
  erewrite bind_ok; cycle 1.
  { unfold execute. cbn [conn_errored conn_db conn_savepoints conn_next_sid].
    by rewrite Tracker_objects_create_new. }
  cbn beta.
  erewrite bind_ok; cycle 1.
  { unfold transaction_savepoint_commit.
    cbn [conn_errored conn_db conn_savepoints conn_next_sid].
    by rewrite savepoint_lookup_top. }
  reflexivity.
Qed.

(** The insert in its atomic block, when the row exists: the statement
    fails, the block is rolled back and the exception leaves it. *)
Lemma atomic_create_conflict k now user target db sps sid :
  tracker_conflicts k user target db ≠ [] →
  get_atomic_func (execute (Tracker_objects_create k now user target))
                  (mkConnection db sps sid false) =
  (Raise IntegrityError, mkConnection db sps (sid + 1) false).
Proof.
  intros Hsome. unfold get_atomic_func.
  mok reflexivity.
  erewrite try_except_caught; cycle 1.
  { erewrite bind_raise; [reflexivity|].
    unfold execute. cbn [conn_errored conn_db conn_savepoints conn_next_sid].
    by rewrite Tracker_objects_create_conflict. }
  { reflexivity. }
  cbn [is_DatabaseError].
  erewrite bind_ok; cycle 1.
  { unfold transaction_savepoint_rollback.
    cbn [conn_errored conn_db conn_savepoints conn_next_sid].
    by rewrite savepoint_lookup_top. }
  cbn beta.
  erewrite bind_ok; cycle 1.
  { unfold transaction_savepoint_commit.
    cbn [conn_errored conn_db conn_savepoints conn_next_sid].
    by rewrite savepoint_lookup_top. }
  reflexivity.
Qed.

Lemma get_or_create_tracker_unfold k now user target :
  get_or_create_tracker k now user target =
  (sid ← transaction_savepoint;
   try_except
     (obj ← get_atomic_func
               (execute (Tracker_objects_create k now user target));
      transaction_savepoint_commit sid;;
      mret (obj, true))
     is_DatabaseError
     (λ _,
      transaction_savepoint_rollback sid;;
      obj ← execute (Tracker_objects_get k user target);
      mret (obj, false))).
Proof. by destruct k. Qed.

(** C8.  Inside a transaction, for a user and a stored topic or forum (or
    none), with the uniqueness constraint of the table in force: when no
    tracker of the pair exists, the insert succeeds, the savepoint is
    released and the new tracker is returned with [True]; when one
    exists, the insert fails with an [IntegrityError], the store is
    rolled back to the savepoint, which leaves it as it was before the
    call, and the existing tracker is read and returned with [False].  No
    exception reaches the caller, and the transaction is usable
    afterwards. *)
Theorem C8_get_or_create_tracker (k : TrackerModel) (now user : Z)
    (target : option Z) (c : Connection) :
  conn_errored c = false →
  tracker_target_exists k (conn_db c) <$> target ≠ Some false →
  tracker_unique k (conn_db c) →
  let db := conn_db c in
  let sid := conn_next_sid c in
  let r := mkTrackerRow user target now in
  (tracker_conflicts k user target db = [] →
   get_or_create_tracker k now user target c =
   (Ok (Tracker_of_row (next_id (tracker_table k db)) r, true),
    mkConnection
      (set_tracker_table k (tbl_insert r (tracker_table k db)).2 db)
      (conn_savepoints c) (sid + 2) false)) ∧
  (∀ pk r', (pk, r') ∈ tracker_conflicts k user target db →
   get_or_create_tracker k now user target c =
   (Ok (Tracker_of_row pk r', false),
    mkConnection db ((sid, db) :: conn_savepoints c) (sid + 2) false)).
Proof.
  intros Herr Hfk Huniq db sid r.
  rewrite get_or_create_tracker_unfold.
  destruct c as [db0 sps sid0 err].
  cbn [conn_errored conn_db conn_savepoints conn_next_sid] in *.
  subst err db sid r.
  replace (sid0 + 2) with (sid0 + 1 + 1) by lia.
  split.
  - intros Hnone.
    mok reflexivity.
    cbn [conn_errored conn_db conn_savepoints conn_next_sid].
    apply try_except_ok.
    erewrite bind_ok by (by apply atomic_create_new).
    cbn beta.
    erewrite bind_ok; cycle 1.
    { unfold transaction_savepoint_commit.
      cbn [conn_errored conn_db conn_savepoints conn_next_sid].
      by rewrite savepoint_lookup_top. }
    reflexivity.
  - intros pk r' Hin.
    assert (tracker_conflicts k user target db0 ≠ []) as Hsome.
    { intros Hnil. rewrite Hnil in Hin. by apply not_elem_of_nil in Hin. }
    mok reflexivity.
    cbn [conn_errored conn_db conn_savepoints conn_next_sid].
    erewrite try_except_caught; cycle 1.
    { erewrite bind_raise; [reflexivity|]. by apply atomic_create_conflict. }
    { reflexivity. }
    erewrite bind_ok; cycle 1.
    { unfold transaction_savepoint_rollback.
      cbn [conn_errored conn_db conn_savepoints conn_next_sid].
      by rewrite savepoint_lookup_top. }
    cbn beta.
    erewrite bind_ok; cycle 1.
    { unfold execute. cbn [conn_errored conn_db conn_savepoints conn_next_sid].
      by rewrite (Tracker_objects_get_unique k user target db0 pk r'). }
    reflexivity.
Qed.

(** A transaction with no savepoint yet, over the demonstration store
    with one topic read tracker: user 7 has read topic 1 at time 15. *)
Definition trk_db : DB :=
  set_topic_read_trackers
    (mkTable {[1 := mkTrackerRow 7 (Some 1) 15]} 2) demo_db.

Definition trk_conn : Connection := mkConnection trk_db [] 1 false.

Lemma C8_get_or_create_tracker_witness :
  get_or_create_tracker TopicReadTracker 20 7 (Some 1) trk_conn =
  (Ok (mkTracker 1 7 (Some 1) 15, false),
   mkConnection trk_db [(1, trk_db)] 3 false).
Proof.
  refine (proj2 (C8_get_or_create_tracker TopicReadTracker 20 7 (Some 1)
                   trk_conn _ _ _) 1 (mkTrackerRow 7 (Some 1) 15) _).
  - reflexivity.
  - vm_compute. discriminate.
  - refine (bool_decide_unpack _ _). vm_compute. exact I.
  - apply elem_of_tbl_filter. vm_compute. eauto.
Defined.

(** The other case on the same store: user 7 has no tracker for topic 2. *)
Example get_or_create_tracker_new :
  get_or_create_tracker TopicReadTracker 20 7 (Some 2) trk_conn =
  (Ok (mkTracker 2 7 (Some 2) 20, true),
   mkConnection
     (set_topic_read_trackers
        (mkTable {[1 := mkTrackerRow 7 (Some 1) 15;
                   2 := mkTrackerRow 7 (Some 2) 20]} 3) demo_db)
     [] 3 false).
Proof. vm_compute. reflexivity. Qed.

(** A topic that is not stored: the insert fails on the foreign key, and
    the lookup in the handler finds no row. *)
Example get_or_create_tracker_missing_target :
  (get_or_create_tracker TopicReadTracker 20 7 (Some 9) trk_conn).1 =
  Raise DoesNotExist.
Proof. vm_compute. reflexivity. Qed.

(** ** Votes of a poll *)

(** A store with two topics: topic 1 has a single-choice poll with
    answers 1 (three votes) and 2 (one vote); topic 2 has no poll and one
    answer left over, 3. *)
Definition poll_db : DB :=
  mkDB (mkTable {[1 := mkForumRow None 0 1]} 2)
       (mkTable {[1 := mkTopicRow 1 (Some 5) None 0 false POLL_TYPE_SINGLE;
                  2 := mkTopicRow 1 (Some 6) None 0 false POLL_TYPE_NONE]} 3)
       empty_table
       (mkTable {[1 := mkPollAnswerRow 1; 2 := mkPollAnswerRow 1;
                  3 := mkPollAnswerRow 2]} 4)
       (mkTable {[1 := mkPollAnswerUserRow 1 10;
                  2 := mkPollAnswerUserRow 1 11;
                  3 := mkPollAnswerUserRow 1 12;
                  4 := mkPollAnswerUserRow 2 13]} 5)
       empty_table empty_table.

(** ** Counting a join *)

Section join_count.
Context {C : Type} (key : C → Z) (children : gmap Z C).

(** The rows whose key is one of [ps], counted key by key. *)
Lemma size_filter_key_in (ps : list Z) :
  NoDup ps →
  size (filter (λ c, key c.2 ∈ ps) children)
  = sum_list_with (λ p, size (filter (λ c, key c.2 = p) children)) ps.
Proof.
  induction 1 as [|p ps Hp Hnd IH]; simpl.
  - apply map_size_empty_iff, map_empty. intros i.
    apply map_lookup_filter_None. right. intros c _ Hin.
    by apply not_elem_of_nil in Hin.
  - rewrite <- IH.
    assert (filter (λ c : Z * C, key c.2 ∈ p :: ps) children
            = filter (λ c, key c.2 = p) children
              ∪ filter (λ c, key c.2 ∈ ps) children) as ->.
    { rewrite <- map_filter_or. apply map_filter_ext. intros i c _. simpl.
      by rewrite elem_of_cons. }
    apply map_size_disj_union. apply map_disjoint_spec.
    intros i c1 c2 H1 H2.
    apply map_lookup_filter_Some in H1 as [H1 Hk1].
    apply map_lookup_filter_Some in H2 as [H2 Hk2].
    simplify_eq/=. done.
Qed.
End join_count.

Lemma sum_list_with_fmap {A B} (f : B → nat) (g : A → B) (l : list A) :
  sum_list_with f (g <$> l) = sum_list_with (f ∘ g) l.
Proof. induction l as [|x l IH]; csimpl; [done|]. by f_equal. Qed.

Lemma sum_list_with_ext {A} (f g : A → nat) (l : list A) :
  (∀ x, f x = g x) → sum_list_with f l = sum_list_with g l.
Proof. intros Hfg. induction l as [|x l IH]; csimpl; [done|]. by rewrite Hfg, IH. Qed.

(** Following the words of the claim: the total vote count over all the
    answers of a topic, the sum of the votes of each answer. *)
Definition total_topic_votes (tid : Z) (db : DB) : Z :=
  Z.of_nat
    (sum_list_with
       (λ a, length (PollAnswer_users (PollAnswer_of_row a.1 a.2) db))
       (tbl_filter (λ a, par_topic_id a.2 = tid) (poll_answers db))).

Lemma poll_votes_total tid db :
  count (PollAnswerUser_objects_filter_poll_answer__topic (Some tid) db)
  = total_topic_votes tid db.
Proof.
  unfold total_topic_votes, PollAnswerUser_objects_filter_poll_answer__topic.
  rewrite count_tbl_filter. f_equal.
  set (answers := tbl_filter (λ a, par_topic_id a.2 = tid) (poll_answers db)).
  assert (filter
            (λ u : Z * PollAnswerUserRow,
               par_topic_id <$> rows (poll_answers db) !! paur_poll_answer_id u.2
               = Some tid) (rows (poll_answer_users db))
          = filter (λ u, paur_poll_answer_id u.2 ∈ answers.*1)
                   (rows (poll_answer_users db))) as ->.
  { apply map_filter_ext. intros i u _. simpl. rewrite list_elem_of_fmap.
    split.
    - destruct (rows (poll_answers db) !! paur_poll_answer_id u) as [ar|] eqn:Ha;
        [|done].
      simpl. intros [= Htid]. exists (paur_poll_answer_id u, ar).
      split; [done|]. by apply elem_of_tbl_filter.
    - intros ([a ar] & -> & Hin). apply elem_of_tbl_filter in Hin as [Ha Htid].
      simpl in *. by rewrite Ha, <- Htid. }
  rewrite size_filter_key_in.
  2:{ unfold answers, tbl_filter. apply NoDup_fst_map_to_list. }
  rewrite sum_list_with_fmap. apply sum_list_with_ext. intros [a ar]. simpl.
  unfold PollAnswer_users, tbl_filter. simpl. by rewrite length_map_to_list.
Qed.

(** ** Poll percentages (claims C9 and C10) *)

Definition PollAnswer_topic_resolved (self : PollAnswer) (db : DB) : option Topic :=
  match PollAnswer_topic self with
  | Loaded topic => Some topic
  | Unloaded id => Topic_of_row id <$> rows (topics db) !! id
  end.

Lemma PollAnswer_get_topic_eq self db topic :
  PollAnswer_topic_resolved self db = Some topic →
  PollAnswer_get_topic self db
  = (Ok (topic, PollAnswer_set_topic (Loaded topic) self), db).
Proof.
  unfold PollAnswer_topic_resolved, PollAnswer_get_topic.
  destruct self as [i [ti|g]]; simpl.
  - destruct (rows (topics db) !! ti) as [r|] eqn:E; simpl; [|done].
    intros [= <-]. by mok (by apply Topic_objects_get_Some).
  - by intros [= ->].
Qed.

Lemma Topic_poll_votes_poll self db t :
  Topic_id self = Some t →
  Topic_poll_type self ≠ POLL_TYPE_NONE →
  Topic_poll_votes self db = (Ok (PyInt (total_topic_votes t db)), db).
Proof.
  intros Ht Hpoll. unfold Topic_poll_votes.
  rewrite bool_decide_true by done. mok (apply gets_eq).
  by rewrite Ht, poll_votes_total.
Qed.

Lemma Topic_poll_votes_none self db :
  Topic_poll_type self = POLL_TYPE_NONE →
  Topic_poll_votes self db = (Ok PyNone, db).
Proof.
  intros Hpoll. unfold Topic_poll_votes.
  by rewrite bool_decide_false by (by intros ?).
Qed.

(** C9.  For an answer of a topic that has a poll: [votes] is the number
    of [PollAnswerUser] rows that refer to the answer; the total of the
    topic is the sum of the votes of its answers; and [votes_percent] is
    [1.0 * votes / total * 100], computed in double precision, when the
    total is positive, and the integer [0] when it is zero.  The
    interpreter version plays no role. *)
Theorem C9_votes_percent (v : PyVersion) (self : PollAnswer) (db : DB)
    (a : Z) (topic : Topic) (t : Z) :
  PollAnswer_id self = Some a →
  PollAnswer_topic_resolved self db = Some topic →
  Topic_id topic = Some t →
  Topic_poll_type topic ≠ POLL_TYPE_NONE →
  let votes :=
    Z.of_nat (size (filter (λ u, paur_poll_answer_id u.2 = a)
                      (rows (poll_answer_users db)))) in
  let total := total_topic_votes t db in
  PollAnswer_votes self db = (Ok votes, db) ∧
  Topic_poll_votes topic db = (Ok (PyInt total), db) ∧
  (0 < total →
   PollAnswer_votes_percent v self db
   = (Ok (PyFloat (1 * float_of_Z votes / float_of_Z total * 100)), db)) ∧
  (total = 0 →
   PollAnswer_votes_percent v self db = (Ok (PyInt 0), db)).
Proof.
  intros Ha Htopic Ht Hpoll votes total.
  assert (PollAnswer_votes self db = (Ok votes, db)) as Hvotes.
  { unfold PollAnswer_votes, PollAnswer_users. rewrite Ha.
    rewrite gets_eq. by rewrite count_tbl_filter. }
  assert (PollAnswer_votes (PollAnswer_set_topic (Loaded topic) self) db
          = (Ok votes, db)) as Hvotes' by done.
  pose proof (Topic_poll_votes_poll topic db t Ht Hpoll) as Htotal.
  fold total in Htotal.
  split; [done|]. split; [done|]. split.
  - intros Hpos. unfold PollAnswer_votes_percent.
    mok (by apply PollAnswer_get_topic_eq).
    mok (exact Htotal).
    mok (apply ret_eq). rewrite bool_decide_true by done.
    mok (exact Hvotes').
    mok (apply ret_eq).
    unfold py_float_div. rewrite bool_decide_false by lia.
    mok (apply ret_eq). mok (apply ret_eq). done.
  - intros Hzero. unfold PollAnswer_votes_percent.
    mok (by apply PollAnswer_get_topic_eq).
    mok (exact Htotal).
    mok (apply ret_eq). rewrite bool_decide_false by lia. done.
Qed.

(** The example of the claim: answers with 3 and 1 votes yield 75.0 and
    25.0. *)
Lemma C9_votes_percent_witness :
  PollAnswer_votes_percent Python3 (PollAnswer_of_row 1 (mkPollAnswerRow 1))
    poll_db = (Ok (PyFloat 75), poll_db) ∧
  PollAnswer_votes_percent Python3 (PollAnswer_of_row 2 (mkPollAnswerRow 1))
    poll_db = (Ok (PyFloat 25), poll_db).
Proof.
  split.
  - refine (eq_trans
      (proj1 (proj2 (proj2 (C9_votes_percent Python3
         (PollAnswer_of_row 1 (mkPollAnswerRow 1)) poll_db 1
         (Topic_of_row 1 (mkTopicRow 1 (Some 5) None 0 false POLL_TYPE_SINGLE))
         1 eq_refl eq_refl eq_refl _))) _) _).
    + vm_compute. discriminate.
    + vm_compute. reflexivity.
    + vm_compute. reflexivity.
  - refine (eq_trans
      (proj1 (proj2 (proj2 (C9_votes_percent Python3
         (PollAnswer_of_row 2 (mkPollAnswerRow 1)) poll_db 2
         (Topic_of_row 1 (mkTopicRow 1 (Some 5) None 0 false POLL_TYPE_SINGLE))
         1 eq_refl eq_refl eq_refl _))) _) _).
    + vm_compute. discriminate.
    + vm_compute. reflexivity.
    + vm_compute. reflexivity.
Defined.

(** C10.  For an answer whose topic has no poll, [poll_votes] returns
    [None] and [votes_percent] compares it with [0]: under Python 2 the
    test [None > 0] is false and [votes_percent] returns the integer [0]
    without raising; under Python 3 the test raises, and [votes_percent]
    fails with [TypeError].  Nothing is written in either case. *)
Theorem C10_votes_percent_no_poll (v : PyVersion) (self : PollAnswer)
    (db : DB) (topic : Topic) :
  PollAnswer_topic_resolved self db = Some topic →
  Topic_poll_type topic = POLL_TYPE_NONE →
  Topic_poll_votes topic db = (Ok PyNone, db) ∧
  PollAnswer_votes_percent v self db =
    match v with
    | Python2 => (Ok (PyInt 0), db)
    | Python3 => (Raise TypeError, db)
    end.
Proof.
  intros Htopic Hpoll.
  pose proof (Topic_poll_votes_none topic db Hpoll) as Hnone.
  split; [done|]. unfold PollAnswer_votes_percent.
  mok (by apply PollAnswer_get_topic_eq).
  mok (exact Hnone).
  destruct v.
  - by mok (apply ret_eq).
  - by mraise reflexivity.
Qed.

Lemma C10_votes_percent_no_poll_witness :
  Topic_poll_votes (Topic_of_row 2 (mkTopicRow 1 (Some 6) None 0 false POLL_TYPE_NONE))
    poll_db = (Ok PyNone, poll_db) ∧
  PollAnswer_votes_percent Python2 (PollAnswer_of_row 3 (mkPollAnswerRow 2))
    poll_db = (Ok (PyInt 0), poll_db).
Proof.
  apply (C10_votes_percent_no_poll Python2
           (PollAnswer_of_row 3 (mkPollAnswerRow 2)) poll_db
           (Topic_of_row 2 (mkTopicRow 1 (Some 6) None 0 false POLL_TYPE_NONE))).
  - vm_compute. reflexivity.
  - reflexivity.
Defined.

(** The claim as stated, for every interpreter the module runs on, fails:
    answer 3 belongs to topic 2, which has no poll, and under Python 3
    [votes_percent] does not return [0] but raises. *)
Lemma C10_counterexample :
  tr_poll_type <$> rows (topics poll_db) !! 2 = Some POLL_TYPE_NONE ∧
  par_topic_id <$> rows (poll_answers poll_db) !! 3 = Some 2 ∧
  PollAnswer_votes_percent Python3 (PollAnswer_of_row 3 (mkPollAnswerRow 2))
    poll_db = (Raise TypeError, poll_db) ∧
  PollAnswer_votes_percent Python3 (PollAnswer_of_row 3 (mkPollAnswerRow 2))
    poll_db ≠ (Ok (PyInt 0), poll_db).
Proof.
  split; [vm_compute; reflexivity|]. split; [vm_compute; reflexivity|].
  split; [vm_compute; reflexivity|]. vm_compute. discriminate.
Qed.

(** X16.  Under Python 3 the same call raises: [None > 0] is a
    [TypeError], and nothing is written. *)
Lemma votes_percent_no_poll_python3 (self : PollAnswer) (db : DB) (topic : Topic) :
  PollAnswer_topic_resolved self db = Some topic →
  Topic_poll_type topic = POLL_TYPE_NONE →
  PollAnswer_votes_percent Python3 self db = (Raise TypeError, db).
Proof.
  intros Htopic Hpoll.
  pose proof (Topic_poll_votes_none topic db Hpoll) as Hnone.
  unfold PollAnswer_votes_percent.
  mok (by apply PollAnswer_get_topic_eq).
  mok (exact Hnone).
  by mraise reflexivity.
Qed.

Lemma votes_percent_no_poll_python3_witness :
  PollAnswer_votes_percent Python3 (PollAnswer_of_row 3 (mkPollAnswerRow 2))
    poll_db = (Raise TypeError, poll_db).
Proof.
  apply (votes_percent_no_poll_python3 (PollAnswer_of_row 3 (mkPollAnswerRow 2))
           poll_db
           (Topic_of_row 2 (mkTopicRow 1 (Some 6) None 0 false POLL_TYPE_NONE))).
  - vm_compute. reflexivity.
  - reflexivity.
Defined.

(** * Further properties *)

(** ** Recomputing twice, and the last post *)

Lemma tbl_update_idem {A} pk (r : A) t :
  tbl_update pk r (tbl_update pk r t) = tbl_update pk r t.
Proof.
  unfold tbl_update. cbn [rows next_id]. f_equal; [apply insert_insert_eq|lia].
Qed.

Lemma Forum_store_idem self db :
  Forum_store self (Forum_store self db) = Forum_store self db.
Proof.
  unfold Forum_store, set_forums. cbn [forums topics posts poll_answers
    poll_answer_users topic_read_trackers forum_read_trackers].
  by rewrite tbl_update_idem.
Qed.

Lemma Forum_recount_idem self db :
  Forum_recount (Forum_recount self db) (Forum_store (Forum_recount self db) db)
  = Forum_recount self db.
Proof.
  set (self1 := Forum_recount self db).
  transitivity
    (mkForum (Forum_id self)
       (match head (order_by_created_id_desc
                      (Post_objects_filter_topic__forum_id (Forum_id self) db))
        with
        | Some p => Some (updated_or_created p)
        | None => Forum_updated self1
        end)
       (count (Post_objects_filter_topic__forum_id (Forum_id self) db))
       (count (Topic_objects_filter_forum (Forum_id self) db)));
    [reflexivity|].
  subst self1. unfold Forum_recount. cbn [Forum_updated].
  by destruct (head _).
Qed.

(** X1.  [Forum.update_counters] is idempotent: run again on the instance
    and the store it returned, it returns the same instance and leaves the
    store as it is. *)
Theorem Forum_update_counters_idempotent (self : Forum) (db : DB) :
  ∃ self' db',
    Forum_update_counters self db = (Ok self', db') ∧
    Forum_update_counters self' db' = (Ok self', db').
Proof.
  eexists _, _. split; [apply Forum_update_counters_eq|].
  rewrite Forum_update_counters_eq, Forum_recount_idem.
  by rewrite Forum_store_idem.
Qed.

Lemma Forum_last_post_eq self db :
  Forum_last_post self db
  = (Ok (head (order_by_created_id_desc (Forum_posts self db))), db).
Proof.
  unfold Forum_last_post, try_except.
  rewrite (bind_ok _ _ _ _ _ (gets_eq _ _)).
  unfold first. destruct (head _) as [p|].
  - by rewrite (bind_ok _ _ _ _ _ (from_option_Some _ _ _)).
  - by rewrite (bind_raise _ _ _ _ _ (from_option_None _ _)).
Qed.

(** X2.  [Forum.last_post] never raises and writes nothing: it returns
    [None] exactly when the forum has no posts, and otherwise the post that
    is last by [(created, id)].  This is the post [update_counters] takes
    [updated] from: after [update_counters] the property returns the same
    result, and the forum's [updated] is that post's [updated or created]. *)
Theorem Forum_last_post_spec (self : Forum) (db : DB) :
  ∃ o,
    Forum_last_post self db = (Ok o, db) ∧
    (o = None ↔ Forum_posts self db = []) ∧
    (∀ p, o = Some p ↔ is_last_post p (Forum_posts self db)) ∧
    ∃ self' db',
      Forum_update_counters self db = (Ok self', db') ∧
      Forum_last_post self' db' = (Ok o, db') ∧
      (∀ p, o = Some p → Forum_updated self' = Some (updated_or_created p)).
Proof.
  eexists. split; [apply Forum_last_post_eq|].
  split; [apply head_order_desc_None|]. split.
  - intros p. split; [apply head_order_desc_Some|].
    apply head_order_desc_last, keyed_forum_posts.
  - eexists _, _. split; [apply Forum_update_counters_eq|].
    split; [by rewrite Forum_last_post_eq|].
    intros p Hp. unfold Forum_recount. cbn [Forum_updated].
    unfold Forum_posts in Hp. by rewrite Hp.
Qed.

(** X3.  On a topic instance without a cached [_head]: when the topic has
    no posts, [head] returns [None] where [last_post] raises [IndexError];
    when it has posts, [head] returns the first and [last_post] the last by
    [(created, id)], and [last_post] keeps its result on the instance, so
    that it is returned again whatever the store holds by then. *)
Theorem Topic_head_last_post_spec (self : Topic) (db : DB) :
  Topic__head self = None →
  (Topic_posts self db = [] →
   (Topic_head self db).1 = Ok (None, Topic_set__head (Some []) self) ∧
   Topic_last_post self None db = (Raise IndexError, db)) ∧
  (Topic_posts self db ≠ [] →
   ∃ h l self',
     Topic_head self db = (Ok (Some h, self'), db) ∧
     is_first_post h (Topic_posts self db) ∧
     Topic_last_post self None db = (Ok (l, Some l), db) ∧
     is_last_post l (Topic_posts self db) ∧
     ∀ db', Topic_last_post self (Some l) db' = (Ok (l, Some l), db')).
Proof.
  intros Hcache. split.
  - intros Hnil. split.
    + rewrite Topic_head_eq. unfold Topic_head_eval. rewrite Hcache, Hnil.
      reflexivity.
    + unfold Topic_last_post. mok (apply gets_eq). rewrite Hnil. reflexivity.
  - intros Hsome.
    destruct (head_merge_sort_is_Some (flip post_key_le) _ Hsome) as [l Hl].
    destruct (head_merge_sort_is_Some post_key_le _ Hsome) as [h Hh].
    exists h, l, (Topic_head_eval self db).2.
    split; [|split; [by apply head_order_asc_Some|]].
    { rewrite Topic_head_eq. do 3 f_equal.
      unfold Topic_head_eval. rewrite Hcache.
      cbn [Topic__head Topic_set__head fst snd].
      unfold order_by_created_id.
      destruct (merge_sort post_key_le (Topic_posts self db)) as [|h' ?];
        [done|].
      by injection Hh as ->. }
    split; [|split; [by apply head_order_desc_Some|done]].
    unfold Topic_last_post. mok (apply gets_eq).
    unfold first, order_by_created_id_desc. rewrite Hl. reflexivity.
Qed.

Lemma Topic_head_last_post_spec_witness :
  ∃ self',
    Topic_head (Topic_of_row 1 (mkTopicRow 1 (Some 5) (Some 12) 3 false 0))
      demo_db = (Ok (Some (1, mkPostRow 1 10 None false), self'), demo_db) ∧
    Topic_last_post (Topic_of_row 1 (mkTopicRow 1 (Some 5) (Some 12) 3 false 0))
      None demo_db
    = (Ok ((3, mkPostRow 1 12 None false),
           Some (3, mkPostRow 1 12 None false)), demo_db).
Proof.
  destruct (proj2 (Topic_head_last_post_spec
                     (Topic_of_row 1 (mkTopicRow 1 (Some 5) (Some 12) 3 false 0))
                     demo_db eq_refl))
    as (h & l & self' & Hh & _ & Hl & _).
  - vm_compute. discriminate.
  - exists self'. split.
    + rewrite Hh. vm_compute in Hh. by injection Hh as <- <-.
    + rewrite Hl. vm_compute in Hl. by injection Hl as <-.
Defined.

Lemma Forum_last_post_spec_witness :
  Forum_last_post (Forum_of_row 1 (mkForumRow (Some 12) 3 1)) demo_db
  = (Ok (Some (3, mkPostRow 1 12 None false)), demo_db).
Proof.
  destruct (Forum_last_post_spec (Forum_of_row 1 (mkForumRow (Some 12) 3 1))
              demo_db) as (o & Ho & _ & Hlast & _).
  rewrite Ho. do 2 f_equal. apply Hlast.
  refine (bool_decide_unpack _ _). vm_compute. exact I.
Defined.

(** ** Creating topics and posts *)

Lemma count_tbl_insert_fresh {A} (P : Z * A → Prop) `{!∀ x, Decision (P x)}
    (t : Table A) (r : A) :
  rows t !! next_id t = None →
  count (tbl_filter P (tbl_insert r t).2)
  = count (tbl_filter P t) + (if decide (P (next_id t, r)) then 1 else 0).
Proof.
  intros Hfresh. rewrite !count_tbl_filter. cbn [tbl_insert snd rows].
  destruct (decide (P (next_id t, r))) as [HP|HP].
  - rewrite map_filter_insert_True by done.
    rewrite map_size_insert_None; [lia|].
    by apply map_lookup_filter_None_2; left.
  - rewrite map_filter_insert_not' by (done || by rewrite Hfresh).
    lia.
Qed.

Lemma Topic_super_save_new self db :
  Topic_id self = None →
  is_Some (rows (forums db) !! Topic_forum_id self) →
  Topic_super_save self db =
  (Ok (Topic_set_id (Some (next_id (topics db))) self),
   set_topics (tbl_insert (Topic_to_row self) (topics db)).2 db).
Proof.
  intros Hid [fr Hfr]. unfold Topic_super_save.
  mok (apply gets_eq). rewrite Hfr, Hid. reflexivity.
Qed.

(** [Topic.save] of an instance without a primary key. *)
Lemma Topic_save_new_eq now self db :
  Topic_id self = None →
  is_Some (rows (forums db) !! Topic_forum_id self) →
  Topic_save now self db =
  (Ok (Topic_set_id (Some (next_id (topics db)))
         (Topic_set_created (Some now) self)),
   set_topics (tbl_insert (Topic_to_row (Topic_set_created (Some now) self))
                          (topics db)).2 db).
Proof.
  intros Hid Hfr. unfold Topic_save. rewrite Hid.
  cbn [Topic_set_created Topic_id]. rewrite Hid.
  mok (apply ret_eq).
  mok (by apply Topic_super_save_new).
  reflexivity.
Qed.

(** X4.  [Topic.save] of a new topic in a stored forum inserts the row
    under the next key, with [created] set to the current time, and
    writes nothing else: the forum has one topic more, and its row, with
    its [topic_count], is as it was. *)
Theorem Topic_save_new_topic (now : Z) (self : Topic) (db : DB) (fr : ForumRow) :
  Topic_id self = None →
  rows (forums db) !! Topic_forum_id self = Some fr →
  rows (topics db) !! next_id (topics db) = None →
  ∃ self' db',
    Topic_save now self db = (Ok self', db') ∧
    Topic_id self' = Some (next_id (topics db)) ∧
    Topic_created self' = Some now ∧
    rows (topics db')
      = <[next_id (topics db) := Topic_to_row self']> (rows (topics db)) ∧
    forums db' = forums db ∧
    posts db' = posts db ∧
    count (Topic_objects_filter_forum (Topic_forum_id self) db')
      = count (Topic_objects_filter_forum (Topic_forum_id self) db) + 1.
Proof.
  intros Hid Hfr Hfresh. eexists _, _.
  split; [by apply Topic_save_new_eq|].
  do 5 (split; [reflexivity|]).
  unfold Topic_objects_filter_forum. cbn [topics set_topics].
  rewrite count_tbl_insert_fresh by done.
  by rewrite decide_True.
Qed.

(** [Post.save] up to the recomputation of the new topic and its forum:
    what the store holds at that point, before the counters of a previous
    topic are recomputed. *)
Lemma Topic_save_new_topic_witness :
  ∃ self' db',
    Topic_save 20 (mkTopic None (Unloaded 1) None None 0 false 0 None) demo_db
      = (Ok self', db') ∧
    Topic_id self' = Some 3 ∧
    Topic_created self' = Some 20 ∧
    rows (topics db') = <[3 := Topic_to_row self']> (rows (topics demo_db)) ∧
    forums db' = forums demo_db ∧
    posts db' = posts demo_db ∧
    count (Topic_objects_filter_forum 1 db')
      = count (Topic_objects_filter_forum 1 demo_db) + 1.
Proof.
  apply (Topic_save_new_topic 20
           (mkTopic None (Unloaded 1) None None 0 false 0 None) demo_db
           (mkForumRow (Some 12) 3 1)); reflexivity.
Defined.

Lemma Post_save_main now self db topic t rt old :
  Post_topic_resolved self db = Some topic →
  Topic_synced topic t rt db →
  Post_persisted self db old →
  db_wf db →
  let db1 := Post_store now self t db in
  ∃ self' db3,
    Post_save now self db =
    match old with
    | Some (t_old, rt_old) =>
        if bool_decide (t_old = t) then (Ok self', db3)
        else match Post_save_old_counters now (Topic_of_row t_old rt_old) db3 with
             | (Ok _, db5) => (Ok self', db5)
             | (Raise e, db5) => (Raise e, db5)
             end
    | None => (Ok self', db3)
    end ∧
    Post_id self' = Some (Post_pk self db) ∧
    posts db3 = posts db1 ∧
    Topic_recomputed t db3 ∧
    Forum_recomputed (tr_forum_id rt) db3 ∧
    (∀ x, tr_forum_id <$> rows (topics db3) !! x
          = tr_forum_id <$> rows (topics db) !! x) ∧
    (∀ x, x ≠ t → rows (topics db3) !! x = rows (topics db) !! x) ∧
    (∀ x, x ≠ tr_forum_id rt → rows (forums db3) !! x = rows (forums db) !! x) ∧
    forums_kept db db3.
Proof.
  intros Htopic Hsync Hold Hwf db1.
  destruct (Topic_synced_forum _ _ _ _ Hsync Hwf) as (f & fr & Hf & Hfid & Hfr).
  destruct Hsync as (Ht & Hrt & Hsfid).
  destruct (Post_save_spec now self db topic t rt f fr fr old)
    as (topic3 & f' & db2 & Hrc & _ & _ & _ & Hkept & Hsame & Heq);
    try done; [by rewrite Hfid|].
  destruct (Hsame Hfid) as [-> ->]. clear Hsame.
  cbv zeta in Hrc, Heq. fold db1 in Hrc, Heq, Hkept.
  set (topic2 := Topic_auto_clear _ _ _) in *.
  set (db2 := Topic_store t topic3 db1) in *.
  set (db3 := Forum_store (Forum_recount f db2) db2) in *.
  assert (Topic_id topic2 = Some t) as Ht2.
  { unfold topic2. by rewrite Topic_auto_clear_id, Topic_head_eval_id. }
  destruct (Topic_recount_on_moderation _ _ _ Hrc) as (_ & Hid3 & Hfor3).
  assert (Topic_forum_id topic3 = tr_forum_id rt) as Hfid3.
  { unfold Topic_forum_id in *. rewrite Hfor3. unfold topic2.
    by rewrite Topic_auto_clear_forum, Topic_head_eval_forum. }
  eexists _, db3. split; [exact Heq|]. split; [done|]. split; [done|].
  split.
  { apply (Topic_recount_recomputed topic2 topic3 t db1 db3); try done.
    apply lookup_Topic_store. }
  split.
  { rewrite <- Hfid.
    apply (Forum_recount_recomputed f db2 db3); try done.
    exact (lookup_Forum_store (Forum_recount f db2) db2). }
  split.
  { intros x. by apply (Topic_store_forum_ids t topic3 rt db1). }
  split.
  { intros x Hx. unfold db3, Forum_store, db2, Topic_store.
    cbn [topics set_forums set_topics tbl_update rows].
    by rewrite lookup_insert_ne. }
  split.
  { intros x Hx. unfold db3, Forum_store.
    cbn [forums set_forums tbl_update rows Forum_recount Forum_id].
    rewrite lookup_insert_ne; [done|congruence]. }
  eapply forums_kept_trans; [exact Hkept|apply forums_kept_Forum_store].
Qed.

Lemma Post_save_new_eq now self db topic t rt :
  Post_id self = None →
  Post_topic_resolved self db = Some topic →
  Topic_synced topic t rt db →
  db_wf db →
  let db1 := Post_store now self t db in
  ∃ self' db3,
    Post_save now self db = (Ok self', db3) ∧
    Post_id self' = Some (Post_pk self db) ∧
    posts db3 = posts db1 ∧
    Topic_recomputed t db3 ∧
    Forum_recomputed (tr_forum_id rt) db3 ∧
    (∀ x, tr_forum_id <$> rows (topics db3) !! x
          = tr_forum_id <$> rows (topics db) !! x) ∧
    (∀ x, x ≠ t → rows (topics db3) !! x = rows (topics db) !! x) ∧
    (∀ x, x ≠ tr_forum_id rt → rows (forums db3) !! x = rows (forums db) !! x).
Proof.
  intros Hnew Htopic Hsync Hwf db1.
  destruct (Post_save_main now self db topic t rt None Htopic Hsync
              (Post_persisted_new _ _ Hnew) Hwf)
    as (self' & db3 & Hsave & Hpk & Hposts & Ht & Hf & Hfids & Htopics
        & Hforums & _).
  by exists self', db3.
Qed.

Section size_filter.
Context {A : Type} (P : Z * A → Prop) `{!∀ x, Decision (P x)}.

Lemma size_filter_insert_fresh (m : gmap Z A) k r :
  m !! k = None → P (k, r) →
  size (filter P (<[k := r]> m)) = S (size (filter P m)).
Proof.
  intros Hk HP. rewrite map_filter_insert_True by done.
  apply map_size_insert_None. by apply map_lookup_filter_None_2; left.
Qed.

Lemma size_filter_insert_same (m : gmap Z A) k r r' :
  m !! k = Some r → (P (k, r) ↔ P (k, r')) →
  size (filter P (<[k := r']> m)) = size (filter P m).
Proof.
  intros Hk HP. destruct (decide (P (k, r'))) as [Hr'|Hr'].
  - rewrite map_filter_insert_True by done.
    apply map_size_insert_Some.
    exists r. apply map_lookup_filter_Some_2; [done|]. by apply HP.
  - rewrite map_filter_insert_not'; [done..|].
    intros y. rewrite Hk. intros [= <-]. by rewrite HP.
Qed.

End size_filter.

Lemma size_filter_ext_map {A} (P Q : Z * A → Prop)
    `{!∀ x, Decision (P x), !∀ x, Decision (Q x)} (m : gmap Z A) :
  (∀ k r, m !! k = Some r → P (k, r) ↔ Q (k, r)) →
  filter P m = filter Q m.
Proof.
  intros Hext. apply map_filter_strong_ext. intros k r.
  split; intros [HP Hk]; (split; [|done]); by apply (Hext k r Hk).
Qed.

(** X5.  [Post.save] of a new post in a stored topic of a well-formed
    store returns normally; the post is inserted under the next key, and
    afterwards the topic row counts the posts the topic had plus one, and
    the forum row the posts the forum had plus one and the topics the forum
    has. *)
Theorem Post_save_new_post (now : Z) (self : Post) (db : DB)
    (topic : Topic) (t : Z) (rt : TopicRow) :
  Post_id self = None →
  Post_topic_resolved self db = Some topic →
  Topic_synced topic t rt db →
  db_wf db →
  ∃ self' db' rt' fr',
    Post_save now self db = (Ok self', db') ∧
    Post_id self' = Some (next_id (posts db)) ∧
    rows (posts db')
      = <[next_id (posts db) := Post_row now self t]> (rows (posts db)) ∧
    rows (topics db') !! t = Some rt' ∧
    tr_post_count rt' = count (Post_objects_filter_topic_id (Some t) db) + 1 ∧
    rows (forums db') !! tr_forum_id rt = Some fr' ∧
    fr_post_count fr'
      = count (Post_objects_filter_topic__forum_id (tr_forum_id rt) db) + 1 ∧
    fr_topic_count fr'
      = count (Topic_objects_filter_forum (tr_forum_id rt) db).
Proof.
  intros Hnew Htopic Hsync Hwf.
  destruct (Post_save_new_eq now self db topic t rt Hnew Htopic Hsync Hwf)
    as (self' & db3 & Hsave & Hpk & Hposts & (rt' & Hrt' & Hpc & _)
        & (fr' & Hfr' & Hfpc & Hftc & _) & Hfids & Htopics & _).
  destruct Hsync as (Ht & Hrt & Hsfid). destruct Hwf as (_ & _ & Hlt).
  assert (rows (posts db) !! next_id (posts db) = None) as Hfresh.
  { destruct (rows (posts db) !! next_id (posts db)) as [r0|] eqn:Hr0; [|done].
    specialize (Hlt _ _ Hr0). simpl in Hlt. lia. }
  assert (rows (posts db3)
          = <[next_id (posts db) := Post_row now self t]> (rows (posts db)))
    as Hrows.
  { rewrite Hposts. unfold Post_store. by rewrite Hnew. }
  exists self', db3, rt', fr'. split; [exact Hsave|].
  split. { rewrite Hpk. unfold Post_pk. by rewrite Hnew. }
  split; [done|]. split; [done|]. split.
  { rewrite Hpc. unfold Post_objects_filter_topic_id.
    rewrite !count_tbl_filter, Hrows.
    rewrite size_filter_insert_fresh by done. lia. }
  split; [done|]. split.
  { rewrite Hfpc. unfold Post_objects_filter_topic__forum_id.
    rewrite !count_tbl_filter, Hrows.
    rewrite (size_filter_ext_map _
               (λ p, tr_forum_id <$> rows (topics db) !! pr_topic_id p.2
                     = Some (tr_forum_id rt))) by (intros; by rewrite Hfids).
    rewrite size_filter_insert_fresh; [lia|done|].
    cbn [snd Post_row pr_topic_id]. by rewrite Hrt. }
  rewrite Hftc. unfold Topic_objects_filter_forum. rewrite !count_tbl_filter.
  f_equal.
  assert (rows (topics db3) = <[t := rt']> (rows (topics db))) as ->.
  { apply map_eq. intros x. destruct (decide (x = t)) as [->|Hx].
    - by rewrite lookup_insert_eq.
    - rewrite lookup_insert_ne by done. by apply Htopics. }
  apply (size_filter_insert_same _ _ _ rt); [done|]. cbn [snd].
  specialize (Hfids t). rewrite Hrt', Hrt in Hfids. simpl in Hfids.
  by injection Hfids as ->.
Qed.

Lemma Post_save_new_post_witness :
  ∃ self' db' rt' fr',
    Post_save 20 (mkPost None (Unloaded 1) None None false) demo_db
      = (Ok self', db') ∧
    Post_id self' = Some 5 ∧
    rows (posts db')
      = <[5 := mkPostRow 1 20 None false]> (rows (posts demo_db)) ∧
    rows (topics db') !! 1 = Some rt' ∧
    tr_post_count rt' = 3 + 1 ∧
    rows (forums db') !! 1 = Some fr' ∧
    fr_post_count fr' = 3 + 1 ∧
    fr_topic_count fr' = 1.
Proof.
  apply (Post_save_new_post 20 (mkPost None (Unloaded 1) None None false)
           demo_db (Topic_of_row 1 (mkTopicRow 1 (Some 5) (Some 12) 3 false 0))
           1 (mkTopicRow 1 (Some 5) (Some 12) 3 false 0)).
  - reflexivity.
  - reflexivity.
  - repeat split; reflexivity.
  - apply demo_ok.
Defined.

Lemma db_wf_new_topic db row :
  is_Some (rows (forums db) !! tr_forum_id row) →
  db_wf db →
  db_wf (set_topics (tbl_insert row (topics db)).2 db).
Proof.
  intros Hf (Hp & Ht & Hlt). split; [|split; [|done]].
  - intros k r Hk. cbn [topics set_topics tbl_insert snd rows].
    destruct (decide (pr_topic_id r = next_id (topics db))) as [->|Hne].
    + rewrite lookup_insert_eq. eauto.
    + rewrite lookup_insert_ne by done. by apply (Hp k).
  - intros k r. cbn [topics forums set_topics tbl_insert snd rows].
    destruct (decide (k = next_id (topics db))) as [->|Hne].
    + rewrite lookup_insert_eq. by intros [= <-].
    + rewrite lookup_insert_ne by done. apply Ht.
Qed.

(** X6.  A new topic and then its first post: after [Topic.save] and
    [Post.save] the post is the only post of the topic, the topic row has
    [post_count = 1] and the post's time as [updated], and the forum row
    counts one post and one topic more than the forum had. *)
Theorem Topic_save_then_first_post (now now' : Z) (self : Topic) (post : Post)
    (db : DB) (fr : ForumRow) :
  Topic_id self = None →
  rows (forums db) !! Topic_forum_id self = Some fr →
  rows (topics db) !! next_id (topics db) = None →
  db_wf db →
  Post_id post = None →
  let t := next_id (topics db) in
  let p := (next_id (posts db), Post_row now' post t) in
  ∃ topic db1 post' db2 rt' fr',
    Topic_save now self db = (Ok topic, db1) ∧
    Post_save now' (Post_set_topic (Loaded topic) post) db1 = (Ok post', db2) ∧
    Post_objects_filter_topic_id (Some t) db2 = [p] ∧
    rows (topics db2) !! t = Some rt' ∧
    tr_post_count rt' = 1 ∧
    tr_updated rt' = Some (updated_or_created p) ∧
    rows (forums db2) !! Topic_forum_id self = Some fr' ∧
    fr_post_count fr'
      = count (Post_objects_filter_topic__forum_id (Topic_forum_id self) db) + 1 ∧
    fr_topic_count fr'
      = count (Topic_objects_filter_forum (Topic_forum_id self) db) + 1.
Proof.
  intros Hid Hfr Hfresh Hwf Hnew t p.
  set (row0 := Topic_to_row (Topic_set_created (Some now) self)).
  set (topic := Topic_set_id (Some t) (Topic_set_created (Some now) self)).
  set (db1 := set_topics (tbl_insert row0 (topics db)).2 db).
  assert (db_wf db1) as Hwf1 by (apply db_wf_new_topic; [by eexists|done]).
  assert (Topic_synced topic t row0 db1) as Hsync.
  { split; [done|]. split; [|done].
    unfold db1. cbn [topics set_topics tbl_insert snd rows].
    apply lookup_insert_eq. }
  destruct (Post_save_new_eq now' (Post_set_topic (Loaded topic) post) db1
              topic t row0 Hnew eq_refl Hsync Hwf1)
    as (post' & db3 & Hsave & _ & Hposts & (rt' & Hrt' & Hpc & Hup)
        & (fr' & Hfr' & Hfpc & Hftc & _) & Hfids & Htopics & _).
  destruct Hwf as (Hpt & _ & Hlt).
  assert (rows (posts db) !! next_id (posts db) = None) as Hpfresh.
  { destruct (rows (posts db) !! next_id (posts db)) as [r0|] eqn:Hr0; [|done].
    specialize (Hlt _ _ Hr0). simpl in Hlt. lia. }
  assert (∀ k r, rows (posts db) !! k = Some r → pr_topic_id r ≠ t) as Hnot.
  { intros k r Hk Heq. destruct (Hpt k r Hk) as [x Hx]. simpl in Hx.
    rewrite Heq in Hx. unfold t in Hx. congruence. }
  assert (rows (posts db3) = <[p.1 := p.2]> (rows (posts db))) as Hrows.
  { rewrite Hposts. unfold Post_store. cbn [Post_id Post_set_topic].
    by rewrite Hnew. }
  assert (Post_objects_filter_topic_id (Some t) db3 = [p]) as Hqs.
  { unfold Post_objects_filter_topic_id, tbl_filter. rewrite Hrows.
    rewrite map_filter_insert_True by done.
    rewrite (map_empty_filter_2 _ (rows (posts db))).
    - rewrite insert_empty. by rewrite map_to_list_singleton.
    - intros k r Hk. by apply (Hnot k r). }
  assert (tr_forum_id rt' = tr_forum_id row0) as Hrtf.
  { specialize (Hfids t). rewrite Hrt' in Hfids.
    destruct Hsync as (_ & Hrow0 & _). rewrite Hrow0 in Hfids.
    simpl in Hfids. by injection Hfids. }
  exists topic, db1, post', db3, rt', fr'.
  split; [by apply Topic_save_new_eq; [|eexists]|].
  split; [exact Hsave|]. split; [done|]. split; [done|].
  split; [by rewrite Hpc, Hqs|].
  split.
  { apply Hup. rewrite Hqs. split; [left|].
    apply Forall_singleton. right. split; [done|lia]. }
  split; [done|]. split.
  - rewrite Hfpc. unfold Post_objects_filter_topic__forum_id.
    rewrite !count_tbl_filter, Hrows.
    rewrite size_filter_insert_fresh; [| done |].
    + enough (filter (λ q : Z * PostRow,
                tr_forum_id <$> rows (topics db3) !! pr_topic_id q.2
                = Some (tr_forum_id row0)) (rows (posts db))
              = filter (λ q : Z * PostRow,
                  tr_forum_id <$> rows (topics db) !! pr_topic_id q.2
                  = Some (Topic_forum_id self)) (rows (posts db))) as ->
        by lia.
      apply size_filter_ext_map. intros k r Hk. cbn [snd].
      rewrite Hfids. unfold db1. cbn [topics set_topics tbl_insert snd rows].
      change (tr_forum_id row0) with (Topic_forum_id self).
      rewrite lookup_insert_ne; [done|]. intros Heq.
      apply (Hnot k r Hk). by rewrite <- Heq.
    + cbn [snd p Post_row pr_topic_id]. rewrite Hrt'. simpl. by rewrite Hrtf.
  - rewrite Hftc. unfold Topic_objects_filter_forum. rewrite !count_tbl_filter.
    change (tr_forum_id row0) with (Topic_forum_id self) in *.
    assert (rows (topics db3) = <[t := rt']> (rows (topics db))) as ->.
    { apply map_eq. intros x. destruct (decide (x = t)) as [->|Hx].
      - by rewrite lookup_insert_eq.
      - rewrite lookup_insert_ne by done. rewrite Htopics by done.
        unfold db1. cbn [topics set_topics tbl_insert snd rows].
        by rewrite lookup_insert_ne. }
    rewrite size_filter_insert_fresh; [lia|done|].
    cbn [snd]. by rewrite Hrtf.
Qed.

Lemma Topic_save_then_first_post_witness :
  ∃ topic db1 post' db2 rt' fr',
    Topic_save 20 (mkTopic None (Unloaded 2) None None 0 false 0 None) demo_db
      = (Ok topic, db1) ∧
    Post_save 21 (mkPost None (Loaded topic) None None false) db1
      = (Ok post', db2) ∧
    Post_objects_filter_topic_id (Some 3) db2
      = [(5, mkPostRow 3 21 None false)] ∧
    rows (topics db2) !! 3 = Some rt' ∧
    tr_post_count rt' = 1 ∧
    tr_updated rt' = Some 21 ∧
    rows (forums db2) !! 2 = Some fr' ∧
    fr_post_count fr' = 1 + 1 ∧
    fr_topic_count fr' = 1 + 1.
Proof.
  apply (Topic_save_then_first_post 20 21
           (mkTopic None (Unloaded 2) None None 0 false 0 None)
           (mkPost None (Unloaded 0) None None false) demo_db
           (mkForumRow (Some 13) 1 1)).
  - reflexivity.
  - reflexivity.
  - reflexivity.
  - apply demo_ok.
  - reflexivity.
Defined.

(** ** Saves that raise *)

(** X7.  Saving the only post of a topic with another topic raises
    [IndexError] after the writes were made: the post row has moved, the
    new topic and its forum are recomputed, and the row of the topic the
    post came from is left as it was, although the topic has no post any
    more. *)
Theorem Post_save_move_only_post (now : Z) (self : Post) (db : DB) (pk : Z)
    (r_old : PostRow) (rt_old : TopicRow) (topic : Topic) (t : Z)
    (rt : TopicRow) :
  Post_id self = Some pk →
  rows (posts db) !! pk = Some r_old →
  rows (topics db) !! pr_topic_id r_old = Some rt_old →
  map_Forall (λ k r, pr_topic_id r = pr_topic_id r_old → k = pk)
             (rows (posts db)) →
  Post_topic_resolved self db = Some topic →
  Topic_synced topic t rt db →
  t ≠ pr_topic_id r_old →
  db_wf db →
  ∃ db',
    Post_save now self db = (Raise IndexError, db') ∧
    rows (posts db') = <[pk := Post_row now self t]> (rows (posts db)) ∧
    Topic_recomputed t db' ∧
    Forum_recomputed (tr_forum_id rt) db' ∧
    Post_objects_filter_topic_id (Some (pr_topic_id r_old)) db' = [] ∧
    rows (topics db') !! pr_topic_id r_old = Some rt_old.
Proof.
  intros Hpk Hr_old Hrt_old Honly Htopic Hsync Hne Hwf.
  set (t_old := pr_topic_id r_old) in *.
  assert (is_Some (rows (forums db) !! tr_forum_id rt_old)) as Hfr_old.
  { destruct Hwf as (_ & Hwt & _). apply (Hwt _ _ Hrt_old). }
  destruct (Post_save_main now self db topic t rt (Some (t_old, rt_old))
              Htopic Hsync
              (Post_persisted_old _ _ pk r_old rt_old Hpk Hr_old Hrt_old Hfr_old)
              Hwf)
    as (self' & db3 & Hsave & _ & Hposts & Ht & Hf & _ & Htopics & _ & Hkept).
  rewrite bool_decide_false in Hsave by done.
  assert (rows (posts db3) = <[pk := Post_row now self t]> (rows (posts db)))
    as Hrows.
  { rewrite Hposts. unfold Post_store. by rewrite Hpk. }
  assert (Post_objects_filter_topic_id (Some t_old) db3 = []) as Hnil.
  { apply tbl_filter_nil. intros k r. rewrite Hrows. cbn [snd].
    destruct (decide (k = pk)) as [->|Hk].
    - rewrite lookup_insert_eq. intros [= <-]. cbn [Post_row pr_topic_id]. done.
    - rewrite lookup_insert_ne by done. intros Hr Heq.
      by apply Hk, (Honly k r Hr). }
  assert (rows (topics db3) !! t_old = Some rt_old) as Hrt_old3.
  { rewrite Htopics by done. done. }
  destruct (Hkept _ Hfr_old) as [fr3 Hfr3].
  rewrite (Post_save_old_counters_eq now _ db3 t_old rt_old
             (Forum_of_row (tr_forum_id rt_old) fr3) fr3) in Hsave; try done.
  2:{ unfold Topic_forum_resolved. cbn [Topic_forum Topic_of_row].
      by rewrite Hfr3. }
  rewrite (proj2 (Topic_recount_None (Topic_of_row t_old rt_old) db3)) in Hsave
    by exact Hnil.
  by exists db3.
Qed.

(** X8.  [Topic.save] and [Post.save] of an instance that has a primary
    key but no row raise [DoesNotExist] and write nothing. *)
Theorem save_missing_row (now : Z) (db : DB) :
  (∀ (self : Topic) pk,
     Topic_id self = Some pk → rows (topics db) !! pk = None →
     Topic_save now self db = (Raise DoesNotExist, db)) ∧
  (∀ (self : Post) pk,
     Post_id self = Some pk → rows (posts db) !! pk = None →
     Post_save now self db = (Raise DoesNotExist, db)).
Proof.
  split; intros self pk Hpk Hrow.
  - unfold Topic_save. rewrite Hpk. cbn beta iota zeta. rewrite Hpk.
    mraise (erewrite bind_raise by (by apply Topic_objects_get_None); reflexivity).
    reflexivity.
  - unfold Post_save.
    assert (Post_id (match Post_created self with
                     | Some _ => self
                     | None => Post_set_created (Some now) self
                     end) = Some pk) as Hpk'.
    { by destruct (Post_created self). }
    cbn beta iota zeta. rewrite Hpk'.
    mraise (erewrite bind_raise by (by apply Post_objects_get_None); reflexivity).
    reflexivity.
Qed.

Lemma Post_save_move_only_post_witness :
  ∃ db',
    Post_save 21 (mkPost (Some 4) (Unloaded 1) (Some 13) None false) demo_db
      = (Raise IndexError, db') ∧
    rows (posts db')
      = <[4 := mkPostRow 1 13 None false]> (rows (posts demo_db)) ∧
    Topic_recomputed 1 db' ∧
    Forum_recomputed 1 db' ∧
    Post_objects_filter_topic_id (Some 2) db' = [] ∧
    rows (topics db') !! 2 = Some (mkTopicRow 2 (Some 6) (Some 13) 1 false 0).
Proof.
  apply (Post_save_move_only_post 21
           (mkPost (Some 4) (Unloaded 1) (Some 13) None false) demo_db 4
           (mkPostRow 2 13 None false)
           (mkTopicRow 2 (Some 6) (Some 13) 1 false 0)
           (Topic_of_row 1 (mkTopicRow 1 (Some 5) (Some 12) 3 false 0))
           1 (mkTopicRow 1 (Some 5) (Some 12) 3 false 0)).
  - reflexivity.
  - reflexivity.
  - reflexivity.
  - refine (bool_decide_unpack _ _). vm_compute. exact I.
  - reflexivity.
  - repeat split; reflexivity.
  - discriminate.
  - apply demo_ok.
Defined.

Lemma save_missing_row_witness :
  Topic_save 20 (mkTopic (Some 9) (Unloaded 1) None None 0 false 0 None) demo_db
    = (Raise DoesNotExist, demo_db) ∧
  Post_save 20 (mkPost (Some 9) (Unloaded 1) None None false) demo_db
    = (Raise DoesNotExist, demo_db).
Proof.
  split.
  - apply (proj1 (save_missing_row 20 demo_db) _ 9); reflexivity.
  - apply (proj2 (save_missing_row 20 demo_db) _ 9); reflexivity.
Defined.

(** ** Deleting the first post *)

(** X10.  [Post.delete] of the first post of a topic does what
    [Topic.delete] does, with the same store as result: besides the topic
    and its posts, the poll answers of the topic, the votes for them and
    the topic's read trackers are removed and nothing else of these
    tables; the forum row is recomputed. *)
Theorem Post_delete_head_is_Topic_delete (now : Z) (self : Post) (db : DB)
    (pk : Z) (pr : PostRow) (topic : Topic) (t : Z) (f : Forum) :
  Post_id self = Some pk →
  Post_topic_resolved self db = Some topic →
  Topic_id topic = Some t →
  Topic_forum_resolved topic db = Some f →
  is_first_post (pk, pr) (Topic_posts topic db) →
  ∃ db',
    Post_delete now self db = (Ok tt, db') ∧
    Topic_delete topic db = (Ok tt, db') ∧
    (∀ a r, rows (poll_answers db') !! a = Some r ↔
            rows (poll_answers db) !! a = Some r ∧ par_topic_id r ≠ t) ∧
    (∀ v r, rows (poll_answer_users db') !! v = Some r ↔
            rows (poll_answer_users db) !! v = Some r ∧
            par_topic_id <$> rows (poll_answers db) !! paur_poll_answer_id r
              ≠ Some t) ∧
    (∀ k r, rows (topic_read_trackers db') !! k = Some r ↔
            rows (topic_read_trackers db) !! k = Some r ∧
            trk_target_id r ≠ Some t) ∧
    forum_read_trackers db' = forum_read_trackers db ∧
    Forum_recomputed (Forum_id f) db'.
Proof.
  intros Hpk Htopic Ht Hf Hfirst.
  pose proof (head_order_asc_first _ _ (keyed_topic_posts _ _) Hfirst) as Hhead.
  pose proof (Post_delete_unfold now self db topic (pk, pr) Htopic Hhead) as Hdel.
  rewrite bool_decide_true in Hdel by done.
  pose proof (Topic_delete_eq topic db t f Ht Hf) as Htd. cbv zeta in Htd.
  set (db1 := Topic_cascade t db) in *.
  exists (Forum_store (Forum_recount f db1) db1).
  split; [by rewrite Hdel|]. split; [done|].
  assert (∀ {A} (P : Z * A → Prop) `{!∀ x, Decision (P x)} (tb : Table A) k r,
            rows (tbl_delete_where P tb) !! k = Some r ↔
            rows tb !! k = Some r ∧ ¬ P (k, r)) as Hlk.
  { intros A P HP tb k r. rewrite lookup_tbl_delete_where.
    destruct (rows tb !! k) as [r0|]; [|split; [done|by intros [? _]]].
    destruct (decide (P (k, r0))) as [HP0|HP0]; split.
    - done.
    - by intros [[= ->] Hn].
    - by intros [= ->].
    - by intros [[= ->] _]. }
  split; [intros a r; apply Hlk|]. split; [intros v r; apply Hlk|].
  split; [intros k r; apply Hlk|]. split; [done|].
  apply (Forum_recount_recomputed f db1); [done..|].
  exact (lookup_Forum_store (Forum_recount f db1) db1).
Qed.

Lemma Post_delete_head_is_Topic_delete_witness :
  ∃ db',
    Post_delete 20 (Post_of_row 1 (mkPostRow 1 10 None false)) demo_db
      = (Ok tt, db') ∧
    Topic_delete (Topic_of_row 1 (mkTopicRow 1 (Some 5) (Some 12) 3 false 0))
      demo_db = (Ok tt, db').
Proof.
  destruct (Post_delete_head_is_Topic_delete 20
              (Post_of_row 1 (mkPostRow 1 10 None false)) demo_db 1
              (mkPostRow 1 10 None false)
              (Topic_of_row 1 (mkTopicRow 1 (Some 5) (Some 12) 3 false 0)) 1
              (Forum_of_row 1 (mkForumRow (Some 12) 3 1)))
    as (db' & H1 & H2 & _).
  - reflexivity.
  - reflexivity.
  - reflexivity.
  - reflexivity.
  - refine (bool_decide_unpack _ _). vm_compute. exact I.
  - by exists db'.
Defined.

(** X11.  [Post.delete] raises [DoesNotExist] when the topic of the post
    is not stored, and [AssertionError] for a post without a primary key
    in a topic that has posts; nothing is written in either case. *)
Theorem Post_delete_raises (now : Z) (self : Post) (db : DB) :
  (Post_topic_resolved self db = None →
   Post_delete now self db = (Raise DoesNotExist, db)) ∧
  (∀ topic,
     Post_topic_resolved self db = Some topic →
     Topic_posts topic db ≠ [] →
     Post_id self = None →
     Post_delete now self db = (Raise AssertionError, db)).
Proof.
  split.
  - intros Hnone. unfold Post_delete.
    mraise (by apply Post_get_topic_None). reflexivity.
  - intros topic Htopic Hposts Hid.
    destruct (head_merge_sort_is_Some post_key_le _ Hposts) as [h Hh].
    rewrite (Post_delete_unfold now self db topic h Htopic Hh), Hid.
    by rewrite bool_decide_false.
Qed.

Lemma Post_delete_raises_witness :
  Post_delete 20 (mkPost (Some 1) (Unloaded 9) (Some 10) None false) demo_db
    = (Raise DoesNotExist, demo_db) ∧
  Post_delete 20 (mkPost None (Unloaded 1) (Some 10) None false) demo_db
    = (Raise AssertionError, demo_db).
Proof.
  split.
  - apply (proj1 (Post_delete_raises 20 _ demo_db)). reflexivity.
  - apply (proj2 (Post_delete_raises 20 _ demo_db)
             (Topic_of_row 1 (mkTopicRow 1 (Some 5) (Some 12) 3 false 0))).
    + reflexivity.
    + vm_compute. discriminate.
    + reflexivity.
Defined.

(** ** Read trackers: every outcome *)

Lemma Tracker_objects_create_cases k now user target db :
  Tracker_objects_create k now user target db
  = (Ok (Tracker_of_row (next_id (tracker_table k db))
                        (mkTrackerRow user target now)),
     set_tracker_table k
       (tbl_insert (mkTrackerRow user target now) (tracker_table k db)).2 db)
  ∨ Tracker_objects_create k now user target db = (Raise IntegrityError, db).
Proof.
  unfold Tracker_objects_create.
  destruct (bool_decide _); [by right|].
  destruct (bool_decide _); [by right|by left].
Qed.

Lemma Tracker_objects_get_cases k user target db :
  (∃ obj, Tracker_objects_get k user target db = (Ok obj, db))
  ∨ Tracker_objects_get k user target db = (Raise DoesNotExist, db)
  ∨ Tracker_objects_get k user target db = (Raise MultipleObjectsReturned, db).
Proof.
  unfold Tracker_objects_get.
  destruct (tbl_filter _ _) as [|[pk r] [|? ?]]; eauto.
Qed.

(** The insert in its atomic block, when the statement fails. *)
Lemma atomic_create_raise k now user target db sps sid :
  Tracker_objects_create k now user target db = (Raise IntegrityError, db) →
  get_atomic_func (execute (Tracker_objects_create k now user target))
                  (mkConnection db sps sid false) =
  (Raise IntegrityError, mkConnection db sps (sid + 1) false).
Proof.
  intros Hraise. unfold get_atomic_func.
  mok reflexivity.
  erewrite try_except_caught; cycle 1.
  { erewrite bind_raise; [reflexivity|].
    unfold execute. cbn [conn_errored conn_db conn_savepoints conn_next_sid].
    by rewrite Hraise. }
  { reflexivity. }
  cbn [is_DatabaseError].
  erewrite bind_ok; cycle 1.
  { unfold transaction_savepoint_rollback.
    cbn [conn_errored conn_db conn_savepoints conn_next_sid].
    by rewrite savepoint_lookup_top. }
  cbn beta.
  erewrite bind_ok; cycle 1.
  { unfold transaction_savepoint_commit.
    cbn [conn_errored conn_db conn_savepoints conn_next_sid].
    by rewrite savepoint_lookup_top. }
  reflexivity.
Qed.

Lemma atomic_create_ok k now user target db sps sid obj db' :
  Tracker_objects_create k now user target db = (Ok obj, db') →
  get_atomic_func (execute (Tracker_objects_create k now user target))
                  (mkConnection db sps sid false) =
  (Ok obj, mkConnection db' sps (sid + 1) false).
Proof.
  intros Hok. unfold get_atomic_func.
  mok reflexivity.
  apply try_except_ok.
  erewrite bind_ok; cycle 1.
  { unfold execute. cbn [conn_errored conn_db conn_savepoints conn_next_sid].
    by rewrite Hok. }
  cbn beta.
  erewrite bind_ok; cycle 1.
  { unfold transaction_savepoint_commit.
    cbn [conn_errored conn_db conn_savepoints conn_next_sid].
    by rewrite savepoint_lookup_top. }
  reflexivity.
Qed.

(** [get_or_create_tracker] in terms of the two statements it runs. *)
Lemma get_or_create_tracker_eq k now user target db sps sid :
  get_or_create_tracker k now user target (mkConnection db sps sid false) =
  match Tracker_objects_create k now user target db with
  | (Ok obj, db') => (Ok (obj, true), mkConnection db' sps (sid + 2) false)
  | (Raise _, _) =>
      match Tracker_objects_get k user target db with
      | (Ok obj, _) =>
          (Ok (obj, false), mkConnection db ((sid, db) :: sps) (sid + 2) false)
      | (Raise e, _) =>
          (Raise e, mkConnection db ((sid, db) :: sps) (sid + 2) false)
      end
  end.
Proof.
  rewrite get_or_create_tracker_unfold.
  replace (sid + 2) with (sid + 1 + 1) by lia.
  mok reflexivity.
  cbn [conn_errored conn_db conn_savepoints conn_next_sid].
  destruct (Tracker_objects_create_cases k now user target db) as [Hc|Hc];
    rewrite Hc.
  - apply try_except_ok.
    erewrite bind_ok by (by apply atomic_create_ok).
    cbn beta.
    erewrite bind_ok; cycle 1.
    { unfold transaction_savepoint_commit.
      cbn [conn_errored conn_db conn_savepoints conn_next_sid].
      by rewrite savepoint_lookup_top. }
    reflexivity.
  - erewrite try_except_caught; cycle 1.
    { erewrite bind_raise; [reflexivity|]. by apply atomic_create_raise. }
    { reflexivity. }
    erewrite bind_ok; cycle 1.
    { unfold transaction_savepoint_rollback.
      cbn [conn_errored conn_db conn_savepoints conn_next_sid].
      by rewrite savepoint_lookup_top. }
    cbn beta.
    destruct (Tracker_objects_get_cases k user target db)
      as [[obj Hg]|[Hg|Hg]]; rewrite Hg.
    + erewrite bind_ok; cycle 1.
      { unfold execute.
        cbn [conn_errored conn_db conn_savepoints conn_next_sid].
        by rewrite Hg. }
      reflexivity.
    + erewrite bind_raise; [reflexivity|].
      unfold execute. cbn [conn_errored conn_db conn_savepoints conn_next_sid].
      by rewrite Hg.
    + erewrite bind_raise; [reflexivity|].
      unfold execute. cbn [conn_errored conn_db conn_savepoints conn_next_sid].
      by rewrite Hg.
Qed.

(** X14.  Inside a usable transaction, [get_or_create_tracker] never lets
    a database error reach the caller and never leaves the transaction in
    the failed state, whatever the tables hold: it returns, or raises
    [DoesNotExist] or [MultipleObjectsReturned] from the lookup, and
    unless it created the tracker the store is as before. *)
Theorem get_or_create_tracker_no_DatabaseError (k : TrackerModel)
    (now user : Z) (target : option Z) (c : Connection) :
  conn_errored c = false →
  ∃ res c',
    get_or_create_tracker k now user target c = (res, c') ∧
    conn_errored c' = false ∧
    (∀ e, res = Raise e →
       (e = DoesNotExist ∨ e = MultipleObjectsReturned) ∧
       conn_db c' = conn_db c) ∧
    (∀ obj, res = Ok (obj, false) → conn_db c' = conn_db c).
Proof.
  intros Herr. destruct c as [db sps sid err]. simpl in Herr. subst err.
  rewrite get_or_create_tracker_eq.
  destruct (Tracker_objects_create_cases k now user target db) as [Hc|Hc];
    rewrite Hc.
  { eexists _, _. split; [done|]. split; [done|]. split; by intros. }
  destruct (Tracker_objects_get_cases k user target db)
    as [[obj Hg]|[Hg|Hg]]; rewrite Hg;
    (eexists _, _; split; [done|]; split; [done|]; split; [|done]).
  - by intros.
  - intros e [= <-]. eauto.
  - intros e [= <-]. eauto.
Qed.

Lemma get_or_create_tracker_no_DatabaseError_witness :
  ∃ res c',
    get_or_create_tracker TopicReadTracker 20 7 (Some 9) trk_conn = (res, c') ∧
    conn_errored c' = false ∧
    (∀ e, res = Raise e →
       (e = DoesNotExist ∨ e = MultipleObjectsReturned) ∧
       conn_db c' = conn_db trk_conn) ∧
    (∀ obj, res = Ok (obj, false) → conn_db c' = conn_db trk_conn).
Proof.
  apply (get_or_create_tracker_no_DatabaseError TopicReadTracker 20 7 (Some 9)
           trk_conn).
  reflexivity.
Defined.

Lemma tracker_target_exists_set_tracker_table k t db x :
  tracker_target_exists k (set_tracker_table k t db) x
  = tracker_target_exists k db x.
Proof. by destruct k. Qed.

Lemma tracker_table_set_tracker_table k t db :
  tracker_table k (set_tracker_table k t db) = t.
Proof. by destruct k. Qed.

(** The insert keeps [unique_together] when no row conflicts. *)
Lemma tracker_unique_insert k now user target db :
  tracker_conflicts k user target db = [] →
  tracker_unique k db →
  tracker_unique k
    (set_tracker_table k
       (tbl_insert (mkTrackerRow user target now) (tracker_table k db)).2 db).
Proof.
  intros Hnone Huniq. unfold tracker_unique.
  rewrite tracker_table_set_tracker_table. cbn [tbl_insert snd rows].
  set (n := next_id (tracker_table k db)).
  assert (∀ pk r, rows (tracker_table k db) !! pk = Some r →
                  trk_user_id r = user → trk_target_id r = target →
                  is_Some target → False) as Hno.
  { intros pk r Hr Hu Ht Hs.
    apply (proj1 (tbl_filter_nil _ _) Hnone pk r Hr). by simpl. }
  intros pk1 r1 H1 pk2 r2 H2 Hu Ht Hs.
  destruct (decide (pk1 = n)) as [->|Hn1], (decide (pk2 = n)) as [->|Hn2];
    [done| | |].
  - rewrite lookup_insert_eq in H1. injection H1 as <-.
    rewrite lookup_insert_ne in H2 by done. simpl in *.
    exfalso. by apply (Hno pk2 r2 H2).
  - rewrite lookup_insert_eq in H2. injection H2 as <-.
    rewrite lookup_insert_ne in H1 by done. simpl in *.
    exfalso. apply (Hno pk1 r1 H1); [done|done|by rewrite <- Ht].
  - rewrite lookup_insert_ne in H1, H2 by done.
    by apply (Huniq pk1 r1 H1 pk2 r2 H2).
Qed.

(** X15.  Calling [get_or_create_tracker] twice for a user and a stored
    topic (or forum): the first call succeeds and keeps the uniqueness of
    the table; the second returns the same tracker, with the same time
    stamp, and [False], and does not change the store. *)
Theorem get_or_create_tracker_twice (k : TrackerModel) (now now' user t : Z)
    (c : Connection) :
  conn_errored c = false →
  tracker_target_exists k (conn_db c) t = true →
  tracker_unique k (conn_db c) →
  ∃ obj is_new c1 c2,
    get_or_create_tracker k now user (Some t) c = (Ok (obj, is_new), c1) ∧
    tracker_unique k (conn_db c1) ∧
    get_or_create_tracker k now' user (Some t) c1 = (Ok (obj, false), c2) ∧
    conn_db c2 = conn_db c1.
Proof.
  intros Herr Hfk Huniq. destruct c as [db sps sid err]. simpl in *. subst err.
  rewrite get_or_create_tracker_eq.
  destruct (tracker_conflicts k user (Some t) db) as [|[pk r] qs] eqn:Hqs.
  - rewrite Tracker_objects_create_new by (done || (simpl; by rewrite Hfk)).
    set (r := mkTrackerRow user (Some t) now).
    set (db' := set_tracker_table k _ db).
    assert (tracker_unique k db') as Huniq'
      by by apply tracker_unique_insert.
    assert ((next_id (tracker_table k db), r)
            ∈ tracker_conflicts k user (Some t) db') as Hin.
    { apply elem_of_tbl_filter. unfold db'.
      rewrite tracker_table_set_tracker_table. cbn [tbl_insert snd rows].
      split; [apply lookup_insert_eq|]. simpl. eauto. }
    eexists _, true, _, _. split; [done|]. split; [done|].
    rewrite get_or_create_tracker_eq.
    rewrite Tracker_objects_create_conflict.
    2:{ intros Hnil. rewrite Hnil in Hin. by apply not_elem_of_nil in Hin. }
    rewrite (Tracker_objects_get_unique k user (Some t) db' _ r Huniq' Hin).
    done.
  - assert ((pk, r) ∈ tracker_conflicts k user (Some t) db) as Hin
      by (rewrite Hqs; left).
    assert (tracker_conflicts k user (Some t) db ≠ []) as Hne
      by by rewrite Hqs.
    rewrite Tracker_objects_create_conflict by done.
    rewrite (Tracker_objects_get_unique k user (Some t) db pk r Huniq Hin).
    eexists _, false, _, _. split; [done|]. split; [done|].
    rewrite get_or_create_tracker_eq.
    rewrite Tracker_objects_create_conflict by done.
    rewrite (Tracker_objects_get_unique k user (Some t) db pk r Huniq Hin).
    done.
Qed.

Lemma get_or_create_tracker_twice_witness :
  ∃ obj is_new c1 c2,
    get_or_create_tracker TopicReadTracker 20 7 (Some 2) trk_conn
      = (Ok (obj, is_new), c1) ∧
    tracker_unique TopicReadTracker (conn_db c1) ∧
    get_or_create_tracker TopicReadTracker 30 7 (Some 2) c1
      = (Ok (obj, false), c2) ∧
    conn_db c2 = conn_db c1.
Proof.
  apply (get_or_create_tracker_twice TopicReadTracker 20 30 7 2 trk_conn).
  - reflexivity.
  - reflexivity.
  - refine (bool_decide_unpack _ _). vm_compute. exact I.
Defined.

(** ** Post.summary *)

Lemma Post_summary_eq body :
  Post_summary body =
  Ok (if decide (50 < length body)%nat
      then take 50 body ++ ["."; "."; "."]%char else body).
Proof.
  unfold Post_summary. destruct (decide (50 < length body)%nat) as [Hlt|Hge].
  - by rewrite bool_decide_true.
  - rewrite bool_decide_false by done.
    cbn [py_and py_or py_truth py_str_add].
    rewrite app_nil_r. by rewrite take_ge by lia.
Qed.

(** X17.  [Post.summary] never raises; the result has at most 53
    characters and starts as the body does; it is the body when that has
    at most 50 characters, and its first 50 followed by three dots
    otherwise; and the summary of a summary is the summary itself. *)
Theorem Post_summary_spec (body : list ascii) :
  ∃ s,
    Post_summary body = Ok s ∧
    (length s ≤ 53)%nat ∧
    take 50 s = take 50 body ∧
    ((length body ≤ 50)%nat → s = body) ∧
    ((50 < length body)%nat → s = take 50 body ++ ["."; "."; "."]%char) ∧
    Post_summary s = Ok s.
Proof.
  eexists. split; [apply Post_summary_eq|].
  destruct (decide (50 < length body)%nat) as [Hlt|Hge].
  - assert (length (take 50 body) = 50%nat) as Hlen
      by (rewrite length_take; lia).
    split; [rewrite length_app, Hlen; simpl; lia|].
    split; [by rewrite take_app_length' by done|].
    split; [lia|]. split; [done|].
    rewrite Post_summary_eq, decide_True
      by (rewrite length_app, Hlen; simpl; lia).
    by rewrite take_app_length' by done.
  - split; [lia|]. split; [done|]. split; [done|]. split; [lia|].
    by rewrite Post_summary_eq, decide_False.
Qed.

Lemma Post_summary_spec_witness :
  Post_summary (replicate 51 "a"%char)
  = Ok (replicate 50 "a"%char ++ ["."; "."; "."]%char).
Proof.
  destruct (Post_summary_spec (replicate 51 "a"%char))
    as (s & Hs & _ & _ & _ & Hlong & _).
  rewrite Hs. f_equal. apply Hlong. vm_compute. lia.
Defined.

(** ** Breadcrumbs *)

(** The chain of parents of a forum, nearest first, when it ends. *)
Inductive ancestors (h : Hierarchy) : option Z → list Z → Prop :=
  | ancestors_root : ancestors h None []
  | ancestors_step p lp rest :
      forum_links h !! p = Some lp →
      ancestors h (fl_parent_id lp) rest →
      ancestors h (Some p) (p :: rest).

Definition parent_of (h : Hierarchy) (o : option Z)
    : Result (option (Z * ForumLinks)) :=
  match o with
  | None => Ok None
  | Some p =>
      match forum_links h !! p with
      | Some lp => Ok (Some (p, lp))
      | None => Raise DoesNotExist
      end
  end.

Lemma Forum_get_parents_loop_ancestors h o anc :
  ancestors h o anc →
  ∃ parent,
    parent_of h o = Ok parent ∧
    ∀ fuel c done, (length anc ≤ fuel)%nat →
      Forum_get_parents_loop fuel h (c :: done) parent
      = Some (Ok (c :: (ForumCrumb <$> reverse anc) ++ done)).
Proof.
  induction 1 as [|p lp rest Hlp Hrest (parent & Hparent & IH)].
  - exists None. split; [done|]. intros fuel c done _. by destruct fuel.
  - exists (Some (p, lp)). split; [by simpl; rewrite Hlp|].
    intros [|fuel] c done Hfuel; simpl in Hfuel; [lia|].
    cbn [Forum_get_parents_loop].
    change (ForumLinks_parent h lp) with (parent_of h (fl_parent_id lp)).
    rewrite Hparent. cbn [py_list_insert take drop app].
    rewrite IH by lia. rewrite reverse_cons, fmap_app, <- app_assoc. done.
Qed.

(** X18.  [Forum.get_parents] for a forum whose chain of parents ends:
    the loop ends after one iteration per ancestor, and the result is the
    category followed by the ancestors from the outermost to the parent. *)
Theorem Forum_get_parents_spec (h : Hierarchy) (self : ForumLinks)
    (anc : list Z) (fuel : nat) :
  fl_category_id self ∈ categories h →
  ancestors h (fl_parent_id self) anc →
  (length anc ≤ fuel)%nat →
  Forum_get_parents fuel h self
  = Some (Ok (CategoryCrumb (fl_category_id self)
              :: (ForumCrumb <$> reverse anc))).
Proof.
  intros Hcat Hanc Hfuel. unfold Forum_get_parents, ForumLinks_category.
  rewrite decide_True by done.
  destruct (Forum_get_parents_loop_ancestors h _ anc Hanc)
    as (parent & Hparent & Hloop).
  change (ForumLinks_parent h self) with (parent_of h (fl_parent_id self)).
  rewrite Hparent, Hloop by done. by rewrite app_nil_r.
Qed.

(** X19.  When the parent of a forum lies on a cycle of parents, the loop
    of [Forum.get_parents] does not end, however many iterations it is
    given. *)
Theorem Forum_get_parents_cycle (h : Hierarchy) (self : ForumLinks)
    (S : gset Z) (p : Z) :
  (∀ q, q ∈ S → ∃ lq q', forum_links h !! q = Some lq ∧
                          fl_parent_id lq = Some q' ∧ q' ∈ S) →
  fl_category_id self ∈ categories h →
  fl_parent_id self = Some p →
  p ∈ S →
  ∀ fuel, Forum_get_parents fuel h self = None.
Proof.
  intros Hclosed Hcat Hp HpS fuel.
  assert (∀ fuel q lq parents,
            q ∈ S → forum_links h !! q = Some lq →
            Forum_get_parents_loop fuel h parents (Some (q, lq)) = None)
    as Hloop.
  { clear fuel. induction fuel as [|fuel IH]; intros q lq parents Hq Hlq;
      [done|].
    cbn [Forum_get_parents_loop].
    destruct (Hclosed q Hq) as (lq0 & q' & Hlq0 & Hq' & Hq'S).
    assert (lq0 = lq) as -> by congruence.
    destruct (Hclosed q' Hq'S) as (lq' & _ & Hlq' & _).
    unfold ForumLinks_parent. rewrite Hq', Hlq'. by apply IH. }
  unfold Forum_get_parents, ForumLinks_category.
  rewrite decide_True by done.
  destruct (Hclosed p HpS) as (lp & _ & Hlp & _).
  unfold ForumLinks_parent. rewrite Hp, Hlp. by apply Hloop.
Qed.

(** X20.  [Topic.get_parents] is the breadcrumb of the topic's forum
    followed by that forum; [Post.get_parents] is the category, the forum
    and the topic, without the ancestors of the forum. *)
Theorem Topic_Post_get_parents_spec (h : Hierarchy) (db : DB) (post : Post)
    (topic : Topic) (forum : ForumLinks) (anc : list Z) (fuel : nat) :
  Post_topic_resolved post db = Some topic →
  forum_links h !! Topic_forum_id topic = Some forum →
  fl_category_id forum ∈ categories h →
  ancestors h (fl_parent_id forum) anc →
  (length anc ≤ fuel)%nat →
  Topic_get_parents fuel h topic
  = Some (Ok (CategoryCrumb (fl_category_id forum)
              :: (ForumCrumb <$> reverse anc)
              ++ [ForumCrumb (Topic_forum_id topic)])) ∧
  Post_get_parents h post db
  = (Ok (CategoryCrumb (fl_category_id forum),
         ForumCrumb (Topic_forum_id topic), topic), db).
Proof.
  intros Htopic Hforum Hcat Hanc Hfuel. split.
  - unfold Topic_get_parents. rewrite Hforum.
    unfold Forum_get_parents, ForumLinks_category.
    rewrite decide_True by done.
    destruct (Forum_get_parents_loop_ancestors h _ anc Hanc)
      as (parent & Hparent & Hloop).
    change (ForumLinks_parent h forum) with (parent_of h (fl_parent_id forum)).
    rewrite Hparent, Hloop by done. by rewrite app_nil_r.
  - unfold Post_get_parents.
    mok (by apply Post_get_topic_eq).
    rewrite Hforum. mok (apply from_option_Some).
    unfold ForumLinks_category. rewrite decide_True by done.
    mok (apply ret_eq). reflexivity.
Qed.

(** Category 1 holds forum 1, its child 2 and the child 3 of forum 2;
    forum 4 is its own grandparent through forum 5. *)
Definition demo_hierarchy : Hierarchy :=
  mkHierarchy {[1]}
    {[1 := mkForumLinks 1 None;
      2 := mkForumLinks 1 (Some 1);
      3 := mkForumLinks 1 (Some 2);
      4 := mkForumLinks 1 (Some 5);
      5 := mkForumLinks 1 (Some 4)]}.

Lemma Forum_get_parents_spec_witness :
  Forum_get_parents 2 demo_hierarchy (mkForumLinks 1 (Some 2))
  = Some (Ok [CategoryCrumb 1; ForumCrumb 1; ForumCrumb 2]).
Proof.
  apply (Forum_get_parents_spec demo_hierarchy (mkForumLinks 1 (Some 2))
           [2; 1] 2).
  - vm_compute. reflexivity.
  - repeat (econstructor; [reflexivity|]). constructor.
  - simpl. lia.
Defined.

Lemma Forum_get_parents_cycle_witness :
  Forum_get_parents 1000 demo_hierarchy (mkForumLinks 1 (Some 5)) = None.
Proof.
  refine (Forum_get_parents_cycle demo_hierarchy (mkForumLinks 1 (Some 5))
            {[4; 5]} 5 _ _ _ _ 1000%nat).
  - intros q Hq. apply elem_of_union in Hq as [Hq|Hq];
      apply elem_of_singleton in Hq as ->.
    + exists (mkForumLinks 1 (Some 5)), 5. split; [done|]. split; [done|]. set_solver.
    + exists (mkForumLinks 1 (Some 4)), 4. split; [done|]. split; [done|]. set_solver.
  - vm_compute. reflexivity.
  - reflexivity.
  - set_solver.
Defined.

Lemma Topic_Post_get_parents_spec_witness :
  Topic_get_parents 0 demo_hierarchy
    (Topic_of_row 1 (mkTopicRow 1 (Some 5) (Some 12) 3 false 0))
  = Some (Ok [CategoryCrumb 1; ForumCrumb 1]) ∧
  Post_get_parents demo_hierarchy (Post_of_row 1 (mkPostRow 1 10 None false))
    demo_db
  = (Ok (CategoryCrumb 1, ForumCrumb 1,
         Topic_of_row 1 (mkTopicRow 1 (Some 5) (Some 12) 3 false 0)), demo_db).
Proof.
  apply (Topic_Post_get_parents_spec demo_hierarchy demo_db
           (Post_of_row 1 (mkPostRow 1 10 None false))
           (Topic_of_row 1 (mkTopicRow 1 (Some 5) (Some 12) 3 false 0))
           (mkForumLinks 1 None) [] 0).
  - reflexivity.
  - reflexivity.
  - vm_compute. reflexivity.
  - constructor.
  - simpl. lia.
Defined.

(** ** The counters of a forum and of its topics *)

Definition sum_Z (l : list Z) : Z := foldr Z.add 0 l.

Lemma sum_list_with_sum_Z {A} (f : A → nat) (g : A → Z) (l : list A) :
  (∀ x, x ∈ l → g x = Z.of_nat (f x)) →
  Z.of_nat (sum_list_with f l) = sum_Z (g <$> l).
Proof.
  induction l as [|x l IH]; intros Hfg; csimpl; [done|].
  rewrite Nat2Z.inj_add, IH.
  - rewrite (Hfg x); [done|left].
  - intros y Hy. apply Hfg. by right.
Qed.

(** The posts of a forum, counted topic by topic. *)
Lemma count_forum_posts_by_topic f db :
  count (Post_objects_filter_topic__forum_id f db)
  = sum_Z ((λ t, count (Post_objects_filter_topic_id (Some t.1) db))
           <$> Topic_objects_filter_forum f db).
Proof.
  unfold Post_objects_filter_topic__forum_id. rewrite count_tbl_filter.
  set (ts := Topic_objects_filter_forum f db).
  assert (filter
            (λ p : Z * PostRow,
               tr_forum_id <$> rows (topics db) !! pr_topic_id p.2 = Some f)
            (rows (posts db))
          = filter (λ p, pr_topic_id p.2 ∈ ts.*1) (rows (posts db))) as ->.
  { apply map_filter_ext. intros i p _. simpl. rewrite list_elem_of_fmap.
    split.
    - destruct (rows (topics db) !! pr_topic_id p) as [tr|] eqn:Ht; [|done].
      simpl. intros [= Hf]. exists (pr_topic_id p, tr).
      split; [done|]. by apply elem_of_tbl_filter.
    - intros ([t tr] & -> & Hin). apply elem_of_tbl_filter in Hin as [Ht Hf].
      simpl in *. by rewrite Ht, <- Hf. }
  rewrite size_filter_key_in.
  2:{ unfold ts, Topic_objects_filter_forum, tbl_filter.
      apply NoDup_fst_map_to_list. }
  rewrite sum_list_with_fmap.
  apply sum_list_with_sum_Z. intros [t tr] _. simpl.
  unfold Post_objects_filter_topic_id. by rewrite count_tbl_filter.
Qed.

(** X13.  When the counters are right, the [post_count] of a forum is the
    sum of the [post_count]s of its topics. *)
Theorem forum_post_count_sum (db : DB) (f : Z) (fr : ForumRow) :
  counters_ok db →
  rows (forums db) !! f = Some fr →
  fr_post_count fr
  = sum_Z ((λ t, tr_post_count t.2) <$> Topic_objects_filter_forum f db).
Proof.
  intros [Htopics Hforums] Hfr.
  rewrite (Hforums f fr Hfr). rewrite count_forum_posts_by_topic.
  f_equal. apply list_fmap_ext. intros i [t tr] Hi. simpl.
  apply list_elem_of_lookup_2 in Hi. apply elem_of_tbl_filter in Hi as [Ht _].
  symmetry. apply (Htopics t tr Ht).
Qed.

Lemma forum_post_count_sum_witness :
  3 = sum_Z ((λ t, tr_post_count t.2) <$> Topic_objects_filter_forum 1 demo_db).
Proof.
  apply (forum_post_count_sum demo_db 1 (mkForumRow (Some 12) 3 1)).
  - apply demo_ok.
  - reflexivity.
Defined.

(** ** All counters and time stamps as an invariant *)

(** The row of a topic agrees with its posts: [post_count] is their number
    and, when there is one, [updated] is the time of the last. *)
Definition topic_summary_ok (db : DB) (t : Z) (r : TopicRow) : Prop :=
  tr_post_count r = count (Post_objects_filter_topic_id (Some t) db) ∧
  match head (order_by_created_id_desc
                (Post_objects_filter_topic_id (Some t) db)) with
  | Some p => tr_updated r = Some (updated_or_created p)
  | None => True
  end.

(** The row of a forum agrees with its topics and their posts. *)
Definition forum_summary_ok (db : DB) (f : Z) (r : ForumRow) : Prop :=
  fr_post_count r = count (Post_objects_filter_topic__forum_id f db) ∧
  fr_topic_count r = count (Topic_objects_filter_forum f db) ∧
  match head (order_by_created_id_desc
                (Post_objects_filter_topic__forum_id f db)) with
  | Some p => fr_updated r = Some (updated_or_created p)
  | None => True
  end.

Definition summaries_ok (db : DB) : Prop :=
  map_Forall (topic_summary_ok db) (rows (topics db)) ∧
  map_Forall (forum_summary_ok db) (rows (forums db)).

Global Instance topic_summary_ok_dec db t r : Decision (topic_summary_ok db t r).
Proof. unfold topic_summary_ok. destruct (head _); apply _. Defined.
Global Instance forum_summary_ok_dec db f r : Decision (forum_summary_ok db f r).
Proof. unfold forum_summary_ok. destruct (head _); apply _. Defined.
Global Instance summaries_ok_dec db : Decision (summaries_ok db).
Proof. unfold summaries_ok. apply _. Defined.

Lemma topic_summary_ok_recomputed db t r :
  rows (topics db) !! t = Some r →
  topic_summary_ok db t r ↔ Topic_recomputed t db.
Proof.
  intros Hr. unfold topic_summary_ok, Topic_recomputed. split.
  - intros [Hc Hu]. exists r. split; [done|]. split; [done|].
    intros p Hp.
    by rewrite (head_order_desc_last _ _ (keyed_topic_posts _ _) Hp) in Hu.
  - intros (r' & Hr' & Hc & Hu). assert (r' = r) as -> by congruence.
    split; [done|].
    destruct (head _) as [p|] eqn:Hp; [|done].
    by apply Hu, head_order_desc_Some.
Qed.

Lemma forum_summary_ok_recomputed db f r :
  rows (forums db) !! f = Some r →
  forum_summary_ok db f r ↔ Forum_recomputed f db.
Proof.
  intros Hr. unfold forum_summary_ok, Forum_recomputed. split.
  - intros (Hc & Ht & Hu). exists r. do 3 (split; [done|]).
    intros p Hp.
    by rewrite (head_order_desc_last _ _ (keyed_forum_posts _ _) Hp) in Hu.
  - intros (r' & Hr' & Hc & Ht & Hu). assert (r' = r) as -> by congruence.
    do 2 (split; [done|]).
    destruct (head _) as [p|] eqn:Hp; [|done].
    by apply Hu, head_order_desc_Some.
Qed.

Lemma summaries_ok_counters_ok db : summaries_ok db → counters_ok db.
Proof.
  intros [Ht Hf]. split.
  - intros t r Hr. apply (Ht t r Hr).
  - intros f r Hr. apply (Hf f r Hr).
Qed.

(** What the summary of a topic, and of a forum, depends on. *)
Lemma topic_summary_ok_frame db db' t r :
  Post_objects_filter_topic_id (Some t) db'
    = Post_objects_filter_topic_id (Some t) db →
  topic_summary_ok db t r → topic_summary_ok db' t r.
Proof. unfold topic_summary_ok. by intros ->. Qed.

Lemma forum_summary_ok_frame db db' f r :
  Post_objects_filter_topic__forum_id f db'
    = Post_objects_filter_topic__forum_id f db →
  count (Topic_objects_filter_forum f db')
    = count (Topic_objects_filter_forum f db) →
  forum_summary_ok db f r → forum_summary_ok db' f r.
Proof. unfold forum_summary_ok. by intros -> ->. Qed.

(** The number of topics of a forum depends on the [forum_id] column only. *)
Lemma count_forum_topics_ext f db db' :
  (∀ x, tr_forum_id <$> rows (topics db') !! x
        = tr_forum_id <$> rows (topics db) !! x) →
  count (Topic_objects_filter_forum f db')
  = count (Topic_objects_filter_forum f db).
Proof.
  intros Hids. unfold Topic_objects_filter_forum. rewrite !count_tbl_filter.
  f_equal.
  assert (∀ m : gmap Z TopicRow,
            size (filter (λ t : Z * TopicRow, tr_forum_id t.2 = f) m)
            = size (filter (λ x : Z * Z, x.2 = f) (tr_forum_id <$> m))) as Hsz.
  { intros m. rewrite map_filter_fmap, map_size_fmap. done. }
  rewrite !Hsz. f_equal. f_equal. apply map_eq. intros x.
  rewrite !lookup_fmap. apply Hids.
Qed.

Lemma demo_summaries_ok : summaries_ok demo_db.
Proof. refine (bool_decide_unpack _ _). vm_compute. exact I. Qed.

(** A change of the store that touches the posts of the topics [Ts] only,
    which lie in the forums [Fs], and leaves the other topic and forum
    rows alone, keeps the invariant when the rows of [Ts] and [Fs] are
    right afterwards. *)
Lemma summaries_ok_frame (Ts Fs : gset Z) db db' :
  (∀ k, rows (posts db') !! k = rows (posts db) !! k ∨
        ∀ r, rows (posts db') !! k = Some r ∨ rows (posts db) !! k = Some r →
             pr_topic_id r ∈ Ts) →
  (∀ x, x ∉ Ts → rows (topics db') !! x = rows (topics db) !! x) →
  (∀ x, x ∉ Fs → rows (forums db') !! x = rows (forums db) !! x) →
  (∀ x tr, x ∈ Ts →
     rows (topics db') !! x = Some tr ∨ rows (topics db) !! x = Some tr →
     tr_forum_id tr ∈ Fs) →
  (∀ x r, x ∈ Ts → rows (topics db') !! x = Some r → topic_summary_ok db' x r) →
  (∀ x r, x ∈ Fs → rows (forums db') !! x = Some r → forum_summary_ok db' x r) →
  summaries_ok db → summaries_ok db'.
Proof.
  intros HP HT HF TF RT RF [Hokt Hokf].
  assert (∀ x f', f' ∉ Fs →
            tr_forum_id <$> rows (topics db') !! x = Some f' ↔
            tr_forum_id <$> rows (topics db) !! x = Some f') as Hids.
  { intros x f' Hf'. destruct (decide (x ∈ Ts)) as [Hx|Hx];
      [|by rewrite HT].
    split.
    - destruct (rows (topics db') !! x) as [tr|] eqn:Htr; [|done].
      intros [= <-]. exfalso. apply Hf', (TF x tr Hx). by left.
    - destruct (rows (topics db) !! x) as [tr|] eqn:Htr; [|done].
      intros [= <-]. exfalso. apply Hf', (TF x tr Hx). by right. }
  split.
  - intros t' r' Hr'. destruct (decide (t' ∈ Ts)) as [Hin|Hnin];
      [by apply RT|].
    rewrite HT in Hr' by done.
    apply (topic_summary_ok_frame db); [|by apply Hokt].
    apply tbl_filter_ext. intros k r. cbn [snd].
    destruct (HP k) as [->|Hch]; [done|].
    split; intros [Hk <-]; exfalso; apply Hnin, Hch; eauto.
  - intros f' r' Hr'. destruct (decide (f' ∈ Fs)) as [Hin|Hnin];
      [by apply RF|].
    rewrite HF in Hr' by done.
    apply (forum_summary_ok_frame db); [| |by apply Hokf].
    + apply tbl_filter_ext. intros k r. cbn [snd].
      destruct (HP k) as [->|Hch].
      * by rewrite Hids.
      * split; intros [Hk Hf]; exfalso.
        -- assert (pr_topic_id r ∈ Ts) as Hx by (apply Hch; eauto).
           destruct (rows (topics db') !! pr_topic_id r) as [tr|] eqn:Htr;
             [|done].
           injection Hf as <-. apply Hnin, (TF _ tr Hx). by left.
        -- assert (pr_topic_id r ∈ Ts) as Hx by (apply Hch; eauto).
           destruct (rows (topics db) !! pr_topic_id r) as [tr|] eqn:Htr;
             [|done].
           injection Hf as <-. apply Hnin, (TF _ tr Hx). by right.
    + unfold Topic_objects_filter_forum. rewrite !count_tbl_filter.
      do 2 f_equal. apply map_filter_strong_ext. intros x tr. cbn [snd].
      destruct (decide (x ∈ Ts)) as [Hx|Hx]; [|by rewrite HT].
      split; intros [<- Htr]; exfalso; apply Hnin, (TF x tr Hx); eauto.
Qed.

(** The store after the counters of a topic and then of its forum were
    recomputed. *)
Lemma recompute_facts self self1 t rt f db :
  Topic_id self = Some t →
  rows (topics db) !! t = Some rt →
  Topic_forum_id self = tr_forum_id rt →
  Forum_id f = tr_forum_id rt →
  Topic_recount self db = Some self1 →
  let db2 := Topic_store t self1 db in
  let db3 := Forum_store (Forum_recount f db2) db2 in
  posts db3 = posts db ∧
  rows (topics db3) = <[t := Topic_to_row self1]> (rows (topics db)) ∧
  tr_forum_id (Topic_to_row self1) = tr_forum_id rt ∧
  (∀ x, x ≠ tr_forum_id rt → rows (forums db3) !! x = rows (forums db) !! x) ∧
  (∀ x, tr_forum_id <$> rows (topics db3) !! x
        = tr_forum_id <$> rows (topics db) !! x) ∧
  topic_summary_ok db3 t (Topic_to_row self1) ∧
  (∀ r, rows (forums db3) !! tr_forum_id rt = Some r →
        forum_summary_ok db3 (tr_forum_id rt) r).
Proof.
  intros Ht Hrt Hfid Hf Hrc db2 db3.
  destruct (Topic_recount_on_moderation _ _ _ Hrc) as (_ & Hid1 & Hfor1).
  assert (Topic_forum_id self1 = tr_forum_id rt) as Hfid1.
  { unfold Topic_forum_id in *. by rewrite Hfor1. }
  split; [done|]. split; [done|]. split; [done|]. split.
  { intros x Hx. unfold db3, Forum_store.
    cbn [forums set_forums tbl_update rows Forum_recount Forum_id].
    rewrite lookup_insert_ne; [done|congruence]. }
  split; [intros x; by apply (Topic_store_forum_ids t self1 rt db)|].
  split.
  { apply (topic_summary_ok_recomputed db3 t); [apply lookup_Topic_store|].
    apply (Topic_recount_recomputed self self1 t db db3); try done.
    apply lookup_Topic_store. }
  intros r Hr. apply (forum_summary_ok_recomputed db3 _ r Hr).
  rewrite <- Hf.
  apply (Forum_recount_recomputed f db2 db3); try done.
  exact (lookup_Forum_store (Forum_recount f db2) db2).
Qed.

Lemma Post_store_change now self t old db :
  Post_persisted self db old →
  db_wf db →
  ∀ k, rows (posts (Post_store now self t db)) !! k = rows (posts db) !! k ∨
       ∀ r, rows (posts (Post_store now self t db)) !! k = Some r
            ∨ rows (posts db) !! k = Some r →
            pr_topic_id r ∈ ({[t]} ∪ old_topics old : gset Z).
Proof.
  intros Hold (_ & _ & Hc) k. unfold Post_store.
  destruct Hold as [Hnew | pk r_old rt_old Hpk Hr_old Hrt_old Hfr_old].
  - rewrite Hnew. cbn [posts set_posts tbl_insert rows snd].
    destruct (decide (k = next_id (posts db))) as [->|Hne];
      [|left; by rewrite lookup_insert_ne].
    right. intros r. rewrite lookup_insert_eq.
    destruct (rows (posts db) !! next_id (posts db)) as [r0|] eqn:Hr0.
    { specialize (Hc _ _ Hr0). simpl in Hc. lia. }
    intros [[= <-]|?]; [|done]. simpl. set_solver.
  - rewrite Hpk. cbn [posts set_posts tbl_update rows].
    destruct (decide (k = pk)) as [->|Hne];
      [|left; by rewrite lookup_insert_ne].
    right. intros r. rewrite lookup_insert_eq, Hr_old.
    intros [[= <-]|[= <-]]; simpl; set_solver.
Qed.

Lemma Post_save_summaries now self db topic t rt old self' db' :
  Post_topic_resolved self db = Some topic →
  Topic_synced topic t rt db →
  Post_persisted self db old →
  db_wf db → summaries_ok db →
  Post_save now self db = (Ok self', db') →
  summaries_ok db'.
Proof.
  intros Htopic Hsync Hold Hwf Hok Hsave.
  destruct (Topic_synced_forum _ _ _ _ Hsync Hwf) as (f & fr & Hf & Hfid & Hfr).
  destruct Hsync as (Ht & Hrt & Hsfid).
  destruct (Post_save_spec now self db topic t rt f fr fr old)
    as (topic3 & f' & db2 & Hrc & _ & _ & _ & _ & Hsame & Heq);
    try done; [by rewrite Hfid|].
  destruct (Hsame Hfid) as [-> ->]. clear Hsame.
  cbv zeta in Hrc, Heq. rewrite Heq in Hsave. clear Heq.
  set (db1 := Post_store now self t db) in *.
  set (topic2 := Topic_auto_clear _ _ _) in *.
  assert (Topic_id topic2 = Some t) as Ht2.
  { unfold topic2. by rewrite Topic_auto_clear_id, Topic_head_eval_id. }
  assert (Topic_forum_id topic2 = tr_forum_id rt) as Hfid2.
  { unfold Topic_forum_id, topic2 in *.
    by rewrite Topic_auto_clear_forum, Topic_head_eval_forum. }
  destruct (recompute_facts topic2 topic3 t rt f db1 Ht2 Hrt Hfid2 Hfid Hrc)
    as (Hp3 & Ht3 & Hf3 & Hfor3 & Hids3 & Hokt3 & Hokf3).
  set (db3 := Forum_store (Forum_recount f (Topic_store t topic3 db1))
                (Topic_store t topic3 db1)) in *.
  pose proof (Post_store_change now self t old db Hold Hwf) as HP.
  fold db1 in HP. rewrite <- Hp3 in HP.
  assert (∀ x, x ≠ t → rows (topics db3) !! x = rows (topics db) !! x) as Htop3.
  { intros x Hx. rewrite Ht3. by rewrite lookup_insert_ne. }
  assert (∀ tr, rows (topics db3) !! t = Some tr → tr_forum_id tr = tr_forum_id rt)
    as Htf3.
  { intros tr. rewrite Ht3, lookup_insert_eq. by intros [= <-]. }
  assert (∀ tr, rows (topics db3) !! t = Some tr → topic_summary_ok db3 t tr)
    as Hokt3'.
  { intros tr. rewrite Ht3, lookup_insert_eq. by intros [= <-]. }
  (* no previous topic to recompute *)
  assert (old_topics old ⊆ {[t]} → old_forums old ⊆ {[tr_forum_id rt]} →
          summaries_ok db3) as Hplain.
  { intros Hot Hof.
    apply (summaries_ok_frame {[t]} {[tr_forum_id rt]} db db3); try done.
    - intros k. destruct (HP k) as [?|Hch]; [by left|right].
      intros r Hr. specialize (Hch r Hr). set_solver.
    - intros x Hx. apply Htop3. set_solver.
    - intros x Hx. apply Hfor3. set_solver.
    - intros x tr Hx%elem_of_singleton [Htr|Htr]; subst x.
      + rewrite (Htf3 tr Htr). set_solver.
      + assert (tr = rt) as -> by congruence. set_solver.
    - intros x r Hx%elem_of_singleton. subst x. apply Hokt3'.
    - intros x r Hx%elem_of_singleton. subst x. apply Hokf3. }
  destruct Hold as [Hnew | pk r_old rt_old Hpk Hr_old Hrt_old [fr_old Hfr_old]].
  { injection Hsave as _ <-. by apply Hplain. }
  destruct (decide (pr_topic_id r_old = t)) as [Heqt|Hnet].
  { rewrite bool_decide_true in Hsave by done. injection Hsave as _ <-.
    assert (rt_old = rt) as -> by congruence.
    apply Hplain; simpl; set_solver. }
  rewrite bool_decide_false in Hsave by done.
  set (t_old := pr_topic_id r_old) in *.
  assert (rows (topics db3) !! t_old = Some rt_old) as Hrt_old3.
  { by rewrite Htop3. }
  assert (is_Some (rows (forums db3) !! tr_forum_id rt_old)) as [fr3 Hfr3].
  { apply forums_kept_Forum_store. eauto. }
  rewrite (Post_save_old_counters_eq now _ db3 t_old rt_old
             (Forum_of_row (tr_forum_id rt_old) fr3) fr3) in Hsave; try done.
  2:{ unfold Topic_forum_resolved. cbn [Topic_forum Topic_of_row].
      by rewrite Hfr3. }
  destruct (Topic_recount (Topic_of_row t_old rt_old) db3) as [old1|] eqn:Hrc_old;
    [|done].
  injection Hsave as _ <-.
  destruct (recompute_facts (Topic_of_row t_old rt_old) old1 t_old rt_old
              (Forum_of_row (tr_forum_id rt_old) fr3) db3 eq_refl Hrt_old3
              eq_refl eq_refl Hrc_old)
    as (Hp5 & Ht5 & Hf5 & Hfor5 & Hids5 & Hokt5 & Hokf5).
  set (db5 := Forum_store _ (Topic_store t_old old1 db3)) in *.
  apply (summaries_ok_frame {[t; t_old]}
           {[tr_forum_id rt; tr_forum_id rt_old]} db db5); try done.
  - intros x Hx. rewrite Ht5, lookup_insert_ne by set_solver.
    apply Htop3. set_solver.
  - intros x Hx. rewrite Hfor5 by set_solver. apply Hfor3. set_solver.
  - intros x tr Hx. rewrite Ht5.
    destruct (decide (x = t_old)) as [->|Hxo].
    + rewrite lookup_insert_eq, Hrt_old.
      intros [[= <-]|[= <-]]; [rewrite Hf5|]; set_solver.
    + rewrite lookup_insert_ne by done.
      assert (x = t) as -> by set_solver.
      intros [Htr|Htr].
      * rewrite (Htf3 tr Htr). set_solver.
      * assert (tr = rt) as -> by congruence. set_solver.
  - intros x r Hx. rewrite Ht5.
    destruct (decide (x = t_old)) as [->|Hxo].
    + rewrite lookup_insert_eq. by intros [= <-].
    + rewrite lookup_insert_ne by done.
      assert (x = t) as -> by set_solver.
      intros Hr. apply (topic_summary_ok_frame db3); [|by apply Hokt3'].
      by apply topic_posts_ext.
  - intros x r Hx.
    destruct (decide (x = tr_forum_id rt_old)) as [->|Hxo]; [apply Hokf5|].
    rewrite Hfor5 by done.
    assert (x = tr_forum_id rt) as -> by set_solver.
    intros Hr. apply (forum_summary_ok_frame db3); [| |by apply Hokf3].
    + by apply forum_posts_ext.
    + by apply count_forum_topics_ext.
Qed.

Lemma Topic_delete_summaries self db t rt db' :
  Topic_synced self t rt db →
  db_wf db → summaries_ok db →
  Topic_delete self db = (Ok tt, db') →
  summaries_ok db'.
Proof.
  intros Hsync Hwf Hok Hdel.
  destruct (Topic_synced_forum _ _ _ _ Hsync Hwf) as (f & fr & Hf & Hfid & Hfr).
  destruct Hsync as (Ht & Hrt & Hsfid).
  rewrite (Topic_delete_eq self db t f) in Hdel by done.
  cbv zeta in Hdel. injection Hdel as <-.
  set (db1 := Topic_cascade t db).
  set (db2 := Forum_store (Forum_recount f db1) db1).
  assert (rows (topics db2) !! t = None) as Hgone.
  { destruct (rows (topics db2) !! t) as [r|] eqn:Hr; [|done].
    apply lookup_topics_Topic_cascade in Hr as [_ ?]. done. }
  apply (summaries_ok_frame {[t]} {[tr_forum_id rt]} db db2); try done.
  - intros k. destruct (rows (posts db) !! k) as [r|] eqn:Hr.
    + destruct (decide (pr_topic_id r = t)) as [Heq|Hne].
      * right. intros r'. intros [Hr'|[= <-]]; [|set_solver].
        apply lookup_posts_Topic_cascade in Hr' as [Hr' _].
        assert (r' = r) as -> by congruence. set_solver.
      * left. by apply lookup_posts_Topic_cascade.
    + left. destruct (rows (posts db2) !! k) as [r|] eqn:Hr'; [|done].
      apply lookup_posts_Topic_cascade in Hr' as [Hr' _]. congruence.
  - intros x Hx. assert (x ≠ t) as Hne by set_solver.
    destruct (rows (topics db) !! x) as [r|] eqn:Hr.
    + by apply lookup_topics_Topic_cascade.
    + destruct (rows (topics db2) !! x) as [r|] eqn:Hr'; [|done].
      apply lookup_topics_Topic_cascade in Hr' as [Hr' _]. congruence.
  - intros x Hx. unfold db2, Forum_store.
    cbn [forums set_forums tbl_update rows Forum_recount Forum_id].
    rewrite lookup_insert_ne; [done|]. rewrite Hfid. set_solver.
  - intros x tr Hx%elem_of_singleton. subst x. rewrite Hgone.
    intros [?|Htr]; [done|]. assert (tr = rt) as -> by congruence. set_solver.
  - intros x r Hx%elem_of_singleton. subst x. by rewrite Hgone.
  - intros x r Hx%elem_of_singleton Hr. subst x.
    apply (forum_summary_ok_recomputed db2 _ r Hr). rewrite <- Hfid.
    apply (Forum_recount_recomputed f db1 db2); [done..|].
    exact (lookup_Forum_store (Forum_recount f db1) db1).
Qed.

Lemma Post_delete_summaries now self db pk r topic rt db' :
  Post_id self = Some pk →
  rows (posts db) !! pk = Some r →
  Post_topic_resolved self db = Some topic →
  Topic_synced topic (pr_topic_id r) rt db →
  db_wf db → summaries_ok db →
  Post_delete now self db = (Ok tt, db') →
  summaries_ok db'.
Proof.
  intros Hpk Hr Htopic Hsync Hwf Hok Hdel.
  destruct (Topic_synced_forum _ _ _ _ Hsync Hwf) as (f & fr & Hf & Hfid & Hfr).
  pose proof Hsync as (Ht & Hrt & Hsfid).
  set (t := pr_topic_id r) in *.
  assert ((pk, r) ∈ Topic_posts topic db) as Hin.
  { unfold Topic_posts. rewrite Ht. by apply elem_of_topic_posts. }
  destruct (head (order_by_created_id (Topic_posts topic db))) as [h|] eqn:Hh.
  2:{ apply head_order_asc_None in Hh. rewrite Hh in Hin.
      by apply not_elem_of_nil in Hin. }
  rewrite (Post_delete_unfold now self db topic h) in Hdel by done.
  rewrite Hpk in Hdel. case_bool_decide as Hhead.
  { by eapply Topic_delete_summaries. }
  set (db1 := Post_store_delete pk db) in *.
  destruct (Topic_recount topic db1) as [topic1|] eqn:Hrc.
  2:{ rewrite (bind_raise _ _ _ IndexError db1) in Hdel; [done|].
      by rewrite Topic_update_counters_unfold, Hrc. }
  rewrite (bind_ok _ _ _ (Topic_set_forum (Loaded f) topic1)
             (Topic_store t topic1 db1)) in Hdel.
  2:{ apply (Topic_update_counters_synced _ _ _ db1 t rt f); eauto. }
  rewrite (bind_ok _ _ _ (f, Topic_set_forum (Loaded f) topic1)
             (Topic_store t topic1 db1)) in Hdel.
  2:{ rewrite (Topic_get_forum_eq _ _ f); [|done]. by destruct topic1. }
  cbn beta iota in Hdel.
  rewrite (bind_ok _ _ _ _ _ (Forum_update_counters_eq _ _)) in Hdel.
  injection Hdel as <-.
  destruct (recompute_facts topic topic1 t rt f db1 Ht Hrt Hsfid Hfid Hrc)
    as (Hp3 & Ht3 & Hf3 & Hfor3 & Hids3 & Hokt3 & Hokf3).
  set (db3 := Forum_store _ (Topic_store t topic1 db1)) in *.
  apply (summaries_ok_frame {[t]} {[tr_forum_id rt]} db db3); try done.
  - intros k. rewrite Hp3. unfold db1, Post_store_delete.
    cbn [posts set_posts]. rewrite rows_tbl_delete_pk.
    destruct (decide (k = pk)) as [->|Hne];
      [|left; by rewrite lookup_delete_ne].
    right. intros r'. rewrite lookup_delete_eq, Hr.
    intros [?|[= <-]]; [done|]. set_solver.
  - intros x Hx. rewrite Ht3, lookup_insert_ne; [done|set_solver].
  - intros x Hx. apply Hfor3. set_solver.
  - intros x tr Hx%elem_of_singleton. subst x.
    rewrite Ht3, lookup_insert_eq, Hrt.
    intros [[= <-]|[= <-]]; [rewrite Hf3|]; set_solver.
  - intros x r' Hx%elem_of_singleton. subst x.
    rewrite Ht3, lookup_insert_eq. by intros [= <-].
  - intros x r' Hx%elem_of_singleton. subst x. apply Hokf3.
Qed.

Lemma step_summaries db o db' :
  db_wf db → summaries_ok db → step db o db' → summaries_ok db'.
Proof.
  intros Hwf Hok Hstep. unfold step in Hstep.
  destruct o as [now tid created updated om | now pid tid created updated om
                | now pid | tid]; unfold run_op in Hstep.
  - destruct (rows (topics db) !! tid) as [rt|] eqn:Hrt.
    2:{ by rewrite (bind_raise _ _ _ _ _ (Topic_objects_get_None _ _ Hrt))
          in Hstep. }
    rewrite (bind_ok _ _ _ _ _ (Topic_objects_get_Some _ _ _ Hrt)) in Hstep.
    apply bind_ok_inv in Hstep as (self' & db1 & Hsave & Hret).
    injection Hret as <-.
    refine (Post_save_summaries now _ db (Topic_of_row tid rt) tid rt None
              self' db1 _ _ _ Hwf Hok Hsave);
      [done|by apply Topic_synced_of_row|by apply Post_persisted_new].
  - destruct (rows (posts db) !! pid) as [r|] eqn:Hr.
    2:{ by rewrite (bind_raise _ _ _ _ _ (Post_objects_get_None _ _ Hr))
          in Hstep. }
    rewrite (bind_ok _ _ _ _ _ (Post_objects_get_Some _ _ _ Hr)) in Hstep.
    destruct (rows (topics db) !! tid) as [rt|] eqn:Hrt.
    2:{ by rewrite (bind_raise _ _ _ _ _ (Topic_objects_get_None _ _ Hrt))
          in Hstep. }
    rewrite (bind_ok _ _ _ _ _ (Topic_objects_get_Some _ _ _ Hrt)) in Hstep.
    apply bind_ok_inv in Hstep as (self' & db1 & Hsave & Hret).
    injection Hret as <-.
    pose proof Hwf as (Ha & Hb & _).
    destruct (Ha pid r Hr) as [rt_old Hrt_old]. simpl in Hrt_old.
    refine (Post_save_summaries now _ db (Topic_of_row tid rt) tid rt
              (Some (pr_topic_id r, rt_old)) self' db1 _ _ _ Hwf Hok Hsave);
      [done|by apply Topic_synced_of_row|].
    apply (Post_persisted_old _ _ pid r rt_old); [done..|].
    by apply (Hb (pr_topic_id r) rt_old).
  - destruct (rows (posts db) !! pid) as [r|] eqn:Hr.
    2:{ by rewrite (bind_raise _ _ _ _ _ (Post_objects_get_None _ _ Hr))
          in Hstep. }
    rewrite (bind_ok _ _ _ _ _ (Post_objects_get_Some _ _ _ Hr)) in Hstep.
    pose proof Hwf as (Ha & _ & _).
    destruct (Ha pid r Hr) as [rt Hrt]. simpl in Hrt.
    refine (Post_delete_summaries now (Post_of_row pid r) db pid r
              (Topic_of_row (pr_topic_id r) rt) rt db' eq_refl Hr _ _
              Hwf Hok Hstep); [|done].
    unfold Post_topic_resolved. cbn [Post_topic Post_of_row]. by rewrite Hrt.
  - destruct (rows (topics db) !! tid) as [rt|] eqn:Hrt.
    2:{ by rewrite (bind_raise _ _ _ _ _ (Topic_objects_get_None _ _ Hrt))
          in Hstep. }
    rewrite (bind_ok _ _ _ _ _ (Topic_objects_get_Some _ _ _ Hrt)) in Hstep.
    by apply (Topic_delete_summaries (Topic_of_row tid rt) db tid rt db').
Qed.

(** X12.  Every completed sequence of post creations, post updates, post
    deletions and topic deletions keeps all the denormalised columns
    right, not only [post_count]: for every topic row, [post_count] and
    [updated] (the time of the last post, when there is one); for every
    forum row, [post_count], [topic_count] and [updated]. *)
Theorem summaries_invariant (db : DB) (ops : list Op) (db' : DB) :
  db_wf db → summaries_ok db → steps db ops db' →
  db_wf db' ∧ summaries_ok db'.
Proof.
  intros Hwf Hok Hsteps. induction Hsteps as [db|db o db1 ops db' Hstep _ IH];
    [done|].
  apply IH.
  - by apply (step_preserves db o db1 Hwf (summaries_ok_counters_ok db Hok)).
  - by apply (step_summaries db o db1).
Qed.

Lemma summaries_invariant_witness :
  ∃ db', steps demo_db c1_ops db' ∧ db_wf db' ∧ summaries_ok db'.
Proof.
  assert (∃ db', run_ops c1_ops demo_db = Some db') as [db' Hrun].
  { vm_compute. eexists. reflexivity. }
  apply run_ops_steps in Hrun. exists db'. split; [exact Hrun|].
  apply (summaries_invariant demo_db c1_ops db');
    [apply demo_ok | apply demo_summaries_ok | exact Hrun].
Defined.

(** ** Editing a post *)

(** The posts of a topic after one of them was rewritten in place, with its
    [created] kept: the order of the posts is the same. *)
Lemma is_last_post_edit db db' t pk r_old r_new p p' :
  rows (posts db) !! pk = Some r_old →
  rows (posts db') = <[pk := r_new]> (rows (posts db)) →
  pr_topic_id r_old = t → pr_topic_id r_new = t →
  pr_created r_new = pr_created r_old →
  is_last_post p (Post_objects_filter_topic_id (Some t) db) →
  p' = (if decide (p.1 = pk) then (pk, r_new) else p) →
  is_last_post p' (Post_objects_filter_topic_id (Some t) db').
Proof.
  intros Hold Hrows Hto Htn Hc [Hin Hall] ->.
  destruct p as [k r]. apply elem_of_topic_posts in Hin as [Hk Hkt].
  rewrite Forall_forall in Hall. cbn [fst].
  assert (∀ q, q ∈ Post_objects_filter_topic_id (Some t) db' →
               ∃ q0, q0 ∈ Post_objects_filter_topic_id (Some t) db ∧
                     q0.1 = q.1 ∧ pr_created q0.2 = pr_created q.2) as Hback.
  { intros [k' r'] Hq. apply elem_of_topic_posts in Hq as [Hq Hqt].
    rewrite Hrows in Hq. destruct (decide (k' = pk)) as [->|Hne].
    - rewrite lookup_insert_eq in Hq. injection Hq as <-.
      exists (pk, r_old). split; [by apply elem_of_topic_posts|done].
    - rewrite lookup_insert_ne in Hq by done.
      exists (k', r'). split; [by apply elem_of_topic_posts|done]. }
  destruct (decide (k = pk)) as [->|Hne].
  - assert (r = r_old) as -> by congruence.
    split.
    + apply elem_of_topic_posts. rewrite Hrows, lookup_insert_eq. done.
    + apply Forall_forall. intros q Hq.
      destruct (Hback q Hq) as (q0 & Hq0 & Hk0 & Hc0).
      specialize (Hall q0 Hq0). unfold post_key_le in *. cbn [fst snd] in *.
      rewrite Hc, <- Hk0, <- Hc0. done.
  - split.
    + apply elem_of_topic_posts. rewrite Hrows, lookup_insert_ne by done. done.
    + apply Forall_forall. intros q Hq.
      destruct (Hback q Hq) as (q0 & Hq0 & Hk0 & Hc0).
      specialize (Hall q0 Hq0). unfold post_key_le in *. cbn [fst snd] in *.
      rewrite <- Hk0, <- Hc0. done.
Qed.

(** X9.  Saving a stored post again in its topic, with [created] as it
    is stored, in a store whose counters and time stamps are right: the
    topic's [post_count] stays, and its [updated] changes only when the
    post is the last of the topic by [(created, id)], to the post's
    [updated or created]; an edit of an earlier post leaves it alone. *)
Theorem Post_save_edit (now : Z) (self : Post) (db : DB) (pk : Z)
    (r_old : PostRow) (topic : Topic) (rt : TopicRow) :
  Post_id self = Some pk →
  rows (posts db) !! pk = Some r_old →
  Post_created self = Some (pr_created r_old) →
  Post_topic_resolved self db = Some topic →
  Topic_synced topic (pr_topic_id r_old) rt db →
  db_wf db → summaries_ok db →
  ∃ self' db' rt',
    Post_save now self db = (Ok self', db') ∧
    rows (topics db') !! pr_topic_id r_old = Some rt' ∧
    tr_post_count rt' = tr_post_count rt ∧
    (∀ p, is_last_post p (Post_objects_filter_topic_id
                            (Some (pr_topic_id r_old)) db) →
       tr_updated rt'
       = if decide (p.1 = pk)
         then Some (default (pr_created r_old) (Post_updated self))
         else tr_updated rt).
Proof.
  intros Hpk Hr_old Hcreated Htopic Hsync Hwf Hok.
  set (t := pr_topic_id r_old) in *.
  pose proof Hsync as (Ht & Hrt & Hsfid).
  assert (is_Some (rows (forums db) !! tr_forum_id rt)) as Hfr.
  { destruct Hwf as (_ & Hwt & _). apply (Hwt _ _ Hrt). }
  destruct (Post_save_main now self db topic t rt (Some (t, rt)) Htopic Hsync
              (Post_persisted_old _ _ pk r_old rt Hpk Hr_old Hrt Hfr) Hwf)
    as (self' & db3 & Hsave & _ & Hposts & (rt' & Hrt' & Hpc & Hup) & _).
  rewrite bool_decide_true in Hsave by done.
  assert (rows (posts db3) = <[pk := Post_row now self t]> (rows (posts db)))
    as Hrows.
  { rewrite Hposts. unfold Post_store. by rewrite Hpk. }
  destruct Hok as [Hokt _]. destruct (Hokt t rt Hrt) as [Hc0 Hu0].
  exists self', db3, rt'. split; [done|]. split; [done|]. split.
  - rewrite Hpc, Hc0. unfold Post_objects_filter_topic_id.
    rewrite !count_tbl_filter, Hrows. f_equal.
    by apply (size_filter_insert_same _ _ _ r_old).
  - intros p Hp.
    assert (pr_created (Post_row now self t) = pr_created r_old) as Hc.
    { cbn [Post_row pr_created]. by rewrite Hcreated. }
    pose proof (is_last_post_edit db db3 t pk r_old (Post_row now self t) p
                  (if decide (p.1 = pk) then (pk, Post_row now self t) else p)
                  Hr_old Hrows eq_refl eq_refl Hc Hp eq_refl) as Hp'.
    rewrite (Hup _ Hp').
    rewrite (head_order_desc_last _ _ (keyed_topic_posts _ _) Hp) in Hu0.
    destruct (decide (p.1 = pk)); [|done].
    unfold updated_or_created. cbn [snd Post_row pr_created pr_updated].
    by rewrite Hcreated.
Qed.

Lemma Post_save_edit_witness :
  ∃ self' db' rt',
    Post_save 30 (mkPost (Some 2) (Unloaded 1) (Some 11) (Some 30) false)
      demo_db = (Ok self', db') ∧
    rows (topics db') !! 1 = Some rt' ∧
    tr_post_count rt' = 3 ∧
    tr_updated rt' = Some 12.
Proof.
  destruct (Post_save_edit 30
              (mkPost (Some 2) (Unloaded 1) (Some 11) (Some 30) false)
              demo_db 2 (mkPostRow 1 11 None false)
              (Topic_of_row 1 (mkTopicRow 1 (Some 5) (Some 12) 3 false 0))
              (mkTopicRow 1 (Some 5) (Some 12) 3 false 0))
    as (self' & db' & rt' & H1 & H2 & H3 & H4).
  - reflexivity.
  - reflexivity.
  - reflexivity.
  - reflexivity.
  - repeat split; reflexivity.
  - apply demo_ok.
  - apply demo_summaries_ok.
  - exists self', db', rt'. split; [exact H1|]. split; [exact H2|].
    split; [exact H3|].
    apply (H4 (3, mkPostRow 1 12 None false)).
    refine (bool_decide_unpack _ _). vm_compute. exact I.
Defined.

(** ** Moving a topic *)

Lemma db_wf_Topic_store_forum db t self :
  is_Some (rows (forums db) !! Topic_forum_id self) →
  db_wf db → db_wf (Topic_store t self db).
Proof.
  intros Hf (Ha & Hb & Hc). unfold db_wf, Topic_store.
  cbn [posts topics forums set_topics tbl_update rows].
  split; [|split; [|done]].
  - intros p r Hp. specialize (Ha p r Hp). simpl in Ha.
    rewrite lookup_insert. case_decide; [eauto|done].
  - by apply map_Forall_insert_2.
Qed.

(** X22.  [Topic.save] of a stored topic whose instance carries the
    stored [post_count] and [updated], with the same or with another
    forum, keeps every counter and time stamp of the store right. *)
Theorem Topic_save_summaries (now : Z) (self : Topic) (db : DB)
    (pk : Z) (r : TopicRow) (fB : Forum) (frA frB : ForumRow) :
  Topic_id self = Some pk →
  rows (topics db) !! pk = Some r →
  Topic_forum_resolved self db = Some fB →
  rows (forums db) !! tr_forum_id r = Some frA →
  rows (forums db) !! Forum_id fB = Some frB →
  Topic_post_count self = tr_post_count r →
  Topic_updated self = tr_updated r →
  db_wf db → summaries_ok db →
  ∃ self' db',
    Topic_save now self db = (Ok self', db') ∧
    rows (topics db') !! pk = Some (Topic_to_row self) ∧
    db_wf db' ∧ summaries_ok db'.
Proof.
  intros Hid Hr HfB HfrA HfrB Hpc Hup Hwf Hok.
  pose proof (Topic_forum_resolved_id _ _ _ HfB) as HfBid.
  assert (is_Some (rows (forums db) !! Topic_forum_id self)) as HfBex
    by (rewrite <- HfBid; eauto).
  set (db1 := Topic_store pk self db).
  assert (db_wf db1) as Hwf1 by by apply db_wf_Topic_store_forum.
  assert (topic_summary_ok db1 pk (Topic_to_row self)) as Hokt1.
  { destruct Hok as [Hokt _]. destruct (Hokt pk r Hr) as [Hc Hu].
    split; cbn [Topic_to_row tr_post_count tr_updated].
    - by rewrite Hpc.
    - by rewrite Hup. }
  destruct (decide (Forum_id fB = tr_forum_id r)) as [Hsame|Hdiff].
  - exists (Topic_set_forum (Loaded fB) self), db1.
    split.
    { apply (Topic_save_same_forum now self db pk r fB); eauto; congruence. }
    split; [apply lookup_Topic_store|]. split; [done|].
    apply (summaries_ok_frame {[pk]} {[tr_forum_id r]} db db1); try done.
    + intros k. by left.
    + intros x Hx. unfold db1, Topic_store.
      cbn [topics set_topics tbl_update rows].
      rewrite lookup_insert_ne; [done|set_solver].
    + intros x tr Hx%elem_of_singleton. subst x.
      unfold db1. rewrite lookup_Topic_store, Hr.
      intros [[= <-]|[= <-]]; [|set_solver].
      cbn [Topic_to_row tr_forum_id]. rewrite <- HfBid, Hsame. set_solver.
    + intros x r' Hx%elem_of_singleton. subst x.
      unfold db1. rewrite lookup_Topic_store. by intros [= <-].
    + intros x r' Hx%elem_of_singleton Hr'. subst x.
      destruct Hok as [_ Hokf].
      apply (forum_summary_ok_frame db); [| |by apply Hokf].
      * apply forum_posts_ext; [done|]. intros x.
        apply (Topic_store_forum_ids pk self r db x Hr). congruence.
      * apply count_forum_topics_ext. intros x.
        apply (Topic_store_forum_ids pk self r db x Hr). congruence.
  - rewrite (Topic_save_forum_changed now self db pk r frA fB); eauto.
    cbv zeta. fold db1.
    set (fA := Forum_of_row (tr_forum_id r) frA).
    set (db2 := Forum_store (Forum_recount fA db1) db1).
    set (db3 := Forum_store (Forum_recount fB db2) db2).
    assert (Forum_recomputed (tr_forum_id r) db2) as HrecA.
    { apply (Forum_recount_recomputed fA db1 db2); [done..|].
      exact (lookup_Forum_store (Forum_recount fA db1) db1). }
    assert (Forum_recomputed (Forum_id fB) db3) as HrecB.
    { apply (Forum_recount_recomputed fB db2 db3); [done..|].
      exact (lookup_Forum_store (Forum_recount fB db2) db2). }
    eexists _, db3. split; [done|]. split; [apply lookup_Topic_store|].
    split; [by apply db_wf_Forum_store, db_wf_Forum_store|].
    apply (summaries_ok_frame {[pk]} {[tr_forum_id r; Forum_id fB]} db db3);
      try done.
    + intros k. by left.
    + intros x Hx. unfold db3, db2, db1, Forum_store, Topic_store.
      cbn [topics set_forums set_topics tbl_update rows].
      rewrite lookup_insert_ne; [done|set_solver].
    + intros x Hx. unfold db3, db2, Forum_store.
      cbn [forums set_forums tbl_update rows Forum_recount Forum_id fA
           Forum_of_row].
      rewrite !lookup_insert_ne; [done|set_solver..].
    + intros x tr Hx%elem_of_singleton. subst x.
      change (rows (topics db3)) with (rows (topics db1)).
      unfold db1. rewrite lookup_Topic_store, Hr.
      intros [[= <-]|[= <-]]; [|set_solver].
      cbn [Topic_to_row tr_forum_id]. rewrite <- HfBid. set_solver.
    + intros x r' Hx%elem_of_singleton. subst x.
      change (rows (topics db3)) with (rows (topics db1)).
      unfold db1. rewrite lookup_Topic_store. by intros [= <-].
    + intros x r' Hx Hr'.
      destruct (decide (x = Forum_id fB)) as [->|Hne].
      * by apply (forum_summary_ok_recomputed db3 _ r' Hr').
      * assert (x = tr_forum_id r) as -> by set_solver.
        assert (rows (forums db2) !! tr_forum_id r = Some r') as Hr2.
        { revert Hr'. unfold db3, Forum_store.
          cbn [forums set_forums tbl_update rows Forum_recount Forum_id].
          by rewrite lookup_insert_ne by done. }
        apply (forum_summary_ok_frame db2); [done..|].
        by apply (forum_summary_ok_recomputed db2 _ r' Hr2).
Qed.

Lemma Topic_save_summaries_witness :
  ∃ self' db',
    Topic_save 20 (Topic_set_forum (Unloaded 2)
                     (Topic_of_row 1 (mkTopicRow 1 (Some 5) (Some 12) 3 false 0)))
      demo_db = (Ok self', db') ∧
    rows (topics db') !! 1 = Some (mkTopicRow 2 (Some 5) (Some 12) 3 false 0) ∧
    db_wf db' ∧ summaries_ok db'.
Proof.
  apply (Topic_save_summaries 20
           (Topic_set_forum (Unloaded 2)
              (Topic_of_row 1 (mkTopicRow 1 (Some 5) (Some 12) 3 false 0)))
           demo_db 1 (mkTopicRow 1 (Some 5) (Some 12) 3 false 0)
           (Forum_of_row 2 (mkForumRow (Some 13) 1 1))
           (mkForumRow (Some 12) 3 1) (mkForumRow (Some 13) 1 1)).
  - reflexivity.
  - reflexivity.
  - reflexivity.
  - reflexivity.
  - reflexivity.
  - reflexivity.
  - reflexivity.
  - apply demo_ok.
  - apply demo_summaries_ok.
Defined.

(** ** Category *)

(** X21.  The topics of a category are counted forum by forum, and its
    posts topic by topic; when the counters are right, the number of posts
    of a category is the sum of [post_count] over its topics. *)
Theorem Category_counts (h : Hierarchy) (c : Z) (db : DB) :
  count (Category_topics h c db)
  = sum_Z ((λ f, count (Topic_objects_filter_forum f.1 db))
           <$> Category_forums h c) ∧
  count (Category_posts h c db)
  = sum_Z ((λ t, count (Post_objects_filter_topic_id (Some t.1) db))
           <$> Category_topics h c db) ∧
  (counters_ok db →
   count (Category_posts h c db)
   = sum_Z ((λ t, tr_post_count t.2) <$> Category_topics h c db)).
Proof.
  assert (count (Category_posts h c db)
          = sum_Z ((λ t, count (Post_objects_filter_topic_id (Some t.1) db))
                   <$> Category_topics h c db)) as Hposts.
  { unfold Category_posts. rewrite count_tbl_filter.
    set (ts := Category_topics h c db).
    assert (filter
              (λ p : Z * PostRow,
                 (rows (topics db) !! pr_topic_id p.2
                    ≫= λ tr, fl_category_id <$> forum_links h !! tr_forum_id tr)
                 = Some c) (rows (posts db))
            = filter (λ p, pr_topic_id p.2 ∈ ts.*1) (rows (posts db))) as ->.
    { apply map_filter_ext. intros i p _. simpl. rewrite list_elem_of_fmap.
      split.
      - destruct (rows (topics db) !! pr_topic_id p) as [tr|] eqn:Ht;
          [|done].
        simpl. intros Hc. exists (pr_topic_id p, tr).
        split; [done|]. by apply elem_of_tbl_filter.
      - intros ([t tr] & -> & Hin).
        apply elem_of_tbl_filter in Hin as [Ht Hc].
        simpl in *. by rewrite Ht. }
    rewrite size_filter_key_in.
    2:{ unfold ts, Category_topics, tbl_filter. apply NoDup_fst_map_to_list. }
    rewrite sum_list_with_fmap.
    apply sum_list_with_sum_Z. intros [t tr] _. simpl.
    unfold Post_objects_filter_topic_id. by rewrite count_tbl_filter. }
  split; [|split; [done|]].
  - unfold Category_topics. rewrite count_tbl_filter.
    set (fs := Category_forums h c).
    assert (filter
              (λ t : Z * TopicRow,
                 fl_category_id <$> forum_links h !! tr_forum_id t.2 = Some c)
              (rows (topics db))
            = filter (λ t, tr_forum_id t.2 ∈ fs.*1) (rows (topics db))) as ->.
    { apply map_filter_ext. intros i t _. simpl. rewrite list_elem_of_fmap.
      split.
      - destruct (forum_links h !! tr_forum_id t) as [l|] eqn:Hl; [|done].
        simpl. intros [= Hc]. exists (tr_forum_id t, l). split; [done|].
        apply elem_of_map_to_list, map_lookup_filter_Some. done.
      - intros ([f l] & -> & Hin).
        apply elem_of_map_to_list, map_lookup_filter_Some in Hin as [Hl Hc].
        simpl in *. by rewrite Hl, <- Hc. }
    rewrite size_filter_key_in.
    2:{ unfold fs, Category_forums. apply NoDup_fst_map_to_list. }
    rewrite sum_list_with_fmap.
    apply sum_list_with_sum_Z. intros [f l] _. simpl.
    unfold Topic_objects_filter_forum. by rewrite count_tbl_filter.
  - intros [Hokt _]. rewrite Hposts. f_equal.
    apply list_fmap_ext. intros i [t tr] Hi. simpl.
    apply list_elem_of_lookup_2 in Hi. apply elem_of_tbl_filter in Hi as [Ht _].
    symmetry. apply (Hokt t tr Ht).
Qed.

Lemma Category_counts_witness :
  count (Category_posts demo_hierarchy 1 demo_db) = 3 + 1.
Proof.
  destruct (Category_counts demo_hierarchy 1 demo_db) as (_ & _ & H).
  rewrite H by apply demo_ok. vm_compute. reflexivity.
Defined.
